(** * llm-sdk: the streaming core

    A shallow embedding of the streaming layer of [ojbkgo/llm-sdk], and the
    properties its design document states of it.

    The embedding follows the packages of the repository:

    - [utils]: the Server-Sent-Events reader ([SSEReader.ReadEvent],
      [SSEReader.processBuffer], [ParseSSEData]), over models of the
      [bufio.Reader] and [io.ReadCloser] it is given;
    - [api]: the unified chunk, the SDK error, the stream interface and the
      stream processor ([DefaultStreamProcessor.Process]);
    - [openai], [deepseek], [gemini], [anthropic]: the response streams
      ([Recv] and [Close]).

    It is followed by the wire format and sample streams, by the predicates
    the statements use, and by the properties with their proofs.

    Conventions.  A Go [[]byte] is a [list ascii], a Go [string] is a
    [string], a Go [int] or [int64] is a [Z].  A method with a pointer
    receiver takes the receiver's state and returns the new state next to
    its result.  A Go result pair [(v, err)] of which exactly one side is
    set is a sum [V + error].  [json.Unmarshal] and [time.Now] are parameters
    of the streams that call them.  Loops and self-recursive methods take a
    [fuel] argument and answer [None] when it runs out; [ReadEvent] and
    [Recv] supply fuel computed from the unread input, which is shown to be
    enough ([ReadEvent_returns], [Recv_returns]). *)

From Stdlib Require Import String Ascii List ZArith Bool Arith Lia.
From Stdlib Require Import DecimalString.
Import ListNotations.

Local Open Scope list_scope.
Local Open Scope Z_scope.

Set Implicit Arguments.

(** ** Go values shared by all packages *)

(** [[]byte] *)
Definition bytes := list ascii.

Definition newline : ascii := "010"%char.
Definition colon : ascii := ":"%char.
Definition space : ascii := " "%char.
Definition dquote : ascii := "034"%char.

(** [[]byte(s)] and [string(b)] *)
Definition bytes_of (s : string) : bytes := list_ascii_of_string s.
Definition string_of (b : bytes) : string := string_of_list_ascii b.

(** [api.ErrorType] and the seven kinds declared in [pkg/api]. *)
Inductive ErrorType : Type :=
| ErrorTypeAuthentication
| ErrorTypeInvalidRequest
| ErrorTypeRateLimit
| ErrorTypeServer
| ErrorTypeTimeout
| ErrorTypeConnection
| ErrorTypeUnknown.

(** Go [error] values.  [io_EOF] is the sentinel [io.EOF], compared by
    identity in the source; [foreign_error] stands for any error value made
    outside the SDK (a transport read error, an [encoding/json] error, an
    error returned by a consumer callback); [api_Error] is [*api.Error]. *)
#[warnings="-register-all"]
Inductive error : Type :=
| io_EOF
| foreign_error (what : string)
| api_Error (Type_ : ErrorType) (Message : string) (StatusCode : Z)
            (Param Code : string) (RawError : option error).

(** [api.NewError] *)
Definition NewError (errType : ErrorType) (message : string) (statusCode : Z)
           (rawErr : option error) : error :=
  api_Error errType message statusCode EmptyString EmptyString rawErr.

(** [err == io.EOF] *)
Definition is_EOF (e : error) : bool :=
  match e with io_EOF => true | _ => false end.

(** The kind of an error, when it is an SDK error. *)
Definition error_kind (e : error) : option ErrorType :=
  match e with api_Error t _ _ _ _ _ => Some t | _ => None end.

(** ** Package [bytes] / [strings]: the functions the reader calls *)

(** [bytes.Equal] *)
Fixpoint bytes_Equal (a b : bytes) : bool :=
  match a, b with
  | [], [] => true
  | x :: a', y :: b' => Ascii.eqb x y && bytes_Equal a' b'
  | _, _ => false
  end.

(** [bytes.HasSuffix(s, suffix)]:
    [len(s) >= len(suffix) && Equal(s[len(s)-len(suffix):], suffix)] *)
Definition bytes_HasSuffix (s suffix : bytes) : bool :=
  (length suffix <=? length s)%nat
  && bytes_Equal (skipn (length s - length suffix) s) suffix.

(** [bytes.Split(s, []byte{sep})]: the pieces between the separators; an
    input without separator gives one piece, also when it is empty. *)
Fixpoint bytes_Split (s : bytes) (sep : ascii) : list bytes :=
  match s with
  | [] => [[]]
  | c :: s' =>
      if Ascii.eqb c sep then [] :: bytes_Split s' sep
      else match bytes_Split s' sep with
           | piece :: pieces => (c :: piece) :: pieces
           | [] => [[c]]
           end
  end.

(** Position of the first [sep]: what is before it and what is after. *)
Fixpoint bytes_Cut (s : bytes) (sep : ascii) : option (bytes * bytes) :=
  match s with
  | [] => None
  | c :: s' =>
      if Ascii.eqb c sep then Some ([], s')
      else match bytes_Cut s' sep with
           | Some (before, after) => Some (c :: before, after)
           | None => None
           end
  end.

(** [bytes.SplitN(s, []byte{sep}, 2)]: at most two pieces, the second one
    being the unsplit remainder. *)
Definition bytes_SplitN2 (s : bytes) (sep : ascii) : list bytes :=
  match bytes_Cut s sep with
  | Some (before, after) => [before; after]
  | None => [s]
  end.

(** [strings.HasPrefix] and [strings.TrimPrefix] *)
Definition strings_HasPrefix (s p : string) : bool := String.prefix p s.

Definition strings_TrimPrefix (s p : string) : string :=
  if strings_HasPrefix s p
  then substring (String.length p) (String.length s - String.length p) s
  else s.

(** [s] is not the empty string. *)
Definition nonempty (s : string) : bool :=
  match s with EmptyString => false | _ => true end.

(** ** Package [bufio]: the byte source under the reader

    A [bufio.Reader] over the response body is a finite run of unread bytes
    followed by the condition the transport ends with: [io.EOF] at a clean
    end of input, another error when the connection fails.  That condition
    is what every read returns once the bytes are used up. *)
Module bufio.

Record Reader : Type := mkReader {
  unread : bytes;
  final : error
}.

(** Split [s] after the first [delim]: the line with its delimiter, and the
    rest. *)
Fixpoint through_delim (s : bytes) (delim : ascii) : option (bytes * bytes) :=
  match s with
  | [] => None
  | c :: s' =>
      if Ascii.eqb c delim then Some ([c], s')
      else match through_delim s' delim with
           | Some (line, rest) => Some (c :: line, rest)
           | None => None
           end
  end.

(** [Reader.ReadBytes(delim)]: the data up to and including the delimiter;
    when the input ends before a delimiter is found, the data read so far
    together with the error. *)
Definition ReadBytes (b : Reader) (delim : ascii)
  : (bytes * option error) * Reader :=
  match through_delim (unread b) delim with
  | Some (line, rest) => ((line, None), mkReader rest (final b))
  | None => ((unread b, Some (final b)), mkReader [] (final b))
  end.

End bufio.

(** ** Package [utils]: the SSE reader *)
Module utils.

(** [SSEEvent] *)
Record SSEEvent : Type := mkSSEEvent {
  Event : string;
  Data : string;
  ID : string;
  Retry : Z
}.

(** [SSEEvent{}] *)
Definition zeroSSEEvent : SSEEvent :=
  mkSSEEvent EmptyString EmptyString EmptyString 0.

(** [SSEReader] *)
Record SSEReader : Type := mkSSEReader {
  reader : bufio.Reader;
  delimiter : bytes;
  event : SSEEvent;
  buffer : bytes
}.

Definition set_reader (r : SSEReader) (b : bufio.Reader) : SSEReader :=
  mkSSEReader b (delimiter r) (event r) (buffer r).
Definition set_event (r : SSEReader) (e : SSEEvent) : SSEReader :=
  mkSSEReader (reader r) (delimiter r) e (buffer r).
Definition set_buffer (r : SSEReader) (b : bytes) : SSEReader :=
  mkSSEReader (reader r) (delimiter r) (event r) b.

(** [NewSSEReader] *)
Definition NewSSEReader (source : bufio.Reader) : SSEReader :=
  mkSSEReader source [newline; newline] zeroSSEEvent [].

(** The body of the [for _, line := range lines] loop of [processBuffer]:
    one buffered line applied to the event built so far. *)
Definition processLine (event : SSEEvent) (line : bytes) : SSEEvent :=
  match line with
  | [] => event
  | first :: _ =>
      if Ascii.eqb first colon then event
      else
        match bytes_SplitN2 line colon with
        | [part0; part1] =>
            let field := string_of part0 in
            let value := string_of part1 in
            let value :=
              match value with
              | String c rest => if Ascii.eqb c space then rest else value
              | EmptyString => value
              end in
            if String.eqb field "event" then
              mkSSEEvent value (Data event) (ID event) (Retry event)
            else if String.eqb field "data" then
              let data := if nonempty (Data event)
                          then String.append (Data event) (String newline EmptyString)
                          else Data event in
              mkSSEEvent (Event event) (String.append data value) (ID event) (Retry event)
            else if String.eqb field "id" then
              mkSSEEvent (Event event) (Data event) value (Retry event)
            else if String.eqb field "retry" then
              mkSSEEvent (Event event) (Data event) (ID event) 3000
            else event
        | _ => event
        end
  end.

(** [SSEReader.processBuffer] *)
Definition processBuffer (r : SSEReader) : SSEEvent :=
  let lines := bytes_Split (buffer r) newline in
  fold_left processLine lines zeroSSEEvent.

(** The test that an event is returned to the caller: its [Data] or its
    [Event] is not the empty string. *)
Definition surfaced (e : SSEEvent) : bool :=
  nonempty (Data e) || nonempty (Event e).

(** The test that a complete event is buffered, after [line] was appended:
    [bytes.HasSuffix(r.buffer, r.delimiter) || (len(line) == 1 &&
     line[0] == '\n' && len(r.buffer) > 1 && r.buffer[len(r.buffer)-2] == '\n')] *)
Definition eventComplete (r : SSEReader) (line : bytes) : bool :=
  bytes_HasSuffix (buffer r) (delimiter r)
  || ((length line =? 1)%nat
      && Ascii.eqb (nth 0 line zero) newline
      && (1 <? length (buffer r))%nat
      && Ascii.eqb (nth (length (buffer r) - 2) (buffer r) zero) newline).

(** The [for] loop of [ReadEvent]; one unit of fuel per iteration. *)
Fixpoint ReadEvent_loop (fuel : nat) (r : SSEReader)
  : option ((SSEEvent + error) * SSEReader) :=
  match fuel with
  | O => None
  | S fuel' =>
      let '((line, err), b) := bufio.ReadBytes (reader r) newline in
      let r := set_reader r b in
      match err with
      | Some err =>
          if is_EOF err then
            if (0 <? length (buffer r))%nat
               && negb (bytes_Equal (buffer r) [newline]) then
              let r := set_buffer r (buffer r ++ [newline]) in
              let event := processBuffer r in
              let r := set_buffer r [] in
              if surfaced event then Some (inl event, r)
              else Some (inr err, r)
            else Some (inr err, r)
          else Some (inr err, r)
      | None =>
          let r := set_buffer r (buffer r ++ line) in
          if eventComplete r line then
            let event := processBuffer r in
            let r := set_buffer r [] in
            if surfaced event then Some (inl event, r)
            else ReadEvent_loop fuel' r
          else ReadEvent_loop fuel' r
      end
  end.

(** Iterations [ReadEvent] can need: every iteration but the last takes at
    least one byte off the input. *)
Definition ReadEvent_fuel (r : SSEReader) : nat :=
  S (length (bufio.unread (reader r))).

(** [SSEReader.ReadEvent] *)
Definition ReadEvent (r : SSEReader)
  : option ((SSEEvent + error) * SSEReader) :=
  let r := set_event r zeroSSEEvent in
  ReadEvent_loop (ReadEvent_fuel r) r.

(** [ParseSSEData] *)
Definition ParseSSEData (data : string) : string :=
  if strings_HasPrefix data "data: " then strings_TrimPrefix data "data: "
  else data.

End utils.

(** ** Package [io]: the closer held by every stream

    [io.ReadCloser] is an interface; its [Close] is implemented outside the
    SDK (by the HTTP response body or by whatever the configured HTTP client
    returns).  The closer is modelled by what its successive [Close] calls
    return: [Close_result n] is the result of the call made after [n]
    earlier ones. *)
Module io.

Record ReadCloser : Type := mkReadCloser {
  closes : nat;
  Close_result : nat -> option error
}.

Definition Close (rc : ReadCloser) : option error * ReadCloser :=
  (Close_result rc (closes rc), mkReadCloser (S (closes rc)) (Close_result rc)).

End io.

(** ** Package [api]: unified types, stream interface, stream processor *)
Module api.

(** [type Role string] *)
Definition Role := string.
Definition RoleSystem : Role := "system"%string.
Definition RoleUser : Role := "user"%string.
Definition RoleAssistant : Role := "assistant"%string.

(** [Message] *)
Record Message : Type := mkMessage {
  Role_ : Role;
  Content : string
}.

(** [ChunkChoice] *)
Record ChunkChoice : Type := mkChunkChoice {
  Index : Z;
  Delta : Message;
  FinishReason : string
}.

(** [ResponseChunk] *)
Record ResponseChunk : Type := mkResponseChunk {
  ID : string;
  Object : string;
  Created : Z;
  Model : string;
  Choices : list ChunkChoice
}.

(** [ResponseStream]: the interface every backend stream implements.  [Recv]
    answers [None] only when the implementation does not return. *)
Class ResponseStream (S : Type) : Type := {
  Recv : S -> option ((ResponseChunk + error) * S);
  Close : S -> option error * S
}.

(** The results of [n] successive calls of a [Recv] method, oldest first,
    and the stream they leave. *)
Fixpoint Recv_times {S : Type} (recv : S -> option ((ResponseChunk + error) * S))
         (n : nat) (s : S) : option (list (ResponseChunk + error) * S) :=
  match n with
  | O => Some ([], s)
  | Datatypes.S n' =>
      match recv s with
      | None => None
      | Some (res, s1) =>
          match Recv_times recv n' s1 with
          | None => None
          | Some (rest, s2) => Some (res :: rest, s2)
          end
      end
  end.

(** [StreamOptions].  A callback is a Go closure: it may keep state of its
    own, of type [U], which it reads and updates at every call, and it
    leaves the stream alone; a [nil] callback is [None], a [nil] returned
    error is [None]. *)
Record StreamOptions (U : Type) : Type := mkStreamOptions {
  OnChunk : option (ResponseChunk -> U -> option error * U);
  OnComplete : option (option error -> U -> U);
  OnText : option (string -> U -> option error * U);
  AutoClose : bool
}.

(** [DefaultStreamOptions] *)
Definition DefaultStreamOptions (U : Type) : StreamOptions U :=
  mkStreamOptions None None None true.

(** What [Process] does to the outside, in order: the calls it makes on the
    stream and on the callbacks, each with what it returned. *)
Inductive call : Type :=
| call_Recv (res : ResponseChunk + error)
| call_OnChunk (chunk : ResponseChunk) (ret : option error)
| call_OnText (text : string) (ret : option error)
| call_OnComplete (err : option error)
| call_Close.

(** The state [Process] runs in: the stream, the callbacks' own state and
    the calls made so far. *)
Record run (S U : Type) : Type := mkRun {
  stream : S;
  user : U;
  calls : list call
}.

Section Process.
Context {S U : Type} `{ResponseStream S}.

(** [if options.OnComplete != nil { options.OnComplete(err) }] *)
Definition complete (options : StreamOptions U) (err : option error)
           (st : run S U) : run S U :=
  match OnComplete options with
  | Some f => mkRun (stream st) (f err (user st)) (calls st ++ [call_OnComplete err])
  | None => st
  end.

(** [if options.OnChunk != nil { if err := options.OnChunk(chunk) ... }] *)
Definition chunkCallback (options : StreamOptions U) (chunk : ResponseChunk)
           (st : run S U) : option error * run S U :=
  match OnChunk options with
  | Some f =>
      let (ret, u) := f chunk (user st) in
      (ret, mkRun (stream st) u (calls st ++ [call_OnChunk chunk ret]))
  | None => (None, st)
  end.

(** [if options.OnText != nil && len(chunk.Choices) > 0 { content :=
     chunk.Choices[0].Delta.Content; ... }], with the call made when
    [content] is not the empty string. *)
Definition textCallback (options : StreamOptions U) (chunk : ResponseChunk)
           (st : run S U) : option error * run S U :=
  match OnText options, Choices chunk with
  | Some f, choice0 :: _ =>
      let content := Content (Delta choice0) in
      if nonempty content then
        let (ret, u) := f content (user st) in
        (ret, mkRun (stream st) u (calls st ++ [call_OnText content ret]))
      else (None, st)
  | _, _ => (None, st)
  end.

(** The [for] loop of [Process]; one unit of fuel per [Recv]. *)
Fixpoint Process_loop (fuel : nat) (options : StreamOptions U) (st : run S U)
  : option (option error * run S U) :=
  match fuel with
  | O => None
  | Datatypes.S fuel' =>
      match Recv (stream st) with
      | None => None
      | Some (res, s) =>
          let st := mkRun s (user st) (calls st ++ [call_Recv res]) in
          match res with
          | inr err =>
              if is_EOF err then Some (None, complete options None st)
              else Some (Some err, complete options (Some err) st)
          | inl chunk =>
              match chunkCallback options chunk st with
              | (Some err, st) => Some (Some err, complete options (Some err) st)
              | (None, st) =>
                  match textCallback options chunk st with
                  | (Some err, st) =>
                      Some (Some err, complete options (Some err) st)
                  | (None, st) => Process_loop fuel' options st
                  end
              end
          end
      end
  end.

(** The deferred function of [Process]:
    [if options.AutoClose { stream.Close() }] *)
Definition deferred (options : StreamOptions U) (st : run S U) : run S U :=
  if AutoClose options then
    mkRun (snd (Close (stream st))) (user st) (calls st ++ [call_Close])
  else st.

(** [DefaultStreamProcessor.Process]; [options] is a pointer, [None] when
    [nil].  The run starts with an empty list of calls. *)
Definition Process (fuel : nat) (s : S) (options : option (StreamOptions U))
           (u : U) : option (option error * run S U) :=
  let options := match options with
                 | None => DefaultStreamOptions U
                 | Some o => o
                 end in
  match Process_loop fuel options (mkRun s u []) with
  | Some (ret, st) => Some (ret, deferred options st)
  | None => None
  end.

(** [ProcessWithHandler] *)
Definition ProcessWithHandler (fuel : nat) (s : S)
           (handler : string -> U -> option error * U) (u : U)
  : option (option error * run S U) :=
  Process fuel s (Some (mkStreamOptions None None (Some handler) true)) u.

End Process.

(** [CollectFullContent]: the handler appends to [fullContent]. *)
Definition CollectFullContent {S : Type} `{ResponseStream S} (fuel : nat) (s : S)
  : option (string * option error) :=
  match ProcessWithHandler fuel s
          (fun text fullContent => (None, String.append fullContent text))
          EmptyString with
  | Some (err, st) => Some (user st, err)
  | None => None
  end.

End api.

(** [fmt.Sprintf("%d", n)] *)
Definition fmt_d (n : Z) : string := NilZero.string_of_int (Z.to_int n).

(** Go [int] is 64 bits wide here; [wrap_int] is the value an arithmetic
    result takes in it. *)
Definition wrap_int (n : Z) : Z := (n + 2 ^ 63) mod 2 ^ 64 - 2 ^ 63.

(** ** Package [openai] *)
Module openai.

(** The anonymous structs of [OpenAIStreamResponse.Choices]. *)
Record StreamDelta : Type := mkStreamDelta {
  Content : string;
  Role : string
}.

Record StreamChoice : Type := mkStreamChoice {
  Index : Z;
  Delta : StreamDelta;
  FinishReason : string
}.

(** [OpenAIStreamResponse] *)
Record OpenAIStreamResponse : Type := mkOpenAIStreamResponse {
  ID : string;
  Object : string;
  Created : Z;
  Model : string;
  Choices : list StreamChoice
}.

(** [openaiResponseStream].  [unmarshalled] is not a field of the Go struct:
    it records, oldest first, every input handed to [json.Unmarshal]. *)
Record openaiResponseStream : Type := mkStream {
  reader : utils.SSEReader;
  rawReader : io.ReadCloser;
  unmarshalled : list bytes
}.

Definition set_reader (s : openaiResponseStream) (r : utils.SSEReader) :=
  mkStream r (rawReader s) (unmarshalled s).
Definition note_unmarshal (s : openaiResponseStream) (input : bytes) :=
  mkStream (reader s) (rawReader s) (unmarshalled s ++ [input]).

(** The conversion loop of [Recv]: [choices[i] = api.ChunkChoice{...}]. *)
Definition adaptChoice (choice : StreamChoice) : api.ChunkChoice :=
  api.mkChunkChoice (Index choice)
    (api.mkMessage (Role (Delta choice)) (Content (Delta choice)))
    (FinishReason choice).

Section Stream.
(** [json.Unmarshal] into an [OpenAIStreamResponse]: the decoded value, or
    the decoder's error. *)
Variable json_Unmarshal : bytes -> OpenAIStreamResponse + error.

(** [openaiResponseStream.Recv]; one unit of fuel per call of the method on
    itself. *)
Fixpoint Recv_fuel (fuel : nat) (s : openaiResponseStream)
  : option ((api.ResponseChunk + error) * openaiResponseStream) :=
  match fuel with
  | O => None
  | S fuel' =>
      match utils.ReadEvent (reader s) with
      | None => None
      | Some (inr err, r) =>
          let s := set_reader s r in
          if is_EOF err then Some (inr io_EOF, s)
          else Some (inr (NewError ErrorTypeServer "读取SSE事件失败" 0 (Some err)), s)
      | Some (inl event, r) =>
          let s := set_reader s r in
          if negb (nonempty (utils.Data event))
             || String.eqb (utils.Data event) "[DONE]" then
            if String.eqb (utils.Data event) "[DONE]" then Some (inr io_EOF, s)
            else Recv_fuel fuel' s
          else
            let input := bytes_of (utils.ParseSSEData (utils.Data event)) in
            let s := note_unmarshal s input in
            match json_Unmarshal input with
            | inr err =>
                Some (inr (NewError ErrorTypeServer "解析流式响应失败" 0 (Some err)), s)
            | inl streamResp =>
                let choices := map adaptChoice (Choices streamResp) in
                Some (inl (api.mkResponseChunk (ID streamResp) (Object streamResp)
                             (Created streamResp) (Model streamResp) choices), s)
            end
      end
  end.

(** Calls of [Recv] on itself one outer call can need: each raw event read
    takes input or the pending buffer away. *)
Definition Recv_budget (s : openaiResponseStream) : nat :=
  S (S (length (bufio.unread (utils.reader (reader s))))).

Definition Recv (s : openaiResponseStream) := Recv_fuel (Recv_budget s) s.

(** [openaiResponseStream.Close] *)
Definition Close (s : openaiResponseStream) : option error * openaiResponseStream :=
  let (err, rc) := io.Close (rawReader s) in
  (err, mkStream (reader s) rc (unmarshalled s)).

#[export] Instance stream : api.ResponseStream openaiResponseStream :=
  {| api.Recv := Recv; api.Close := Close |}.

End Stream.
End openai.

(** ** Package [deepseek] *)
Module deepseek.

Record StreamDelta : Type := mkStreamDelta {
  Content : string;
  Role : string
}.

Record StreamChoice : Type := mkStreamChoice {
  Index : Z;
  Delta : StreamDelta;
  FinishReason : string
}.

(** [DeepSeekStreamResponse] *)
Record DeepSeekStreamResponse : Type := mkDeepSeekStreamResponse {
  ID : string;
  Object : string;
  Created : Z;
  Model : string;
  Choices : list StreamChoice
}.

(** [deepseekResponseStream]; [unmarshalled] as in [openai]. *)
Record deepseekResponseStream : Type := mkStream {
  reader : utils.SSEReader;
  rawReader : io.ReadCloser;
  unmarshalled : list bytes
}.

Definition set_reader (s : deepseekResponseStream) (r : utils.SSEReader) :=
  mkStream r (rawReader s) (unmarshalled s).
Definition note_unmarshal (s : deepseekResponseStream) (input : bytes) :=
  mkStream (reader s) (rawReader s) (unmarshalled s ++ [input]).

Definition adaptChoice (choice : StreamChoice) : api.ChunkChoice :=
  api.mkChunkChoice (Index choice)
    (api.mkMessage (Role (Delta choice)) (Content (Delta choice)))
    (FinishReason choice).

Section Stream.
Variable json_Unmarshal : bytes -> DeepSeekStreamResponse + error.

(** [deepseekResponseStream.Recv] *)
Fixpoint Recv_fuel (fuel : nat) (s : deepseekResponseStream)
  : option ((api.ResponseChunk + error) * deepseekResponseStream) :=
  match fuel with
  | O => None
  | S fuel' =>
      match utils.ReadEvent (reader s) with
      | None => None
      | Some (inr err, r) =>
          let s := set_reader s r in
          if is_EOF err then Some (inr io_EOF, s)
          else Some (inr (NewError ErrorTypeServer "读取SSE事件失败" 0 (Some err)), s)
      | Some (inl event, r) =>
          let s := set_reader s r in
          if negb (nonempty (utils.Data event))
             || String.eqb (utils.Data event) "[DONE]" then
            if String.eqb (utils.Data event) "[DONE]" then Some (inr io_EOF, s)
            else Recv_fuel fuel' s
          else
            let input := bytes_of (utils.ParseSSEData (utils.Data event)) in
            let s := note_unmarshal s input in
            match json_Unmarshal input with
            | inr err =>
                Some (inr (NewError ErrorTypeServer "解析流式响应失败" 0 (Some err)), s)
            | inl streamResp =>
                let choices := map adaptChoice (Choices streamResp) in
                Some (inl (api.mkResponseChunk (ID streamResp) (Object streamResp)
                             (Created streamResp) (Model streamResp) choices), s)
            end
      end
  end.

Definition Recv_budget (s : deepseekResponseStream) : nat :=
  S (S (length (bufio.unread (utils.reader (reader s))))).

Definition Recv (s : deepseekResponseStream) := Recv_fuel (Recv_budget s) s.

(** [deepseekResponseStream.Close] *)
Definition Close (s : deepseekResponseStream)
  : option error * deepseekResponseStream :=
  let (err, rc) := io.Close (rawReader s) in
  (err, mkStream (reader s) rc (unmarshalled s)).

#[export] Instance stream : api.ResponseStream deepseekResponseStream :=
  {| api.Recv := Recv; api.Close := Close |}.

End Stream.
End deepseek.

(** ** Package [deepseek], the client without SSE support

    The repository holds a second [deepseek] client whose stream is a
    placeholder: [Recv] reads nothing and always fails. *)
Module deepseek_placeholder.

Record deepseekResponseStream : Type := mkStream {
  reader : io.ReadCloser;
  buffer : bytes
}.

Definition Recv (s : deepseekResponseStream)
  : option ((api.ResponseChunk + error) * deepseekResponseStream) :=
  Some (inr (NewError ErrorTypeUnknown "流式响应功能尚未完全实现" 0 None), s).

Definition Close (s : deepseekResponseStream)
  : option error * deepseekResponseStream :=
  let (err, rc) := io.Close (reader s) in
  (err, mkStream rc (buffer s)).

#[export] Instance stream : api.ResponseStream deepseekResponseStream :=
  {| api.Recv := Recv; api.Close := Close |}.

End deepseek_placeholder.

(** ** Package [gemini] *)
Module gemini.

(** The anonymous structs of [GeminiStreamResponse]. *)
Record Part : Type := mkPart { Text : string }.

Record CandidateContent : Type := mkCandidateContent {
  Parts : list Part;
  Role : string
}.

Record SafetyRating : Type := mkSafetyRating {
  Category : string;
  Probability : string
}.

Record Candidate : Type := mkCandidate {
  Content : CandidateContent;
  FinishReason : string;
  Index : Z;
  SafetyRatings : list SafetyRating
}.

Record UsageMetadata : Type := mkUsageMetadata {
  PromptTokenCount : Z;
  CandidatesTokenCount : Z;
  TotalTokenCount : Z
}.

(** [GeminiStreamResponse] *)
Record GeminiStreamResponse : Type := mkGeminiStreamResponse {
  Candidates : list Candidate;
  Usage : UsageMetadata
}.

(** [geminiResponseStream]; [unmarshalled] as in [openai]. *)
Record geminiResponseStream : Type := mkStream {
  reader : utils.SSEReader;
  rawReader : io.ReadCloser;
  model : string;
  chunkID : Z;
  unmarshalled : list bytes
}.

Definition set_reader (s : geminiResponseStream) (r : utils.SSEReader) :=
  mkStream r (rawReader s) (model s) (chunkID s) (unmarshalled s).
Definition note_unmarshal (s : geminiResponseStream) (input : bytes) :=
  mkStream (reader s) (rawReader s) (model s) (chunkID s) (unmarshalled s ++ [input]).
Definition set_chunkID (s : geminiResponseStream) (n : Z) :=
  mkStream (reader s) (rawReader s) (model s) n (unmarshalled s).

(** [for _, part := range candidate.Content.Parts { content += part.Text }] *)
Definition partsText (parts : list Part) : string :=
  fold_left (fun content part => String.append content (Text part)) parts EmptyString.

(** The body of [for _, candidate := range streamResp.Candidates]: one
    candidate applied to the choices built so far. *)
Definition addCandidate (choices : list api.ChunkChoice) (candidate : Candidate)
  : list api.ChunkChoice :=
  if nonempty (FinishReason candidate) then
    choices ++ [api.mkChunkChoice (Index candidate)
                  (api.mkMessage api.RoleAssistant EmptyString)
                  (FinishReason candidate)]
  else
    let content := partsText (Parts (Content candidate)) in
    if nonempty content then
      choices ++ [api.mkChunkChoice (Index candidate)
                    (api.mkMessage api.RoleAssistant content)
                    EmptyString]
    else choices.

(** The whole candidate loop, from [choices := []api.ChunkChoice{}]. *)
Definition candidateChoices (candidates : list Candidate) : list api.ChunkChoice :=
  fold_left addCandidate candidates [].

Section Stream.
Variable json_Unmarshal : bytes -> GeminiStreamResponse + error.
(** [time.Now().Unix()].  The model has no real time: the reading is an
    arbitrary function of how far the stream has been read, which differs
    between any two calls that return a chunk. *)
Variable time_Now_Unix : utils.SSEReader -> Z.

(** [geminiResponseStream.Recv] *)
Fixpoint Recv_fuel (fuel : nat) (s : geminiResponseStream)
  : option ((api.ResponseChunk + error) * geminiResponseStream) :=
  match fuel with
  | O => None
  | S fuel' =>
      match utils.ReadEvent (reader s) with
      | None => None
      | Some (inr err, r) =>
          let s := set_reader s r in
          if is_EOF err then Some (inr io_EOF, s)
          else Some (inr (NewError ErrorTypeServer "读取SSE事件失败" 0 (Some err)), s)
      | Some (inl event, r) =>
          let s := set_reader s r in
          if negb (nonempty (utils.Data event)) then Recv_fuel fuel' s
          else
            let input := bytes_of (utils.ParseSSEData (utils.Data event)) in
            let s := note_unmarshal s input in
            match json_Unmarshal input with
            | inr err =>
                Some (inr (NewError ErrorTypeServer "解析流式响应失败" 0 (Some err)), s)
            | inl streamResp =>
                if (length (Candidates streamResp) =? 0)%nat then Recv_fuel fuel' s
                else
                  let choices := candidateChoices (Candidates streamResp) in
                  if (length choices =? 0)%nat then Recv_fuel fuel' s
                  else
                    let s := set_chunkID s (wrap_int (chunkID s + 1)) in
                    Some (inl (api.mkResponseChunk
                                 (String.append "chunk-" (fmt_d (chunkID s)))
                                 "chat.completion.chunk"
                                 (time_Now_Unix (reader s))
                                 (model s)
                                 choices), s)
            end
      end
  end.

Definition Recv_budget (s : geminiResponseStream) : nat :=
  S (S (length (bufio.unread (utils.reader (reader s))))).

Definition Recv (s : geminiResponseStream) := Recv_fuel (Recv_budget s) s.

(** [geminiResponseStream.Close] *)
Definition Close (s : geminiResponseStream) : option error * geminiResponseStream :=
  let (err, rc) := io.Close (rawReader s) in
  (err, mkStream (reader s) rc (model s) (chunkID s) (unmarshalled s)).

#[export] Instance stream : api.ResponseStream geminiResponseStream :=
  {| api.Recv := Recv; api.Close := Close |}.

End Stream.
End gemini.

(** ** Package [anthropic] *)
Module anthropic.

(** [AnthropicContentBlock] *)
Record AnthropicContentBlock : Type := mkAnthropicContentBlock {
  block_Type : string;
  block_Text : string
}.

(** [AnthropicContentDelta] *)
Record AnthropicContentDelta : Type := mkAnthropicContentDelta {
  delta_Type : string;
  delta_Text : string
}.

Record Usage : Type := mkUsage {
  InputTokens : Z;
  OutputTokens : Z
}.

(** [AnthropicStreamMessage] *)
Record AnthropicStreamMessage : Type := mkAnthropicStreamMessage {
  ID : string;
  message_Type : string;
  Role : string;
  Content : list AnthropicContentBlock;
  Model : string;
  StopReason : string;
  StopSequence : string;
  message_Usage : Usage
}.

(** [AnthropicStreamResponse]; the two pointer fields are [None] when
    [nil]. *)
Record AnthropicStreamResponse : Type := mkAnthropicStreamResponse {
  Type_ : string;
  Message : AnthropicStreamMessage;
  ContentBlock : option AnthropicContentBlock;
  Delta : option AnthropicContentDelta;
  Index : Z
}.

(** [anthropicResponseStream]; [unmarshalled] as in [openai]. *)
Record anthropicResponseStream : Type := mkStream {
  reader : utils.SSEReader;
  rawReader : io.ReadCloser;
  unmarshalled : list bytes
}.

Definition set_reader (s : anthropicResponseStream) (r : utils.SSEReader) :=
  mkStream r (rawReader s) (unmarshalled s).
Definition note_unmarshal (s : anthropicResponseStream) (input : bytes) :=
  mkStream (reader s) (rawReader s) (unmarshalled s ++ [input]).

(** [streamResp.Delta == nil || streamResp.Delta.Type != "text"] *)
Definition notTextDelta (delta : option AnthropicContentDelta) : bool :=
  match delta with
  | None => true
  | Some d => negb (String.eqb (delta_Type d) "text")
  end.

(** [streamResp.Delta.Text], read after the [nil] test. *)
Definition deltaText (delta : option AnthropicContentDelta) : string :=
  match delta with
  | None => EmptyString
  | Some d => delta_Text d
  end.

Section Stream.
Variable json_Unmarshal : bytes -> AnthropicStreamResponse + error.
(** [time.Now().Unix()], as in [gemini]. *)
Variable time_Now_Unix : utils.SSEReader -> Z.

(** [anthropicResponseStream.Recv] *)
Fixpoint Recv_fuel (fuel : nat) (s : anthropicResponseStream)
  : option ((api.ResponseChunk + error) * anthropicResponseStream) :=
  match fuel with
  | O => None
  | S fuel' =>
      match utils.ReadEvent (reader s) with
      | None => None
      | Some (inr err, r) =>
          let s := set_reader s r in
          if is_EOF err then Some (inr io_EOF, s)
          else Some (inr (NewError ErrorTypeServer "读取SSE事件失败" 0 (Some err)), s)
      | Some (inl event, r) =>
          let s := set_reader s r in
          if negb (nonempty (utils.Data event)) then Recv_fuel fuel' s
          else
            let input := bytes_of (utils.ParseSSEData (utils.Data event)) in
            let s := note_unmarshal s input in
            match json_Unmarshal input with
            | inr err =>
                Some (inr (NewError ErrorTypeServer "解析流式响应失败" 0 (Some err)), s)
            | inl streamResp =>
                if String.eqb (Type_ streamResp) "message_stop" then
                  Some (inr io_EOF, s)
                else if String.eqb (Type_ streamResp) "content_block_delta" then
                  if notTextDelta (Delta streamResp) then Recv_fuel fuel' s
                  else
                    let choices :=
                      [api.mkChunkChoice (Index streamResp)
                         (api.mkMessage api.RoleAssistant
                            (deltaText (Delta streamResp)))
                         EmptyString] in
                    Some (inl (api.mkResponseChunk
                                 EmptyString
                                 "chat.completion.chunk"
                                 (time_Now_Unix (reader s))
                                 EmptyString
                                 choices), s)
                else if String.eqb (Type_ streamResp) "content_block_start" then
                  match ContentBlock streamResp with
                  | None => Recv_fuel fuel' s
                  | Some block =>
                      if negb (String.eqb (block_Type block) "text")
                      then Recv_fuel fuel' s
                      else Recv_fuel fuel' s
                  end
                else if String.eqb (Type_ streamResp) "message_start" then
                  Recv_fuel fuel' s
                else if String.eqb (Type_ streamResp) "message_delta" then
                  if nonempty (StopReason (Message streamResp)) then
                    Some (inr io_EOF, s)
                  else Recv_fuel fuel' s
                else Recv_fuel fuel' s
            end
      end
  end.

Definition Recv_budget (s : anthropicResponseStream) : nat :=
  S (S (length (bufio.unread (utils.reader (reader s))))).

Definition Recv (s : anthropicResponseStream) := Recv_fuel (Recv_budget s) s.

(** [anthropicResponseStream.Close] *)
Definition Close (s : anthropicResponseStream)
  : option error * anthropicResponseStream :=
  let (err, rc) := io.Close (rawReader s) in
  (err, mkStream (reader s) rc (unmarshalled s)).

#[export] Instance stream : api.ResponseStream anthropicResponseStream :=
  {| api.Recv := Recv; api.Close := Close |}.

End Stream.
End anthropic.

(** ** The common shape of the four [Recv] methods

    Every [Recv] reads one raw event, then either returns (a chunk, the
    completion signal, an error) or calls itself to read the next event.
    [interp.drive] is that recursion with the per-event decision factored
    out as [next]; each backend's [Recv_fuel] is shown below to be [drive]
    at its own [next], so that what holds of [drive] holds of all four. *)
Module interp.

Inductive outcome : Type :=
| KeepReading
| Return (res : api.ResponseChunk + error).

Section Drive.
Context {St : Type}.
Variable rd : St -> utils.SSEReader.
Variable put : St -> utils.SSEReader -> St.
Variable next : utils.SSEEvent -> St -> outcome * St.

Fixpoint drive (fuel : nat) (s : St) : option ((api.ResponseChunk + error) * St) :=
  match fuel with
  | O => None
  | S fuel' =>
      match utils.ReadEvent (rd s) with
      | None => None
      | Some (inr err, r) =>
          let s := put s r in
          if is_EOF err then Some (inr io_EOF, s)
          else Some (inr (NewError ErrorTypeServer "读取SSE事件失败" 0 (Some err)), s)
      | Some (inl event, r) =>
          match next event (put s r) with
          | (KeepReading, s) => drive fuel' s
          | (Return res, s) => Some (res, s)
          end
      end
  end.

Definition budget (s : St) : nat :=
  S (S (length (bufio.unread (utils.reader (rd s))))).

End Drive.

(** What [Recv] returns when the reader fails with [e]: the completion
    signal for [io.EOF], a [Server] error around any other error. *)
Definition read_failure (e : error) : error :=
  if is_EOF e then io_EOF
  else NewError ErrorTypeServer "读取SSE事件失败" 0 (Some e).

(** What is left for a reader to deliver: the unread bytes, and one more
    step when lines are pending in its buffer. *)
Definition pending (r : utils.SSEReader) : nat :=
  length (bufio.unread (utils.reader r))
  + match utils.buffer r with [] => 0 | _ => 1 end.

(** The per-event decisions, read off the bodies of the four methods. *)
Definition openai_next (json_Unmarshal : bytes -> openai.OpenAIStreamResponse + error)
           (event : utils.SSEEvent) (s : openai.openaiResponseStream)
  : outcome * openai.openaiResponseStream :=
  if String.eqb (utils.Data event) "[DONE]" then (Return (inr io_EOF), s)
  else if negb (nonempty (utils.Data event)) then (KeepReading, s)
  else
    let input := bytes_of (utils.ParseSSEData (utils.Data event)) in
    let s := openai.note_unmarshal s input in
    match json_Unmarshal input with
    | inr err => (Return (inr (NewError ErrorTypeServer "解析流式响应失败" 0 (Some err))), s)
    | inl streamResp =>
        (Return (inl (api.mkResponseChunk
                        (openai.ID streamResp) (openai.Object streamResp)
                        (openai.Created streamResp) (openai.Model streamResp)
                        (map openai.adaptChoice (openai.Choices streamResp)))), s)
    end.

Definition deepseek_next (json_Unmarshal : bytes -> deepseek.DeepSeekStreamResponse + error)
           (event : utils.SSEEvent) (s : deepseek.deepseekResponseStream)
  : outcome * deepseek.deepseekResponseStream :=
  if String.eqb (utils.Data event) "[DONE]" then (Return (inr io_EOF), s)
  else if negb (nonempty (utils.Data event)) then (KeepReading, s)
  else
    let input := bytes_of (utils.ParseSSEData (utils.Data event)) in
    let s := deepseek.note_unmarshal s input in
    match json_Unmarshal input with
    | inr err => (Return (inr (NewError ErrorTypeServer "解析流式响应失败" 0 (Some err))), s)
    | inl streamResp =>
        (Return (inl (api.mkResponseChunk
                        (deepseek.ID streamResp) (deepseek.Object streamResp)
                        (deepseek.Created streamResp) (deepseek.Model streamResp)
                        (map deepseek.adaptChoice (deepseek.Choices streamResp)))), s)
    end.

Definition gemini_next (json_Unmarshal : bytes -> gemini.GeminiStreamResponse + error)
           (time_Now_Unix : utils.SSEReader -> Z)
           (event : utils.SSEEvent) (s : gemini.geminiResponseStream)
  : outcome * gemini.geminiResponseStream :=
  if negb (nonempty (utils.Data event)) then (KeepReading, s)
  else
    let input := bytes_of (utils.ParseSSEData (utils.Data event)) in
    let s := gemini.note_unmarshal s input in
    match json_Unmarshal input with
    | inr err => (Return (inr (NewError ErrorTypeServer "解析流式响应失败" 0 (Some err))), s)
    | inl streamResp =>
        match gemini.candidateChoices (gemini.Candidates streamResp) with
        | [] => (KeepReading, s)
        | choices =>
            let s := gemini.set_chunkID s (wrap_int (gemini.chunkID s + 1)) in
            (Return (inl (api.mkResponseChunk
                            (String.append "chunk-" (fmt_d (gemini.chunkID s)))
                            "chat.completion.chunk"
                            (time_Now_Unix (gemini.reader s))
                            (gemini.model s)
                            choices)), s)
        end
    end.

Definition anthropic_next (json_Unmarshal : bytes -> anthropic.AnthropicStreamResponse + error)
           (time_Now_Unix : utils.SSEReader -> Z)
           (event : utils.SSEEvent) (s : anthropic.anthropicResponseStream)
  : outcome * anthropic.anthropicResponseStream :=
  if negb (nonempty (utils.Data event)) then (KeepReading, s)
  else
    let input := bytes_of (utils.ParseSSEData (utils.Data event)) in
    let s := anthropic.note_unmarshal s input in
    match json_Unmarshal input with
    | inr err => (Return (inr (NewError ErrorTypeServer "解析流式响应失败" 0 (Some err))), s)
    | inl streamResp =>
        let type := anthropic.Type_ streamResp in
        if String.eqb type "message_stop" then (Return (inr io_EOF), s)
        else if String.eqb type "content_block_delta" then
          match anthropic.Delta streamResp with
          | Some delta =>
              if String.eqb (anthropic.delta_Type delta) "text" then
                (Return (inl (api.mkResponseChunk
                                EmptyString
                                "chat.completion.chunk"
                                (time_Now_Unix (anthropic.reader s))
                                EmptyString
                                [api.mkChunkChoice (anthropic.Index streamResp)
                                   (api.mkMessage api.RoleAssistant
                                      (anthropic.delta_Text delta))
                                   EmptyString])), s)
              else (KeepReading, s)
          | None => (KeepReading, s)
          end
        else if String.eqb type "message_delta" then
          if nonempty (anthropic.StopReason (anthropic.Message streamResp))
          then (Return (inr io_EOF), s)
          else (KeepReading, s)
        else (KeepReading, s)
    end.

End interp.

(** ** Package [api], continued: [StreamToWriter] *)
Module api_writer.

Section StreamToWriter.
Context {S W : Type} `{api.ResponseStream S}.
(** [Write] of the [io.Writer] passed in: it returns the count of bytes
    written and an error, [None] when [nil], and may change the writer,
    whose state is of type [W]. *)
Variable Write : bytes -> W -> (Z * option error) * W.

(** The handler of [StreamToWriter]:
    [_, err := writer.Write([]byte(text)); return err] *)
Definition write_text (text : string) (w : W) : option error * W :=
  let (res, w') := Write (bytes_of text) w in
  (snd res, w').

(** [StreamToWriter] *)
Definition StreamToWriter (fuel : nat) (s : S) (w : W)
  : option (option error * api.run S W) :=
  api.ProcessWithHandler fuel s write_text w.

End StreamToWriter.

End api_writer.

(** * The clients

    The rest of the embedding covers the request and response side of the
    SDK: the request and response types of [pkg/api]; of each client its
    [validateRequest], [adaptRequest], [adaptResponse] and error mapping;
    [NewClient], [Complete] and [CompleteStream] of the OpenAI and DeepSeek
    clients and [CompleteStream] of the Gemini client, over a model of
    [net/http]; the model registry of [pkg/models]; and the retry loop
    [DoHTTPRequest] of [pkg/utils].

    Conventions.  A Go [float64] is a primitive float, a pointer to an
    optional parameter is an [option], a [nil] slice is the empty list and
    a [map[string]interface{}] is the list of its keys with their values.
    [json.Marshal], [json.Unmarshal], the validity check of
    [http.NewRequestWithContext] and the answers of the HTTP transport are
    parameters of the functions that call them. *)

From Stdlib Require PrimFloat.

(** ** Package [api], continued: [Request] *)
Module api_request.

(** The values that are stored as [interface{}] in a request body. *)
#[warnings="-register-all"]
Inductive value : Type :=
| of_string (s : string)
| of_float64 (f : PrimFloat.float)
| of_int (n : Z)
| of_bool (b : bool)
| of_strings (l : list string)
| of_messages (l : list api.Message)
| of_object (m : list (string * value))
| of_objects (l : list (list (string * value)))
| of_string_maps (l : list (list (string * string))).

(** [map[string]interface{}]: the keys in use with their values. *)
Definition object : Type := list (string * value).

(** [m[k]], with [None] for a key that is not in the map. *)
Fixpoint lookup (m : object) (k : string) : option value :=
  match m with
  | [] => None
  | (k', v) :: rest => if String.eqb k' k then Some v else lookup rest k
  end.

(** [m[k] = v] *)
Fixpoint assign (m : object) (k : string) (v : value) : object :=
  match m with
  | [] => [(k, v)]
  | (k', v') :: rest =>
      if String.eqb k' k then (k', v) :: rest else (k', v') :: assign rest k v
  end.

(** [for k, v := range extra { m[k] = v }] *)
Definition assign_all (m extra : object) : object :=
  fold_left (fun m entry => assign m (fst entry) (snd entry)) extra m.

(** [api.Request] *)
Record Request : Type := mkRequest {
  Messages : list api.Message;
  Model : string;
  Temperature : option PrimFloat.float;
  TopP : option PrimFloat.float;
  MaxTokens : option Z;
  PresencePenalty : option PrimFloat.float;
  FrequencyPenalty : option PrimFloat.float;
  Stop : list string;
  Stream : bool;
  ExtraParams : object
}.

(** [reqCopy := *request; reqCopy.Stream = true] *)
Definition set_Stream (request : Request) (stream : bool) : Request :=
  mkRequest (Messages request) (Model request) (Temperature request)
    (TopP request) (MaxTokens request) (PresencePenalty request)
    (FrequencyPenalty request) (Stop request) stream (ExtraParams request).

(** An optional parameter stored under [key] when it is set. *)
Definition assign_float64 (m : object) (key : string) (p : option PrimFloat.float)
  : object :=
  match p with
  | Some x => assign m key (of_float64 x)
  | None => m
  end.

Definition assign_int (m : object) (key : string) (p : option Z) : object :=
  match p with
  | Some n => assign m key (of_int n)
  | None => m
  end.

End api_request.

(** ** Package [api], continued: [Response] *)
Module api_response.

(** [api.Choice] *)
Record Choice : Type := mkChoice {
  Index : Z;
  Message : api.Message;
  FinishReason : string
}.

(** [api.Usage] *)
Record Usage : Type := mkUsage {
  PromptTokens : Z;
  CompletionTokens : Z;
  TotalTokens : Z
}.

(** [api.Response] *)
Record Response : Type := mkResponse {
  ID : string;
  Object : string;
  Created : Z;
  Model : string;
  Choices : list Choice;
  Usage_ : Usage
}.

End api_response.

(** ** Package [net/http]: what the SDK uses of it *)
Module http.

(** [http.Header], one value per key. *)
Definition Header : Type := list (string * string).

(** [h.Set(key, value)] for a key in canonical form. *)
Fixpoint Set_ (h : Header) (key value : string) : Header :=
  match h with
  | [] => [(key, value)]
  | (key', value') :: rest =>
      if String.eqb key' key then (key', value) :: rest
      else (key', value') :: Set_ rest key value
  end.

(** [h.Get(key)] for a key in canonical form; the empty string when the
    key is not set. *)
Fixpoint Get (h : Header) (key : string) : string :=
  match h with
  | [] => EmptyString
  | (key', value) :: rest => if String.eqb key' key then value else Get rest key
  end.

(** [http.Request]: what the SDK sets of it. *)
Record Request : Type := mkRequest {
  Method : string;
  URL : string;
  Body : bytes;
  Header_ : Header
}.

Definition set_Header (req : Request) (h : Header) : Request :=
  mkRequest (Method req) (URL req) (Body req) h.

(** [http.Response]: the status code and the body, which is read as a byte
    source and closed as an [io.ReadCloser]. *)
Record Response : Type := mkResponse {
  StatusCode : Z;
  Body_source : bufio.Reader;
  Body_closer : io.ReadCloser
}.

Definition StatusOK : Z := 200.

(** [http.NewRequestWithContext]: it fails on a method or a URL it cannot
    parse, with the error [invalid] gives, and otherwise makes a request
    without headers. *)
Definition NewRequestWithContext (invalid : string -> string -> option error)
           (method url : string) (body : bytes) : Request + error :=
  match invalid method url with
  | Some err => inr err
  | None => inl (mkRequest method url body [])
  end.

(** [http.Client]: its timeout and what [Do] answers. *)
Record Client : Type := mkClient {
  Timeout : Z;
  Do : Request -> Response + error
}.

(** [io.ReadAll(resp.Body)]: everything up to the end of the body, and the
    error the body ends with unless it is [io.EOF]. *)
Definition ReadAll (body : bufio.Reader) : bytes * option error :=
  (bufio.unread body,
   if is_EOF (bufio.final body) then None else Some (bufio.final body)).

End http.

(** [time.Second], in nanoseconds. *)
Definition time_Second : Z := 1000000000.

(** ** Package [api], continued: [ClientOptions] *)
Module api_client.

(** What [ClientOptions.HTTPClient], an [interface{}], may hold. *)
Inductive HTTPClientValue : Type :=
| http_Client (client : http.Client)
| other_value (what : string).

(** [api.ClientOptions] *)
Record ClientOptions : Type := mkClientOptions {
  APIKey : string;
  BaseURL : string;
  HTTPClient : option HTTPClientValue;
  Timeout : Z;
  MaxRetries : Z
}.

(** [api.ClientOption]: a function that updates the options. *)
Definition ClientOption : Type := ClientOptions -> ClientOptions.

(** What a call of a client returns and does: the result, the HTTP request
    it sent if it sent one, and the body of the response if it received
    one, as the call left it. *)
Record call (T : Type) : Type := mkCall {
  result : T + error;
  sent : option http.Request;
  body : option io.ReadCloser
}.

End api_client.

(** ** Package [openai]: the client side *)
Module openai_client.

(** [validateRequest]; the request is a pointer, [None] when [nil]. *)
Definition validateRequest (request : option api_request.Request) : option error :=
  match request with
  | None => Some (NewError ErrorTypeInvalidRequest "请求不能为空" 0 None)
  | Some request =>
      if negb (nonempty (api_request.Model request)) then
        Some (NewError ErrorTypeInvalidRequest "模型不能为空" 0 None)
      else if (length (api_request.Messages request) =? 0)%nat then
        Some (NewError ErrorTypeInvalidRequest "消息不能为空" 0 None)
      else None
  end.

(** The anonymous structs of [OpenAIResponse]. *)
Record ResponseMessage : Type := mkResponseMessage {
  Role : string;
  Content : string
}.

Record ResponseChoice : Type := mkResponseChoice {
  Index : Z;
  Message : ResponseMessage;
  FinishReason : string
}.

Record ResponseUsage : Type := mkResponseUsage {
  PromptTokens : Z;
  CompletionTokens : Z;
  TotalTokens : Z
}.

(** [OpenAIResponse] *)
Record OpenAIResponse : Type := mkOpenAIResponse {
  ID : string;
  Object : string;
  Created : Z;
  Model : string;
  Choices : list ResponseChoice;
  Usage : ResponseUsage
}.

(** [OpenAIError], with the fields of its [Error] struct. *)
Record OpenAIError : Type := mkOpenAIError {
  error_Message : string;
  error_Type : string;
  error_Param : string;
  error_Code : string
}.

(** [adaptRequest] *)
Definition adaptRequest (request : api_request.Request) : api_request.object :=
  let req := [("model"%string, api_request.of_string (api_request.Model request));
              ("messages"%string,
               api_request.of_messages (api_request.Messages request))] in
  let req := api_request.assign_float64 req "temperature"
               (api_request.Temperature request) in
  let req := api_request.assign_float64 req "top_p" (api_request.TopP request) in
  let req := api_request.assign_int req "max_tokens"
               (api_request.MaxTokens request) in
  let req := api_request.assign_float64 req "presence_penalty"
               (api_request.PresencePenalty request) in
  let req := api_request.assign_float64 req "frequency_penalty"
               (api_request.FrequencyPenalty request) in
  let req := if (0 <? length (api_request.Stop request))%nat
             then api_request.assign req "stop"
                    (api_request.of_strings (api_request.Stop request))
             else req in
  let req := if api_request.Stream request
             then api_request.assign req "stream"
                    (api_request.of_bool (api_request.Stream request))
             else req in
  api_request.assign_all req (api_request.ExtraParams request).

(** The body of the loop of [adaptResponse]. *)
Definition adaptChoice (choice : ResponseChoice) : api_response.Choice :=
  api_response.mkChoice (Index choice)
    (api.mkMessage (Role (Message choice)) (Content (Message choice)))
    (FinishReason choice).

(** [adaptResponse] *)
Definition adaptResponse (openaiResp : OpenAIResponse) : api_response.Response :=
  api_response.mkResponse (ID openaiResp) (Object openaiResp) (Created openaiResp)
    (Model openaiResp) (map adaptChoice (Choices openaiResp))
    (api_response.mkUsage (PromptTokens (Usage openaiResp))
       (CompletionTokens (Usage openaiResp)) (TotalTokens (Usage openaiResp))).

(** [mapOpenAIError] *)
Definition mapOpenAIError (openaiErr : OpenAIError) (statusCode : Z) : error :=
  let errType :=
    if String.eqb (error_Type openaiErr) "invalid_request_error"
    then ErrorTypeInvalidRequest
    else if String.eqb (error_Type openaiErr) "authentication_error"
    then ErrorTypeAuthentication
    else if String.eqb (error_Type openaiErr) "rate_limit_error"
    then ErrorTypeRateLimit
    else if String.eqb (error_Type openaiErr) "server_error"
    then ErrorTypeServer
    else ErrorTypeUnknown in
  api_Error errType (error_Message openaiErr) statusCode
    (error_Param openaiErr) (error_Code openaiErr) None.

(** The defaults of the client. *)
Definition defaultBaseURL : string := "https://api.openai.com/v1".
Definition defaultTimeout : Z := 30 * time_Second.
Definition defaultMaxRetries : Z := 3.

(** [Client] *)
Record Client : Type := mkClient {
  apiKey : string;
  baseURL : string;
  httpClient : http.Client;
  maxRetries : Z
}.

(** The error for a status other than 200 whose body is not JSON. *)
Definition statusError (statusCode : Z) : error :=
  NewError ErrorTypeServer
    (String.append "API错误(状态码: " (String.append (fmt_d statusCode) ")"))
    statusCode None.

Section Calls.
(** What the default transport of [net/http] answers: the network. *)
Variable default_transport : http.Request -> http.Response + error.
Variable json_Marshal : api_request.object -> bytes + error.
(** The error of [http.NewRequestWithContext] for a method or a URL it
    cannot parse. *)
Variable http_invalid : string -> string -> option error.
Variable json_Unmarshal_error : bytes -> OpenAIError + error.
Variable json_Unmarshal_response : bytes -> OpenAIResponse + error.

(** [NewClient] *)
Definition NewClient (options : list api_client.ClientOption) : Client + error :=
  let clientOptions :=
    fold_left (fun clientOptions option => option clientOptions) options
      (api_client.mkClientOptions EmptyString defaultBaseURL None
         (defaultTimeout / time_Second) defaultMaxRetries) in
  if negb (nonempty (api_client.APIKey clientOptions)) then
    inr (NewError ErrorTypeAuthentication "API密钥不能为空" 0 None)
  else
    let httpClient :=
      http.mkClient (wrap_int (api_client.Timeout clientOptions * time_Second))
        default_transport in
    let httpClient :=
      match api_client.HTTPClient clientOptions with
      | Some (api_client.http_Client client) => client
      | _ => httpClient
      end in
    inl (mkClient (api_client.APIKey clientOptions)
           (api_client.BaseURL clientOptions) httpClient
           (api_client.MaxRetries clientOptions)).

(** What both calls return for an answer whose status is not 200. *)
Definition errorResponse (body : bytes) (statusCode : Z) : error :=
  match json_Unmarshal_error body with
  | inr _ => statusError statusCode
  | inl openaiErr => mapOpenAIError openaiErr statusCode
  end.

(** [Client.Complete]; the request is a pointer, [None] when [nil].  The
    answer is [None] where the Go code would dereference [nil]. *)
Definition Complete (c : Client) (request : option api_request.Request)
  : option (api_client.call api_response.Response) :=
  match validateRequest request with
  | Some err => Some (api_client.mkCall (inr err) None None)
  | None =>
      match request with
      | None => None
      | Some request =>
          match json_Marshal (adaptRequest request) with
          | inr err =>
              Some (api_client.mkCall
                      (inr (NewError ErrorTypeInvalidRequest "无法序列化请求" 0
                              (Some err)))
                      None None)
          | inl reqBody =>
              match http.NewRequestWithContext http_invalid "POST"
                      (String.append (baseURL c) "/chat/completions") reqBody with
              | inr err =>
                  Some (api_client.mkCall
                          (inr (NewError ErrorTypeConnection "创建HTTP请求失败" 0
                                  (Some err)))
                          None None)
              | inl req =>
                  let header := http.Header_ req in
                  let header := http.Set_ header "Content-Type" "application/json" in
                  let header := http.Set_ header "Authorization"
                                  (String.append "Bearer " (apiKey c)) in
                  let req := http.set_Header req header in
                  match http.Do (httpClient c) req with
                  | inr err =>
                      Some (api_client.mkCall
                              (inr (NewError ErrorTypeConnection "HTTP请求失败" 0
                                      (Some err)))
                              (Some req) None)
                  | inl resp =>
                      let closed := snd (io.Close (http.Body_closer resp)) in
                      let statusCode := http.StatusCode resp in
                      match http.ReadAll (http.Body_source resp) with
                      | (_, Some err) =>
                          Some (api_client.mkCall
                                  (inr (NewError ErrorTypeServer "读取响应失败"
                                          statusCode (Some err)))
                                  (Some req) (Some closed))
                      | (body, None) =>
                          if negb (statusCode =? http.StatusOK) then
                            Some (api_client.mkCall
                                    (inr (errorResponse body statusCode))
                                    (Some req) (Some closed))
                          else
                            match json_Unmarshal_response body with
                            | inr err =>
                                Some (api_client.mkCall
                                        (inr (NewError ErrorTypeServer "解析响应失败"
                                                statusCode (Some err)))
                                        (Some req) (Some closed))
                            | inl openaiResp =>
                                Some (api_client.mkCall
                                        (inl (adaptResponse openaiResp))
                                        (Some req) (Some closed))
                            end
                      end
                  end
              end
          end
      end
  end.

(** [Client.CompleteStream] *)
Definition CompleteStream (c : Client) (request : option api_request.Request)
  : option (api_client.call openai.openaiResponseStream) :=
  match validateRequest request with
  | Some err => Some (api_client.mkCall (inr err) None None)
  | None =>
      match request with
      | None => None
      | Some request =>
          let reqCopy := api_request.set_Stream request true in
          match json_Marshal (adaptRequest reqCopy) with
          | inr err =>
              Some (api_client.mkCall
                      (inr (NewError ErrorTypeInvalidRequest "无法序列化请求" 0
                              (Some err)))
                      None None)
          | inl reqBody =>
              match http.NewRequestWithContext http_invalid "POST"
                      (String.append (baseURL c) "/chat/completions") reqBody with
              | inr err =>
                  Some (api_client.mkCall
                          (inr (NewError ErrorTypeConnection "创建HTTP请求失败" 0
                                  (Some err)))
                          None None)
              | inl req =>
                  let header := http.Header_ req in
                  let header := http.Set_ header "Content-Type" "application/json" in
                  let header := http.Set_ header "Authorization"
                                  (String.append "Bearer " (apiKey c)) in
                  let header := http.Set_ header "Accept" "text/event-stream" in
                  let req := http.set_Header req header in
                  match http.Do (httpClient c) req with
                  | inr err =>
                      Some (api_client.mkCall
                              (inr (NewError ErrorTypeConnection "HTTP请求失败" 0
                                      (Some err)))
                              (Some req) None)
                  | inl resp =>
                      let statusCode := http.StatusCode resp in
                      if negb (statusCode =? http.StatusOK) then
                        let closed := snd (io.Close (http.Body_closer resp)) in
                        let body := fst (http.ReadAll (http.Body_source resp)) in
                        Some (api_client.mkCall
                                (inr (errorResponse body statusCode))
                                (Some req) (Some closed))
                      else
                        Some (api_client.mkCall
                                (inl (openai.mkStream
                                        (utils.NewSSEReader (http.Body_source resp))
                                        (http.Body_closer resp) []))
                                (Some req) (Some (http.Body_closer resp)))
                  end
              end
          end
      end
  end.

End Calls.

End openai_client.

(** ** Package [deepseek]: the client side *)
Module deepseek_client.

(** [validateRequest] *)
Definition validateRequest (request : option api_request.Request) : option error :=
  match request with
  | None => Some (NewError ErrorTypeInvalidRequest "请求不能为空" 0 None)
  | Some request =>
      if negb (nonempty (api_request.Model request)) then
        Some (NewError ErrorTypeInvalidRequest "模型不能为空" 0 None)
      else if (length (api_request.Messages request) =? 0)%nat then
        Some (NewError ErrorTypeInvalidRequest "消息不能为空" 0 None)
      else None
  end.

Record ResponseMessage : Type := mkResponseMessage {
  Role : string;
  Content : string
}.

Record ResponseChoice : Type := mkResponseChoice {
  Index : Z;
  Message : ResponseMessage;
  FinishReason : string
}.

Record ResponseUsage : Type := mkResponseUsage {
  PromptTokens : Z;
  CompletionTokens : Z;
  TotalTokens : Z
}.

(** [DeepSeekResponse] *)
Record DeepSeekResponse : Type := mkDeepSeekResponse {
  ID : string;
  Object : string;
  Created : Z;
  Model : string;
  Choices : list ResponseChoice;
  Usage : ResponseUsage
}.

(** [DeepSeekError], with the fields of its [Error] struct. *)
Record DeepSeekError : Type := mkDeepSeekError {
  error_Message : string;
  error_Type : string;
  error_Param : string;
  error_Code : string
}.

(** [adaptRequest] *)
Definition adaptRequest (request : api_request.Request) : api_request.object :=
  let req := [("model"%string, api_request.of_string (api_request.Model request));
              ("messages"%string,
               api_request.of_messages (api_request.Messages request))] in
  let req := api_request.assign_float64 req "temperature"
               (api_request.Temperature request) in
  let req := api_request.assign_float64 req "top_p" (api_request.TopP request) in
  let req := api_request.assign_int req "max_tokens"
               (api_request.MaxTokens request) in
  let req := api_request.assign_float64 req "presence_penalty"
               (api_request.PresencePenalty request) in
  let req := api_request.assign_float64 req "frequency_penalty"
               (api_request.FrequencyPenalty request) in
  let req := if (0 <? length (api_request.Stop request))%nat
             then api_request.assign req "stop"
                    (api_request.of_strings (api_request.Stop request))
             else req in
  let req := if api_request.Stream request
             then api_request.assign req "stream"
                    (api_request.of_bool (api_request.Stream request))
             else req in
  api_request.assign_all req (api_request.ExtraParams request).

Definition adaptChoice (choice : ResponseChoice) : api_response.Choice :=
  api_response.mkChoice (Index choice)
    (api.mkMessage (Role (Message choice)) (Content (Message choice)))
    (FinishReason choice).

(** [adaptResponse] *)
Definition adaptResponse (deepseekResp : DeepSeekResponse) : api_response.Response :=
  api_response.mkResponse (ID deepseekResp) (Object deepseekResp)
    (Created deepseekResp) (Model deepseekResp)
    (map adaptChoice (Choices deepseekResp))
    (api_response.mkUsage (PromptTokens (Usage deepseekResp))
       (CompletionTokens (Usage deepseekResp)) (TotalTokens (Usage deepseekResp))).

(** [mapDeepSeekError] *)
Definition mapDeepSeekError (deepseekErr : DeepSeekError) (statusCode : Z) : error :=
  let errType :=
    if String.eqb (error_Type deepseekErr) "invalid_request_error"
    then ErrorTypeInvalidRequest
    else if String.eqb (error_Type deepseekErr) "authentication_error"
    then ErrorTypeAuthentication
    else if String.eqb (error_Type deepseekErr) "rate_limit_error"
    then ErrorTypeRateLimit
    else if String.eqb (error_Type deepseekErr) "server_error"
    then ErrorTypeServer
    else ErrorTypeUnknown in
  api_Error errType (error_Message deepseekErr) statusCode
    (error_Param deepseekErr) (error_Code deepseekErr) None.

(** The defaults of the client. *)
Definition defaultBaseURL : string := "https://api.deepseek.com/v1".
Definition defaultTimeout : Z := 30 * time_Second.
Definition defaultMaxRetries : Z := 3.

(** [Client] *)
Record Client : Type := mkClient {
  apiKey : string;
  baseURL : string;
  httpClient : http.Client;
  maxRetries : Z
}.

(** The error for a status other than 200 whose body is not JSON. *)
Definition statusError (statusCode : Z) : error :=
  NewError ErrorTypeServer
    (String.append "API错误(状态码: " (String.append (fmt_d statusCode) ")"))
    statusCode None.

Section Calls.
(** What the default transport of [net/http] answers: the network. *)
Variable default_transport : http.Request -> http.Response + error.
Variable json_Marshal : api_request.object -> bytes + error.
(** The error of [http.NewRequestWithContext] for a method or a URL it
    cannot parse. *)
Variable http_invalid : string -> string -> option error.
Variable json_Unmarshal_error : bytes -> DeepSeekError + error.
Variable json_Unmarshal_response : bytes -> DeepSeekResponse + error.

(** [NewClient] *)
Definition NewClient (options : list api_client.ClientOption) : Client + error :=
  let clientOptions :=
    fold_left (fun clientOptions option => option clientOptions) options
      (api_client.mkClientOptions EmptyString defaultBaseURL None
         (defaultTimeout / time_Second) defaultMaxRetries) in
  if negb (nonempty (api_client.APIKey clientOptions)) then
    inr (NewError ErrorTypeAuthentication "API密钥不能为空" 0 None)
  else
    let httpClient :=
      http.mkClient (wrap_int (api_client.Timeout clientOptions * time_Second))
        default_transport in
    let httpClient :=
      match api_client.HTTPClient clientOptions with
      | Some (api_client.http_Client client) => client
      | _ => httpClient
      end in
    inl (mkClient (api_client.APIKey clientOptions)
           (api_client.BaseURL clientOptions) httpClient
           (api_client.MaxRetries clientOptions)).

(** What both calls return for an answer whose status is not 200. *)
Definition errorResponse (body : bytes) (statusCode : Z) : error :=
  match json_Unmarshal_error body with
  | inr _ => statusError statusCode
  | inl deepseekErr => mapDeepSeekError deepseekErr statusCode
  end.

(** [Client.Complete]; the request is a pointer, [None] when [nil].  The
    answer is [None] where the Go code would dereference [nil]. *)
Definition Complete (c : Client) (request : option api_request.Request)
  : option (api_client.call api_response.Response) :=
  match validateRequest request with
  | Some err => Some (api_client.mkCall (inr err) None None)
  | None =>
      match request with
      | None => None
      | Some request =>
          match json_Marshal (adaptRequest request) with
          | inr err =>
              Some (api_client.mkCall
                      (inr (NewError ErrorTypeInvalidRequest "无法序列化请求" 0
                              (Some err)))
                      None None)
          | inl reqBody =>
              match http.NewRequestWithContext http_invalid "POST"
                      (String.append (baseURL c) "/chat/completions") reqBody with
              | inr err =>
                  Some (api_client.mkCall
                          (inr (NewError ErrorTypeConnection "创建HTTP请求失败" 0
                                  (Some err)))
                          None None)
              | inl req =>
                  let header := http.Header_ req in
                  let header := http.Set_ header "Content-Type" "application/json" in
                  let header := http.Set_ header "Authorization"
                                  (String.append "Bearer " (apiKey c)) in
                  let req := http.set_Header req header in
                  match http.Do (httpClient c) req with
                  | inr err =>
                      Some (api_client.mkCall
                              (inr (NewError ErrorTypeConnection "HTTP请求失败" 0
                                      (Some err)))
                              (Some req) None)
                  | inl resp =>
                      let closed := snd (io.Close (http.Body_closer resp)) in
                      let statusCode := http.StatusCode resp in
                      match http.ReadAll (http.Body_source resp) with
                      | (_, Some err) =>
                          Some (api_client.mkCall
                                  (inr (NewError ErrorTypeServer "读取响应失败"
                                          statusCode (Some err)))
                                  (Some req) (Some closed))
                      | (body, None) =>
                          if negb (statusCode =? http.StatusOK) then
                            Some (api_client.mkCall
                                    (inr (errorResponse body statusCode))
                                    (Some req) (Some closed))
                          else
                            match json_Unmarshal_response body with
                            | inr err =>
                                Some (api_client.mkCall
                                        (inr (NewError ErrorTypeServer "解析响应失败"
                                                statusCode (Some err)))
                                        (Some req) (Some closed))
                            | inl deepseekResp =>
                                Some (api_client.mkCall
                                        (inl (adaptResponse deepseekResp))
                                        (Some req) (Some closed))
                            end
                      end
                  end
              end
          end
      end
  end.

(** [Client.CompleteStream] *)
Definition CompleteStream (c : Client) (request : option api_request.Request)
  : option (api_client.call deepseek.deepseekResponseStream) :=
  match validateRequest request with
  | Some err => Some (api_client.mkCall (inr err) None None)
  | None =>
      match request with
      | None => None
      | Some request =>
          let reqCopy := api_request.set_Stream request true in
          match json_Marshal (adaptRequest reqCopy) with
          | inr err =>
              Some (api_client.mkCall
                      (inr (NewError ErrorTypeInvalidRequest "无法序列化请求" 0
                              (Some err)))
                      None None)
          | inl reqBody =>
              match http.NewRequestWithContext http_invalid "POST"
                      (String.append (baseURL c) "/chat/completions") reqBody with
              | inr err =>
                  Some (api_client.mkCall
                          (inr (NewError ErrorTypeConnection "创建HTTP请求失败" 0
                                  (Some err)))
                          None None)
              | inl req =>
                  let header := http.Header_ req in
                  let header := http.Set_ header "Content-Type" "application/json" in
                  let header := http.Set_ header "Authorization"
                                  (String.append "Bearer " (apiKey c)) in
                  let header := http.Set_ header "Accept" "text/event-stream" in
                  let req := http.set_Header req header in
                  match http.Do (httpClient c) req with
                  | inr err =>
                      Some (api_client.mkCall
                              (inr (NewError ErrorTypeConnection "HTTP请求失败" 0
                                      (Some err)))
                              (Some req) None)
                  | inl resp =>
                      let statusCode := http.StatusCode resp in
                      if negb (statusCode =? http.StatusOK) then
                        let closed := snd (io.Close (http.Body_closer resp)) in
                        let body := fst (http.ReadAll (http.Body_source resp)) in
                        Some (api_client.mkCall
                                (inr (errorResponse body statusCode))
                                (Some req) (Some closed))
                      else
                        Some (api_client.mkCall
                                (inl (deepseek.mkStream
                                        (utils.NewSSEReader (http.Body_source resp))
                                        (http.Body_closer resp) []))
                                (Some req) (Some (http.Body_closer resp)))
                  end
              end
          end
      end
  end.

End Calls.


End deepseek_client.

(** ** Package [gemini]: the client side *)
Module gemini_client.

(** [validateRequest] *)
Definition validateRequest (request : option api_request.Request) : option error :=
  match request with
  | None => Some (NewError ErrorTypeInvalidRequest "请求不能为空" 0 None)
  | Some request =>
      if negb (nonempty (api_request.Model request)) then
        Some (NewError ErrorTypeInvalidRequest "模型不能为空" 0 None)
      else if (length (api_request.Messages request) =? 0)%nat then
        Some (NewError ErrorTypeInvalidRequest "消息不能为空" 0 None)
      else None
  end.

(** [GeminiError], with the fields of its [Error] struct. *)
Record GeminiError : Type := mkGeminiError {
  error_Code : Z;
  error_Message : string;
  error_Status : string
}.

(** [GeminiResponse]; its candidates and usage are the structs of the
    stream response, [PromptFeedback] holds safety ratings. *)
Record GeminiResponse : Type := mkGeminiResponse {
  Candidates : list gemini.Candidate;
  PromptFeedback : list gemini.SafetyRating;
  UsageMetadata : gemini.UsageMetadata
}.

(** [mapRole] *)
Definition mapRole (role : api.Role) : string :=
  if String.eqb role api.RoleUser then "user"
  else if String.eqb role api.RoleSystem || String.eqb role api.RoleAssistant
       then "model"
       else "user".

(** The [content] map made of one message in [adaptRequest]. *)
Definition messageContent (msg : api.Message) : api_request.object :=
  [("role"%string, api_request.of_string (mapRole (api.Role_ msg)));
   ("parts"%string,
    api_request.of_objects
      [[("text"%string, api_request.of_string (api.Content msg))]])].

(** The [safetySettings] of every request. *)
Definition safetySettings : list (list (string * string)) :=
  [[("category", "HARM_CATEGORY_HARASSMENT"); ("threshold", "BLOCK_NONE")];
   [("category", "HARM_CATEGORY_HATE_SPEECH"); ("threshold", "BLOCK_NONE")];
   [("category", "HARM_CATEGORY_SEXUALLY_EXPLICIT"); ("threshold", "BLOCK_NONE")];
   [("category", "HARM_CATEGORY_DANGEROUS_CONTENT"); ("threshold", "BLOCK_NONE")]]%string.

(** [adaptRequest] *)
Definition adaptRequest (request : api_request.Request) : api_request.object :=
  let contents :=
    fold_left (fun contents msg => contents ++ [messageContent msg])
      (api_request.Messages request) [] in
  let req := [("contents"%string, api_request.of_objects contents)] in
  let generationConfig : api_request.object := [] in
  let generationConfig :=
    api_request.assign_float64 generationConfig "temperature"
      (api_request.Temperature request) in
  let generationConfig :=
    api_request.assign_float64 generationConfig "topP" (api_request.TopP request) in
  let generationConfig :=
    api_request.assign_int generationConfig "maxOutputTokens"
      (api_request.MaxTokens request) in
  let generationConfig :=
    if (0 <? length (api_request.Stop request))%nat
    then api_request.assign generationConfig "stopSequences"
           (api_request.of_strings (api_request.Stop request))
    else generationConfig in
  let req := if (0 <? length generationConfig)%nat
             then api_request.assign req "generationConfig"
                    (api_request.of_object generationConfig)
             else req in
  api_request.assign req "safetySettings" (api_request.of_string_maps safetySettings).

(** [adaptStreamRequest] *)
Definition adaptStreamRequest (request : api_request.Request) : api_request.object :=
  let req := adaptRequest request in
  api_request.assign req "streamGenerationConfig"
    (api_request.of_object
       [("streamContentTokens"%string, api_request.of_bool true)]).

(** The loop of [adaptResponse] from candidate number [i] on: the choices
    so far, with one choice appended for each candidate. *)
Fixpoint rangeCandidates (i : Z) (candidates : list gemini.Candidate)
         (choices : list api_response.Choice) : list api_response.Choice :=
  match candidates with
  | [] => choices
  | candidate :: rest =>
      let content := gemini.partsText (gemini.Parts (gemini.Content candidate)) in
      rangeCandidates (i + 1) rest
        (choices ++ [api_response.mkChoice i
                       (api.mkMessage api.RoleAssistant content)
                       (gemini.FinishReason candidate)])
  end.

(** [adaptResponse]; [now] is the reading of [time.Now().Unix()]. *)
Definition adaptResponse (geminiResp : GeminiResponse) (modelName : string) (now : Z)
  : api_response.Response :=
  let choices := rangeCandidates 0 (Candidates geminiResp) [] in
  api_response.mkResponse EmptyString "chat.completion" now modelName choices
    (api_response.mkUsage
       (gemini.PromptTokenCount (UsageMetadata geminiResp))
       (gemini.CandidatesTokenCount (UsageMetadata geminiResp))
       (gemini.TotalTokenCount (UsageMetadata geminiResp))).

(** [mapGeminiError] *)
Definition mapGeminiError (geminiErr : GeminiError) (statusCode : Z) : error :=
  let code := error_Code geminiErr in
  let errType :=
    if code =? 400 then ErrorTypeInvalidRequest
    else if (code =? 401) || (code =? 403) then ErrorTypeAuthentication
    else if code =? 429 then ErrorTypeRateLimit
    else if (code =? 500) || (code =? 502) || (code =? 503) then ErrorTypeServer
    else ErrorTypeUnknown in
  api_Error errType (error_Message geminiErr) statusCode EmptyString
    (error_Status geminiErr) None.

(** The defaults of the client. *)
Definition defaultBaseURL : string := "https://generativelanguage.googleapis.com/v1".
Definition defaultTimeout : Z := 30 * time_Second.
Definition defaultMaxRetries : Z := 3.

(** [Client] *)
Record Client : Type := mkClient {
  apiKey : string;
  baseURL : string;
  httpClient : http.Client;
  maxRetries : Z
}.

(** The error for a status other than 200 whose body is not JSON. *)
Definition statusError (statusCode : Z) : error :=
  NewError ErrorTypeServer
    (String.append "API错误(状态码: " (String.append (fmt_d statusCode) ")"))
    statusCode None.

(** [fmt.Sprintf("%s/models/%s:streamGenerateContent?key=%s&alt=sse", ...)] *)
Definition streamEndpoint (c : Client) (model : string) : string :=
  String.append (baseURL c)
    (String.append "/models/"
       (String.append model
          (String.append ":streamGenerateContent?key="
             (String.append (apiKey c) "&alt=sse")))).

Section Calls.
Variable json_Marshal : api_request.object -> bytes + error.
(** The error of [http.NewRequestWithContext] for a method or a URL it
    cannot parse. *)
Variable http_invalid : string -> string -> option error.
Variable json_Unmarshal_error : bytes -> GeminiError + error.

(** What the calls return for an answer whose status is not 200. *)
Definition errorResponse (body : bytes) (statusCode : Z) : error :=
  match json_Unmarshal_error body with
  | inr _ => statusError statusCode
  | inl geminiErr => mapGeminiError geminiErr statusCode
  end.

(** [Client.CompleteStream]; the request is a pointer, [None] when [nil].
    The answer is [None] where the Go code would dereference [nil]. *)
Definition CompleteStream (c : Client) (request : option api_request.Request)
  : option (api_client.call gemini.geminiResponseStream) :=
  match validateRequest request with
  | Some err => Some (api_client.mkCall (inr err) None None)
  | None =>
      match request with
      | None => None
      | Some request =>
          let reqCopy := request in
          match json_Marshal (adaptStreamRequest reqCopy) with
          | inr err =>
              Some (api_client.mkCall
                      (inr (NewError ErrorTypeInvalidRequest "无法序列化请求" 0
                              (Some err)))
                      None None)
          | inl reqBody =>
              let endpoint := streamEndpoint c (api_request.Model reqCopy) in
              match http.NewRequestWithContext http_invalid "POST" endpoint reqBody with
              | inr err =>
                  Some (api_client.mkCall
                          (inr (NewError ErrorTypeConnection "创建HTTP请求失败" 0
                                  (Some err)))
                          None None)
              | inl req =>
                  let header := http.Header_ req in
                  let header := http.Set_ header "Content-Type" "application/json" in
                  let header := http.Set_ header "Accept" "text/event-stream" in
                  let req := http.set_Header req header in
                  match http.Do (httpClient c) req with
                  | inr err =>
                      Some (api_client.mkCall
                              (inr (NewError ErrorTypeConnection "HTTP请求失败" 0
                                      (Some err)))
                              (Some req) None)
                  | inl resp =>
                      let statusCode := http.StatusCode resp in
                      if negb (statusCode =? http.StatusOK) then
                        let closed := snd (io.Close (http.Body_closer resp)) in
                        let body := fst (http.ReadAll (http.Body_source resp)) in
                        Some (api_client.mkCall
                                (inr (errorResponse body statusCode))
                                (Some req) (Some closed))
                      else
                        Some (api_client.mkCall
                                (inl (gemini.mkStream
                                        (utils.NewSSEReader (http.Body_source resp))
                                        (http.Body_closer resp)
                                        (api_request.Model request) 0 []))
                                (Some req) (Some (http.Body_closer resp)))
                  end
              end
          end
      end
  end.

End Calls.

End gemini_client.

(** ** Package [anthropic]: the client side *)
Module anthropic_client.

(** The keys of [validModels]. *)
Definition validModels : list string :=
  ["claude-3-opus"; "claude-3-sonnet"; "claude-3-haiku"; "claude-instant";
   "claude-2"]%string.

(** [validateRequest] *)
Definition validateRequest (request : option api_request.Request) : option error :=
  match request with
  | None => Some (NewError ErrorTypeInvalidRequest "请求不能为空" 0 None)
  | Some request =>
      if negb (nonempty (api_request.Model request)) then
        Some (NewError ErrorTypeInvalidRequest "模型不能为空" 0 None)
      else if (length (api_request.Messages request) =? 0)%nat then
        Some (NewError ErrorTypeInvalidRequest "消息不能为空" 0 None)
      else if negb (existsb (String.eqb (api_request.Model request)) validModels) then
        Some (NewError ErrorTypeInvalidRequest
                (String.append "无效的Anthropic模型: " (api_request.Model request))
                0 None)
      else None
  end.

(** [ContentBlock] *)
Record ContentBlock : Type := mkContentBlock {
  Type_ : string;
  Text : string
}.

Record ResponseUsage : Type := mkResponseUsage {
  InputTokens : Z;
  OutputTokens : Z
}.

(** [AnthropicResponse] *)
Record AnthropicResponse : Type := mkAnthropicResponse {
  ID : string;
  response_Type : string;
  Model : string;
  Role : string;
  Content : list ContentBlock;
  StopReason : string;
  StopSequence : string;
  Usage : ResponseUsage
}.

(** [AnthropicError] *)
Record AnthropicError : Type := mkAnthropicError {
  outer_Type : string;
  error_Type : string;
  error_Message : string
}.

(** The message loop of [adaptRequest]: one message applied to the system
    prompt and the messages collected so far. *)
Definition splitMessage (state : string * list api_request.object) (msg : api.Message)
  : string * list api_request.object :=
  let (systemPrompt, messages) := state in
  if String.eqb (api.Role_ msg) api.RoleSystem then (api.Content msg, messages)
  else (systemPrompt,
        messages ++ [[("role"%string, api_request.of_string (api.Role_ msg));
                      ("content"%string, api_request.of_string (api.Content msg))]]).

(** [adaptRequest] *)
Definition adaptRequest (request : api_request.Request) : api_request.object :=
  let (systemPrompt, messages) :=
    fold_left splitMessage (api_request.Messages request) (EmptyString, []) in
  let req := [("model"%string, api_request.of_string (api_request.Model request));
              ("messages"%string, api_request.of_objects messages)] in
  let req := if nonempty systemPrompt
             then api_request.assign req "system" (api_request.of_string systemPrompt)
             else req in
  let req := api_request.assign_float64 req "temperature"
               (api_request.Temperature request) in
  let req := api_request.assign_float64 req "top_p" (api_request.TopP request) in
  let req := api_request.assign_int req "max_tokens"
               (api_request.MaxTokens request) in
  let req := if (0 <? length (api_request.Stop request))%nat
             then api_request.assign req "stop_sequences"
                    (api_request.of_strings (api_request.Stop request))
             else req in
  let req := if api_request.Stream request
             then api_request.assign req "stream"
                    (api_request.of_bool (api_request.Stream request))
             else req in
  api_request.assign_all req (api_request.ExtraParams request).

(** The content loop of [adaptResponse]:
    [if block.Type == "text" { content += block.Text }] *)
Definition blocksText (blocks : list ContentBlock) : string :=
  fold_left
    (fun content block =>
       if String.eqb (Type_ block) "text"
       then String.append content (Text block)
       else content)
    blocks EmptyString.

(** [adaptResponse]; [now] is the reading of [time.Now().Unix()]. *)
Definition adaptResponse (anthropicResp : AnthropicResponse) (now : Z)
  : api_response.Response :=
  let content := blocksText (Content anthropicResp) in
  let choices :=
    [api_response.mkChoice 0 (api.mkMessage api.RoleAssistant content)
       (StopReason anthropicResp)] in
  api_response.mkResponse (ID anthropicResp) "chat.completion" now
    (Model anthropicResp) choices
    (api_response.mkUsage
       (InputTokens (Usage anthropicResp))
       (OutputTokens (Usage anthropicResp))
       (wrap_int (InputTokens (Usage anthropicResp)
                  + OutputTokens (Usage anthropicResp)))).

(** [mapAnthropicError] *)
Definition mapAnthropicError (anthropicErr : AnthropicError) (statusCode : Z) : error :=
  let errType :=
    if String.eqb (error_Type anthropicErr) "invalid_request_error"
    then ErrorTypeInvalidRequest
    else if String.eqb (error_Type anthropicErr) "authentication_error"
    then ErrorTypeAuthentication
    else if String.eqb (error_Type anthropicErr) "permission_error"
    then ErrorTypeAuthentication
    else if String.eqb (error_Type anthropicErr) "rate_limit_error"
    then ErrorTypeRateLimit
    else if String.eqb (error_Type anthropicErr) "server_error"
    then ErrorTypeServer
    else ErrorTypeUnknown in
  api_Error errType (error_Message anthropicErr) statusCode EmptyString EmptyString
    None.

End anthropic_client.

(** ** Package [models]: the model registry *)
Module models.

Import PrimFloat.

(** OpenAI models *)
Definition GPT4 : string := "gpt-4".
Definition GPT4Turbo : string := "gpt-4-turbo".
Definition GPT4TurboPreview : string := "gpt-4-turbo-preview".
Definition GPT4o : string := "gpt-4o".
Definition GPT35Turbo : string := "gpt-3.5-turbo".
Definition GPT35TurboInstruct : string := "gpt-3.5-turbo-instruct".
Definition TextEmbeddingAda002 : string := "text-embedding-ada-002".
Definition TextEmbedding3Small : string := "text-embedding-3-small".
Definition TextEmbedding3Large : string := "text-embedding-3-large".

(** Anthropic models *)
Definition ClaudeHaiku : string := "claude-haiku".
Definition ClaudeSonnet : string := "claude-sonnet".
Definition ClaudeOpus : string := "claude-opus".
Definition Claude3Haiku : string := "claude-3-haiku".
Definition Claude3Sonnet : string := "claude-3-sonnet".
Definition Claude3Opus : string := "claude-3-opus".

(** Google models *)
Definition GeminiPro : string := "gemini-pro".
Definition GeminiProVision : string := "gemini-pro-vision".
Definition GeminiUltra : string := "gemini-ultra".

(** DeepSeek models *)
Definition DeepSeekCoder : string := "deepseek-coder".
Definition DeepSeekChat : string := "deepseek-chat".
Definition DeepSeekLlama270B : string := "deepseek-llama-70b".
Definition DeepSeekLlama7B : string := "deepseek-llama-7b".
Definition DeepSeekMoE : string := "deepseek-moe".
Definition DeepSeekEmbedding : string := "deepseek-embedding".

(** [ModelInfo] *)
Record ModelInfo : Type := mkModelInfo {
  ID : string;
  Provider : string;
  MaxTokens : Z;
  InputPrice : float;
  OutputPrice : float;
  Capabilities : list string
}.

Definition CapabilityChat : string := "chat".
Definition CapabilityVision : string := "vision".
Definition CapabilityFunction : string := "function".
Definition CapabilityEmbedding : string := "embedding".
Definition CapabilityCoding : string := "coding".

(** [modelRegistry]: the entries of the map literal, by key. *)
#[warnings="-inexact-float"]
Definition modelRegistry : list (string * ModelInfo) :=
  [(GPT4, mkModelInfo GPT4 "openai" 8192 0.03 0.06
            [CapabilityChat; CapabilityFunction]);
   (GPT4o, mkModelInfo GPT4o "openai" 128000 0.005 0.015
             [CapabilityChat; CapabilityVision; CapabilityFunction]);
   (GPT35Turbo, mkModelInfo GPT35Turbo "openai" 16385 0.0015 0.002
                  [CapabilityChat; CapabilityFunction]);
   (Claude3Opus, mkModelInfo Claude3Opus "anthropic" 200000 0.015 0.075
                   [CapabilityChat; CapabilityVision]);
   (Claude3Sonnet, mkModelInfo Claude3Sonnet "anthropic" 200000 0.003 0.015
                     [CapabilityChat; CapabilityVision]);
   (Claude3Haiku, mkModelInfo Claude3Haiku "anthropic" 200000 0.00025 0.00125
                    [CapabilityChat; CapabilityVision]);
   (GeminiPro, mkModelInfo GeminiPro "google" 32768 0.00125 0.00125
                 [CapabilityChat; CapabilityFunction]);
   (GeminiUltra, mkModelInfo GeminiUltra "google" 32768 0.00375 0.01125
                   [CapabilityChat; CapabilityVision; CapabilityFunction]);
   (DeepSeekCoder, mkModelInfo DeepSeekCoder "deepseek" 16000 0.0005 0.0015
                     [CapabilityChat; CapabilityCoding]);
   (DeepSeekChat, mkModelInfo DeepSeekChat "deepseek" 8000 0.001 0.002
                    [CapabilityChat]);
   (DeepSeekLlama270B, mkModelInfo DeepSeekLlama270B "deepseek" 32000 0.002 0.006
                         [CapabilityChat]);
   (DeepSeekEmbedding, mkModelInfo DeepSeekEmbedding "deepseek" 0 0.0001 0
                         [CapabilityEmbedding])]%float.

(** [modelRegistry[modelID]] *)
Fixpoint registered (registry : list (string * ModelInfo)) (modelID : string)
  : option ModelInfo :=
  match registry with
  | [] => None
  | (key, info) :: rest =>
      if String.eqb key modelID then Some info else registered rest modelID
  end.

(** [GetModelInfo]; the result is a pointer, [None] when [nil]. *)
Definition GetModelInfo (modelID : string) : option ModelInfo :=
  registered modelRegistry modelID.

End models.


(** ** Package [utils], continued: [DoHTTPRequest] *)
Module utils_http.

(** [HTTPConfig] *)
Record HTTPConfig : Type := mkHTTPConfig {
  Timeout : Z;
  MaxRetries : Z;
  RetryDelay : Z
}.

(** [DefaultHTTPConfig] *)
Definition DefaultHTTPConfig : HTTPConfig :=
  mkHTTPConfig (30 * time_Second) 3 (1 * time_Second).

(** What a call of [DoHTTPRequest] returns and does: the three results,
    the number of calls of [client.Do] it made, and the response bodies it
    closed on return, each as its deferred [Close] left it, in the order
    the deferred calls run. *)
Record outcome : Type := mkOutcome {
  respBody : bytes;
  statusCode : Z;
  err : option error;
  attempts : nat;
  closed : list io.ReadCloser
}.

Section DoHTTPRequest.
(** The type of the request body passed as [interface{}]. *)
Context {B : Type}.
Variable json_Marshal : B -> bytes + error.
(** The error of [http.NewRequestWithContext] for a method or a URL it
    cannot parse. *)
Variable http_invalid : string -> string -> option error.
(** [textproto.CanonicalMIMEHeaderKey] *)
Variable canonical : string -> string.
(** [client.Do(req)]: the answer to the call, given how many calls were
    made before it. *)
Variable client_Do : nat -> http.Request -> http.Response + error.
(** The [select] before retry number [retryCount]: [Some] of [ctx.Err()]
    when the context is done before the delay has passed. *)
Variable ctx_Done : Z -> option error.

(** The function returns: the deferred [Close] calls run, last first. *)
Definition returns (respBody : bytes) (statusCode : Z) (err : option error)
           (attempts : nat) (deferred : list io.ReadCloser) : outcome :=
  mkOutcome respBody statusCode err attempts
    (map (fun body => snd (io.Close body)) deferred).

(** The retry loop, from [retryCount] on, and what follows it. *)
Fixpoint retry (fuel : nat) (config : HTTPConfig) (req : http.Request)
         (retryCount : Z) (lastErr : option error)
         (attempts : nat) (deferred : list io.ReadCloser) : option outcome :=
  match fuel with
  | O => None
  | S fuel' =>
      if retryCount <=? MaxRetries config then
        match (if 0 <? retryCount then ctx_Done retryCount else None) with
        | Some ctxErr =>
            Some (returns [] 0
                    (Some (NewError ErrorTypeTimeout "请求超时" 0 (Some ctxErr)))
                    attempts deferred)
        | None =>
            match client_Do attempts req with
            | inr err =>
                retry fuel' config req (wrap_int (retryCount + 1)) (Some err)
                  (S attempts) deferred
            | inl resp =>
                let deferred := http.Body_closer resp :: deferred in
                match http.ReadAll (http.Body_source resp) with
                | (_, Some err) =>
                    retry fuel' config req (wrap_int (retryCount + 1)) (Some err)
                      (S attempts) deferred
                | (respBody, None) =>
                    if (500 <=? http.StatusCode resp)
                       && (retryCount <? MaxRetries config)
                    then
                      retry fuel' config req (wrap_int (retryCount + 1))
                        (Some (NewError ErrorTypeServer "服务器错误"
                                 (http.StatusCode resp) None))
                        (S attempts) deferred
                    else
                      Some (returns respBody (http.StatusCode resp) None
                              (S attempts) deferred)
                end
            end
        end
      else
        match lastErr with
        | Some (api_Error _ _ apiStatus _ _ _ as apiErr) =>
            Some (returns [] apiStatus (Some apiErr) attempts deferred)
        | Some lastErr =>
            Some (returns [] 0
                    (Some (NewError ErrorTypeConnection "HTTP请求失败" 0
                             (Some lastErr)))
                    attempts deferred)
        | None =>
            Some (returns [] 0 (Some (NewError ErrorTypeUnknown "未知错误" 0 None))
                    attempts deferred)
        end
  end.

(** The request as sent: [Content-Type] when there is a body, then the
    custom headers in the order the map is ranged over. *)
Definition prepare (req : http.Request) (body : option B)
           (headers : list (string * string)) : http.Request :=
  let h := http.Header_ req in
  let h := match body with
           | Some _ => http.Set_ h (canonical "Content-Type") "application/json"
           | None => h
           end in
  let h := fold_left (fun h entry => http.Set_ h (canonical (fst entry)) (snd entry))
             headers h in
  http.set_Header req h.

(** Fuel for the loop: one unit per pass and one for what follows it. *)
Definition retry_fuel (config : HTTPConfig) : nat :=
  S (S (Z.to_nat (MaxRetries config))).

(** [DoHTTPRequest]; [body] is [None] when [nil]. *)
Definition DoHTTPRequest (method url : string) (body : option B)
           (headers : list (string * string)) (config : HTTPConfig)
  : option outcome :=
  match match body with
        | Some b => json_Marshal b
        | None => inl []
        end with
  | inr err =>
      Some (returns [] 0
              (Some (NewError ErrorTypeInvalidRequest "无法序列化请求体" 0 (Some err)))
              O [])
  | inl bodyBytes =>
      match http.NewRequestWithContext http_invalid method url bodyBytes with
      | inr err =>
          Some (returns [] 0
                  (Some (NewError ErrorTypeConnection "创建HTTP请求失败" 0 (Some err)))
                  O [])
      | inl req =>
          retry (retry_fuel config) config (prepare req body headers) 0 None O []
      end
  end.

End DoHTTPRequest.

End utils_http.

(** ** The wire format

    The text of a Server-Sent-Events stream, as the backends send it. *)
Module wire.

(** A payload written with ['] for the JSON quote. *)
Fixpoint json (s : string) : string :=
  match s with
  | EmptyString => EmptyString
  | String c rest =>
      String (if Ascii.eqb c "'"%char then dquote else c) (json rest)
  end.

(** One raw event: a [data:] line and the blank line that ends it. *)
Definition data_event (payload : string) : string :=
  String.append "data: "
    (String.append payload (String newline (String newline EmptyString))).

(** A payload with a line break in it does not fit on a [data:] line. *)
Definition has_newline (payload : string) : bool :=
  existsb (Ascii.eqb newline) (bytes_of payload).

(** Two [data:] lines in one event: [data: foo], [data: bar], blank line. *)
Definition two_data_lines : string :=
  String.append "data: foo"
    (String newline
       (String.append "data: bar" (String newline (String newline EmptyString)))).

(** [foo], a newline, [bar]. *)
Definition foo_bar : string :=
  String.append "foo" (String newline "bar").

(** The text of a sequence of raw events, one [data:] line each. *)
Definition events (payloads : list string) : string :=
  fold_right (fun p rest => String.append (data_event p) rest) EmptyString payloads.

(** A reader over a source that holds [text] and then ends cleanly. *)
Definition source (text : string) : utils.SSEReader :=
  utils.NewSSEReader (bufio.mkReader (bytes_of text) io_EOF).

(** A reader that has delivered everything of a source that ended cleanly. *)
Definition drained : utils.SSEReader :=
  utils.mkSSEReader (bufio.mkReader [] io_EOF) [newline; newline]
    utils.zeroSSEEvent [].

(** The raw event the reader makes of [data_event payload]. *)
Definition data_only (payload : string) : utils.SSEEvent :=
  utils.mkSSEEvent EmptyString payload EmptyString 0.

End wire.

(** ** Sample streams

    Concrete closers, decoders and streams, used to run the code on explicit
    inputs. *)
Module sample.

(** A closer for which every [Close] succeeds, as the response bodies of
    [net/http] do. *)
Definition lenient_body : io.ReadCloser :=
  io.mkReadCloser 0 (fun _ => None).

(** A closer that reports an error when closed again, as an [*os.File]
    does. *)
Definition strict_body : io.ReadCloser :=
  io.mkReadCloser 0
    (fun n => match n with
              | O => None
              | S _ => Some (foreign_error "file already closed")
              end).

(** A decoder given by the list of the inputs it accepts; any other input
    is a syntax error. *)
Definition decoder {T : Type} (accepted : list (string * T)) (input : bytes)
  : T + error :=
  match find (fun entry => String.eqb (fst entry) (string_of input)) accepted with
  | Some (_, value) => inl value
  | None => inr (foreign_error "invalid character")
  end.

(** The clock always reads zero. *)
Definition clock (_ : utils.SSEReader) : Z := 0.

(** A content delta as the simple-delta backends send it, and the value
    [encoding/json] decodes it to. *)
Definition openai_text (text : string) : string * openai.OpenAIStreamResponse :=
  (wire.json (String.append "{'choices':[{'index':0,'delta':{'content':'"
                       (String.append text "'}}]}")),
   openai.mkOpenAIStreamResponse EmptyString EmptyString 0 EmptyString
     [openai.mkStreamChoice 0 (openai.mkStreamDelta text EmptyString) EmptyString]).

(** The decoder restricted to the payloads used below. *)
Definition openai_json : bytes -> openai.OpenAIStreamResponse + error :=
  decoder [openai_text "Hel"; openai_text "lo"; openai_text "late"].

(** A fresh stream over the wire text of [payloads]. *)
Definition openai_stream (payloads : list string) : openai.openaiResponseStream :=
  openai.mkStream (wire.source (wire.events payloads)) lenient_body [].

Definition deepseek_text (text : string) : string * deepseek.DeepSeekStreamResponse :=
  (wire.json (String.append "{'choices':[{'index':0,'delta':{'content':'"
                       (String.append text "'}}]}")),
   deepseek.mkDeepSeekStreamResponse EmptyString EmptyString 0 EmptyString
     [deepseek.mkStreamChoice 0 (deepseek.mkStreamDelta text EmptyString) EmptyString]).

Definition deepseek_json : bytes -> deepseek.DeepSeekStreamResponse + error :=
  decoder [deepseek_text "Hel"; deepseek_text "lo"; deepseek_text "late"].

Definition deepseek_stream (payloads : list string) : deepseek.deepseekResponseStream :=
  deepseek.mkStream (wire.source (wire.events payloads)) lenient_body [].

(** [AnthropicStreamMessage{}] *)
Definition anthropic_message : anthropic.AnthropicStreamMessage :=
  anthropic.mkAnthropicStreamMessage EmptyString EmptyString EmptyString []
    EmptyString EmptyString EmptyString (anthropic.mkUsage 0 0).

(** What an event that holds only its [type] decodes to. *)
Definition anthropic_event (type : string) : anthropic.AnthropicStreamResponse :=
  anthropic.mkAnthropicStreamResponse type anthropic_message None None 0.

(** A text delta for block 0, and what it decodes to. *)
Definition anthropic_text (text : string) : string * anthropic.AnthropicStreamResponse :=
  (wire.json (String.append
           "{'type':'content_block_delta','index':0,'delta':{'type':'text','text':'"
           (String.append text "'}}")),
   anthropic.mkAnthropicStreamResponse "content_block_delta" anthropic_message
     None (Some (anthropic.mkAnthropicContentDelta "text" text)) 0).

(** Lifecycle events. *)
Definition message_start : string := wire.json "{'type':'message_start'}".
Definition message_stop : string := wire.json "{'type':'message_stop'}".
Definition message_delta : string := wire.json "{'type':'message_delta'}".
Definition message_delta_stop : string :=
  wire.json "{'type':'message_delta','message':{'stop_reason':'end_turn'}}".

Definition anthropic_json : bytes -> anthropic.AnthropicStreamResponse + error :=
  decoder
    [(message_start, anthropic_event "message_start");
     (message_stop, anthropic_event "message_stop");
     (message_delta, anthropic_event "message_delta");
     (message_delta_stop,
      anthropic.mkAnthropicStreamResponse "message_delta"
        (anthropic.mkAnthropicStreamMessage EmptyString EmptyString EmptyString []
           EmptyString "end_turn" EmptyString (anthropic.mkUsage 0 0))
        None None 0);
     anthropic_text "a"; anthropic_text "b"; anthropic_text "late"].

Definition anthropic_stream (payloads : list string)
  : anthropic.anthropicResponseStream :=
  anthropic.mkStream (wire.source (wire.events payloads)) lenient_body [].

(** A candidate at index 0 with the given part texts and finish reason. *)
Definition gemini_candidate (parts : list string) (finish : string)
  : gemini.Candidate :=
  gemini.mkCandidate
    (gemini.mkCandidateContent (map gemini.mkPart parts) EmptyString)
    finish 0 [].

(** Gemini payloads: no candidate; one candidate with two parts; one
    candidate with a finish reason; one candidate whose only part is empty. *)
Definition no_candidates : string := wire.json "{'candidates':[]}".
Definition two_parts : string :=
  wire.json "{'candidates':[{'content':{'parts':[{'text':'Hel'},{'text':'lo'}]},'index':0}]}".
Definition finished : string :=
  wire.json "{'candidates':[{'content':{'parts':[{'text':'dropped'}]},'finishReason':'STOP','index':0}]}".
Definition empty_part : string :=
  wire.json "{'candidates':[{'content':{'parts':[{'text':''}]},'index':0}]}".

Definition gemini_json : bytes -> gemini.GeminiStreamResponse + error :=
  decoder
    [(no_candidates,
      gemini.mkGeminiStreamResponse [] (gemini.mkUsageMetadata 0 0 0));
     (two_parts,
      gemini.mkGeminiStreamResponse [gemini_candidate ["Hel"; "lo"] EmptyString]
        (gemini.mkUsageMetadata 0 0 0));
     (finished,
      gemini.mkGeminiStreamResponse [gemini_candidate ["dropped"] "STOP"]
        (gemini.mkUsageMetadata 0 0 0));
     (empty_part,
      gemini.mkGeminiStreamResponse [gemini_candidate [EmptyString] EmptyString]
        (gemini.mkUsageMetadata 0 0 0))]%string.

Definition gemini_stream (payloads : list string) : gemini.geminiResponseStream :=
  gemini.mkStream (wire.source (wire.events payloads)) lenient_body "gemini-pro" 0 [].

(** The chunk the simple-delta streams make of [openai_text text]. *)
Definition text_chunk (text : string) : api.ResponseChunk :=
  api.mkResponseChunk EmptyString EmptyString 0 EmptyString
    [api.mkChunkChoice 0 (api.mkMessage EmptyString text) EmptyString].

(** The chunk the Anthropic stream makes of a text delta. *)
Definition delta_chunk (index : Z) (text : string) (created : Z) : api.ResponseChunk :=
  api.mkResponseChunk EmptyString "chat.completion.chunk" created EmptyString
    [api.mkChunkChoice index (api.mkMessage api.RoleAssistant text) EmptyString].

(** A payload that is not JSON, and the error [Recv] makes of it. *)
Definition malformed : string := "{oops".

Definition parse_failure : error :=
  NewError ErrorTypeServer "解析流式响应失败" 0
    (Some (foreign_error "invalid character")).

End sample.

(** ** More sample inputs *)
Module scenario.

(** A named event without data, as a keep-alive, then one [data:] event. *)
Definition ping_then (payload : string) : string :=
  String.append "event: ping"
    (String newline (String newline (wire.data_event payload))).

(** The raw event the reader makes of the keep-alive. *)
Definition ping : utils.SSEEvent :=
  utils.mkSSEEvent "ping" EmptyString EmptyString 0.

(** A transport error. *)
Definition broken : error := foreign_error "connection reset".

End scenario.

Module consumer.

(** Callbacks that keep a transcript: [OnChunk] adds a bar, [OnText] the
    text, [OnComplete] a full stop. *)
Definition transcript : api.StreamOptions string :=
  api.mkStreamOptions
    (Some (fun _ seen => (None, String.append seen "|")))
    (Some (fun _ seen => String.append seen "."))
    (Some (fun text seen => (None, String.append seen text)))
    true.

(** A writer into a buffer that holds at most [room] bytes, as a
    fixed-size buffer does: a write that does not fit writes nothing and
    returns an error. *)
Definition bounded_Write (room : nat) (p : bytes) (buffer : bytes)
  : (Z * option error) * bytes :=
  if (length buffer + length p <=? room)%nat
  then ((Z.of_nat (length p), None), buffer ++ p)
  else ((0, Some (foreign_error "short write")), buffer).

End consumer.

Module inquiry.

(** A chat request with a system prompt, a token limit and the stream flag
    set, and the given extra parameters. *)
Definition chat (model : string) (extra : api_request.object) : api_request.Request :=
  api_request.mkRequest
    [api.mkMessage api.RoleSystem "be brief"; api.mkMessage api.RoleUser "hi"]
    model None None (Some 16) None None [] true extra.

(** Extra parameters that switch streaming off and ask for two answers. *)
Definition two_answers : api_request.object :=
  [("stream"%string, api_request.of_bool false); ("n"%string, api_request.of_int 2)].

End inquiry.

Module server.

(** Every method and URL is accepted. *)
Definition any_target (method url : string) : option error := None.

(** Header keys are taken as written. *)
Definition as_written (key : string) : string := key.

(** A body given as text is sent as it is. *)
Definition text_body (text : string) : bytes + error := inl (bytes_of text).

(** A server that is always busy: status 503 with the body [busy]. *)
Definition busy (_ : nat) (_ : http.Request) : http.Response + error :=
  inl (http.mkResponse 503 (bufio.mkReader (bytes_of "busy") io_EOF)
         sample.lenient_body).

(** A server that cannot be reached. *)
Definition refusing (_ : nat) (_ : http.Request) : http.Response + error :=
  inr (foreign_error "connection refused").

(** A context that is never done. *)
Definition never_done (_ : Z) : option error := None.

(** A server that answers every request with status 200 and an event
    stream of the given payloads. *)
Definition streaming (payloads : list string) (_ : http.Request)
  : http.Response + error :=
  inl (http.mkResponse 200
         (bufio.mkReader (bytes_of (wire.events payloads)) io_EOF)
         sample.lenient_body).

(** An OpenAI client that talks to the server [answer]. *)
Definition openai_over (answer : http.Request -> http.Response + error)
  : openai_client.Client :=
  openai_client.mkClient "sk-test" openai_client.defaultBaseURL
    (http.mkClient 0 answer) 3.

(** A Gemini client that talks to the server [answer]. *)
Definition gemini_over (answer : http.Request -> http.Response + error)
  : gemini_client.Client :=
  gemini_client.mkClient "g-test" gemini_client.defaultBaseURL
    (http.mkClient 0 answer) 3.

(** A Gemini error body that is never JSON. *)
Definition no_gemini_details (_ : bytes) : gemini_client.GeminiError + error :=
  inr (foreign_error "invalid character").

(** A marshaller that writes every body as an empty object. *)
Definition compact (_ : api_request.object) : bytes + error := inl (bytes_of "{}").

(** An error body that is never JSON. *)
Definition no_details (_ : bytes) : openai_client.OpenAIError + error :=
  inr (foreign_error "invalid character").

End server.

(** * The vocabulary of the properties

    Predicates and functions the statements below are written with. *)

Unset Implicit Arguments.

(** What a reader is left with is bounded by what it had: every event
    delivered takes something away, and an error leaves no input behind. *)
Definition ReadEvent_post (r : utils.SSEReader)
           (res : utils.SSEEvent + error) (r' : utils.SSEReader) : Prop :=
  utils.delimiter r' = utils.delimiter r
  /\ utils.event r' = utils.event r
  /\ bufio.final (utils.reader r') = bufio.final (utils.reader r)
  /\ match res with
     | inl ev =>
         utils.surfaced ev = true
         /\ utils.buffer r' = []
         /\ (interp.pending r' < interp.pending r)%nat
     | inr e =>
         e = bufio.final (utils.reader r)
         /\ bufio.unread (utils.reader r') = []
         /\ (is_EOF e = true ->
             utils.buffer r' = [] \/ utils.buffer r' = [newline])
     end.

(** A reader is [settled] when its event slot is reset and, if its source
    ends cleanly, nothing but a lone newline is buffered. *)
Definition settled (r : utils.SSEReader) : Prop :=
  utils.event r = utils.zeroSSEEvent
  /\ (is_EOF (bufio.final (utils.reader r)) = true ->
      utils.buffer r = [] \/ utils.buffer r = [newline]).

(** One iteration of the loop on a line that the source delivers. *)
Definition with_line (r : utils.SSEReader) (line rest : bytes) : utils.SSEReader :=
  utils.set_buffer
    (utils.set_reader r (bufio.mkReader rest (bufio.final (utils.reader r))))
    (utils.buffer r ++ line).

(** A stream [stays_ended] when, once [Recv] has returned the completion
    signal or an error and its byte source holds no unread input, every
    later [Recv] returns one and the same result that is not a chunk, the
    completion signal if the source ended cleanly, and leaves the stream as
    it is. *)
Definition stays_ended {S : Type}
           (recv : S -> option ((api.ResponseChunk + error) * S))
           (source : S -> bufio.Reader) : Prop :=
  forall s e s',
    recv s = Some (inr e, s') ->
    bufio.unread (source s') = [] ->
    exists e',
      (bufio.final (source s') = io_EOF -> e' = io_EOF)
      /\ forall n, api.Recv_times recv n s' = Some (repeat (inr e') n, s').

(** [anthropic_reads J r resp input r']: the next raw event of reader [r]
    carries data, [input] is what [Recv] hands to the decoder for it, the
    decoder returns [resp], and the reader is left as [r']. *)
Definition anthropic_reads
           (J : bytes -> anthropic.AnthropicStreamResponse + error)
           (r : utils.SSEReader) (resp : anthropic.AnthropicStreamResponse)
           (input : bytes) (r' : utils.SSEReader) : Prop :=
  exists ev,
    utils.ReadEvent r = Some (inl ev, r')
    /\ nonempty (utils.Data ev) = true
    /\ input = bytes_of (utils.ParseSSEData (utils.Data ev))
    /\ J input = inl resp.

(** The choices one candidate contributes, in the words of the design: a
    candidate with a finish reason gives a choice with empty text and that
    reason; otherwise the texts of its parts, concatenated, are one delta
    text, and a candidate without any text gives no choice. *)
Definition candidate_choice (candidate : gemini.Candidate) : list api.ChunkChoice :=
  if nonempty (gemini.FinishReason candidate) then
    [api.mkChunkChoice (gemini.Index candidate)
       (api.mkMessage api.RoleAssistant EmptyString)
       (gemini.FinishReason candidate)]
  else
    let text := String.concat EmptyString
                  (map gemini.Text (gemini.Parts (gemini.Content candidate))) in
    if nonempty text then
      [api.mkChunkChoice (gemini.Index candidate)
         (api.mkMessage api.RoleAssistant text) EmptyString]
    else [].

(** A call after which [Process] goes on: a chunk received, a callback that
    returned [nil]. *)
Definition ongoing (c : api.call) : bool :=
  match c with
  | api.call_Recv (inl _) => true
  | api.call_OnChunk _ None => true
  | api.call_OnText _ None => true
  | _ => false
  end.

(** A call that ends processing, with the value it makes [Process] report:
    [nil] for the completion signal, the error for an error of the stream or
    of a callback. *)
Definition terminal (c : api.call) : option (option error) :=
  match c with
  | api.call_Recv (inr e) => Some (if is_EOF e then None else Some e)
  | api.call_OnChunk _ (Some e) => Some (Some e)
  | api.call_OnText _ (Some e) => Some (Some e)
  | _ => None
  end.


(** The call of [OnComplete], made when the callback is set. *)
Definition completion_calls {U : Type} (options : api.StreamOptions U)
           (ret : option error) : list api.call :=
  match api.OnComplete options with
  | Some _ => [api.call_OnComplete ret]
  | None => []
  end.

(** The deferred call of [Close], made when [AutoClose] is set. *)
Definition closing_calls {U : Type} (options : api.StreamOptions U) : list api.call :=
  if api.AutoClose options then [api.call_Close] else [].

(** The stream ends, by the completion signal or an error, within [n]
    reads. *)
Fixpoint ends_within {S : Type}
         (recv : S -> option ((api.ResponseChunk + error) * S))
         (n : nat) (s : S) : Prop :=
  match n with
  | O => False
  | Datatypes.S n' =>
      match recv s with
      | None => False
      | Some (inr _, _) => True
      | Some (inl _, s') => ends_within recv n' s'
      end
  end.



(** What the second of two successive [Close] calls returns. *)
Definition second_Close {S : Type} (close : S -> option error * S) (s : S)
  : option error :=
  fst (close (snd (close s))).

(** ** Further vocabulary *)

(** The results of [n] successive calls of [ReadEvent], oldest first, and
    the reader they leave. *)
Fixpoint ReadEvent_times (n : nat) (r : utils.SSEReader)
  : option (list (utils.SSEEvent + error) * utils.SSEReader) :=
  match n with
  | O => Some ([], r)
  | S n' =>
      match utils.ReadEvent r with
      | None => None
      | Some (res, r1) =>
          match ReadEvent_times n' r1 with
          | None => None
          | Some (rest, r2) => Some (res :: rest, r2)
          end
      end
  end.

(** A payload that fits on one [data:] line and makes an event: it is not
    empty and holds no line break. *)
Definition fits_data_line (payload : string) : bool :=
  nonempty payload && negb (wire.has_newline payload).






(** The errors [Recv] can return. *)
Definition EOF_or_Server (e : error) : Prop :=
  e = io_EOF \/ error_kind e = Some ErrorTypeServer.

(** The chunk [Recv] makes of a decoded OpenAI response. *)
Definition openai_chunk (resp : openai.OpenAIStreamResponse) : api.ResponseChunk :=
  api.mkResponseChunk (openai.ID resp) (openai.Object resp) (openai.Created resp)
    (openai.Model resp) (map openai.adaptChoice (openai.Choices resp)).

(** The chunk [Recv] makes of a decoded DeepSeek response. *)
Definition deepseek_chunk (resp : deepseek.DeepSeekStreamResponse)
  : api.ResponseChunk :=
  api.mkResponseChunk (deepseek.ID resp) (deepseek.Object resp)
    (deepseek.Created resp) (deepseek.Model resp)
    (map deepseek.adaptChoice (deepseek.Choices resp)).

(** A payload with the response the decoder [J] makes of it: the payload
    fits on a [data:] line, is not the sentinel, and is decoded to the
    response. *)
Definition decodes_to {T : Type} (J : bytes -> T + error) (item : string * T) : Prop :=
  fits_data_line (fst item) = true
  /\ fst item <> "[DONE]"%string
  /\ J (bytes_of (utils.ParseSSEData (fst item))) = inl (snd item).

(** What is handed to the decoder for a payload. *)
Definition decoder_input {T : Type} (item : string * T) : bytes :=
  bytes_of (utils.ParseSSEData (fst item)).

(** The chunks among the results of successive reads, oldest first. *)
Definition chunks_of (results : list (api.ResponseChunk + error))
  : list api.ResponseChunk :=
  flat_map (fun res => match res with inl chunk => [chunk] | inr _ => [] end) results.

(** The identifier of Gemini chunk number [n]. *)
Definition chunk_name (n : Z) : string := String.append "chunk-" (fmt_d n).

(** The identifiers of [count] chunks numbered from [first] on. *)
Definition chunk_names (first : Z) (count : nat) : list string :=
  map (fun k => chunk_name (first + Z.of_nat k)) (seq 0 count).

(** A payload with the response the decoder [J] makes of it, on a stream
    that knows no sentinel. *)
Definition decoded_by {T : Type} (J : bytes -> T + error) (item : string * T) : Prop :=
  fits_data_line (fst item) = true
  /\ J (bytes_of (utils.ParseSSEData (fst item))) = inl (snd item).

(** The text delta a decoded Anthropic event carries, with its block index:
    the event is a [content_block_delta] whose delta is present and of type
    [text]. *)
Definition anthropic_text_of (resp : anthropic.AnthropicStreamResponse)
  : option (Z * string) :=
  if String.eqb (anthropic.Type_ resp) "content_block_delta" then
    match anthropic.Delta resp with
    | Some delta =>
        if String.eqb (anthropic.delta_Type delta) "text"
        then Some (anthropic.Index resp, anthropic.delta_Text delta)
        else None
    | None => None
    end
  else None.

(** The event ends the message: a [message_stop], or a [message_delta] with
    a stop reason. *)
Definition anthropic_ends (resp : anthropic.AnthropicStreamResponse) : bool :=
  String.eqb (anthropic.Type_ resp) "message_stop"
  || (String.eqb (anthropic.Type_ resp) "message_delta"
      && nonempty (anthropic.StopReason (anthropic.Message resp))).

(** The chunks of the text deltas among the events [items], in order; each
    is stamped with the clock's reading when the rest of the events is still
    unread. *)
Fixpoint anthropic_chunks (clock : utils.SSEReader -> Z)
         (items : list (string * anthropic.AnthropicStreamResponse))
  : list api.ResponseChunk :=
  match items with
  | [] => []
  | item :: rest =>
      match anthropic_text_of (snd item) with
      | Some (index, text) =>
          [sample.delta_chunk index text
             (clock (wire.source (wire.events (map fst rest))))]
      | None => []
      end ++ anthropic_chunks clock rest
  end.

(** The text [Process] passes to [OnText] for a chunk: the text of the
    first choice, when there is a choice and its text is not empty. *)
Definition first_text (chunk : api.ResponseChunk) : list string :=
  match api.Choices chunk with
  | choice0 :: _ =>
      if nonempty (api.Content (api.Delta choice0))
      then [api.Content (api.Delta choice0)]
      else []
  | [] => []
  end.

(** What [Process] returns when the stream ends with [e]. *)
Definition end_of (e : error) : option error :=
  if is_EOF e then None else Some e.

(** Callbacks that return no error, whatever they are given. *)
Definition quiet {U : Type} (options : api.StreamOptions U) : Prop :=
  (forall f chunk u, api.OnChunk options = Some f -> fst (f chunk u) = None)
  /\ (forall g text u, api.OnText options = Some g -> fst (g text u) = None).

(** The callbacks called for one chunk, when none returns an error. *)
Definition callback_calls {U : Type} (options : api.StreamOptions U)
           (chunk : api.ResponseChunk) : list api.call :=
  match api.OnChunk options with
  | Some _ => [api.call_OnChunk chunk None]
  | None => []
  end
  ++ match api.OnText options with
     | Some _ => map (fun text => api.call_OnText text None) (first_text chunk)
     | None => []
     end.

(** The calls made for one chunk: the read that returned it, then the
    callbacks. *)
Definition chunk_calls {U : Type} (options : api.StreamOptions U)
           (chunk : api.ResponseChunk) : list api.call :=
  api.call_Recv (inl chunk) :: callback_calls options chunk.

(** The callbacks' own state after one chunk. *)
Definition after_chunk {U : Type} (options : api.StreamOptions U) (u : U)
           (chunk : api.ResponseChunk) : U :=
  let u := match api.OnChunk options with
           | Some f => snd (f chunk u)
           | None => u
           end in
  match api.OnText options with
  | Some g => fold_left (fun u text => snd (g text u)) (first_text chunk) u
  | None => u
  end.

(** The callbacks' own state after [OnComplete]. *)
Definition after_complete {U : Type} (options : api.StreamOptions U)
           (ret : option error) (u : U) : U :=
  match api.OnComplete options with
  | Some f => f ret u
  | None => u
  end.

(** A handler given the texts one after the other, up to the first error it
    returns. *)
Fixpoint feed {U : Type} (g : string -> U -> option error * U)
         (texts : list string) (u : U) : option error * U :=
  match texts with
  | [] => (None, u)
  | text :: rest =>
      match g text u with
      | (Some err, u') => (Some err, u')
      | (None, u') => feed g rest u'
      end
  end.

(** What a handler and the end of the stream make [ProcessWithHandler]
    return: the handler's first error, or else what the stream ended
    with. *)
Definition handled {U : Type} (g : string -> U -> option error * U)
           (texts : list string) (u : U) (e : error) : option error * U :=
  match feed g texts u with
  | (Some err, u') => (Some err, u')
  | (None, u') => (end_of e, u')
  end.

(** The keys of a Go map are distinct. *)
Definition is_map (m : api_request.object) : Prop := NoDup (map fst m).

(** The message carries the system role. *)
Definition is_system (msg : api.Message) : bool :=
  String.eqb (api.Role_ msg) api.RoleSystem.

(** The map Anthropic is sent for one message. *)
Definition message_object (msg : api.Message) : api_request.object :=
  [("role"%string, api_request.of_string (api.Role_ msg));
   ("content"%string, api_request.of_string (api.Content msg))].

(** The content block is of type [text]. *)
Definition is_text (block : anthropic_client.ContentBlock) : bool :=
  String.eqb (anthropic_client.Type_ block) "text".

(** The texts of the parts of a Gemini candidate, concatenated. *)
Definition candidate_text (candidate : gemini.Candidate) : string :=
  String.concat EmptyString
    (map gemini.Text (gemini.Parts (gemini.Content candidate))).

(** What holds of every entry of the registry. *)
Definition well_filed (entry : string * models.ModelInfo) : Prop :=
  let (key, info) := entry in
  models.ID info = key
  /\ In (models.Provider info) ["openai"; "anthropic"; "google"; "deepseek"]%string
  /\ models.Capabilities info <> []
  /\ incl (models.Capabilities info)
       [models.CapabilityChat; models.CapabilityVision; models.CapabilityFunction;
        models.CapabilityEmbedding; models.CapabilityCoding]
  /\ 0 <= models.MaxTokens info
  /\ PrimFloat.leb PrimFloat.zero (models.InputPrice info) = true
  /\ PrimFloat.leb PrimFloat.zero (models.OutputPrice info) = true
  /\ (models.Provider info = "anthropic"%string ->
      In key anthropic_client.validModels).

(** The response bodies received in the first [n] calls of [client.Do],
    each closed once, the latest first. *)
Definition bodies_closed (client_Do : nat -> http.Request -> http.Response + error)
           (req : http.Request) (n : nat) : list io.ReadCloser :=
  rev (flat_map
         (fun k => match client_Do k req with
                   | inl resp => [snd (io.Close (http.Body_closer resp))]
                   | inr _ => []
                   end)
         (seq 0 n)).

(** The transport's own errors are not SDK errors: neither [client.Do] nor
    reading a body returns an [*api.Error]. *)
Definition transport_errors_foreign
           (client_Do : nat -> http.Request -> http.Response + error) : Prop :=
  (forall n req e, client_Do n req = inr e -> error_kind e = None)
  /\ (forall n req resp,
         client_Do n req = inl resp ->
         error_kind (bufio.final (http.Body_source resp)) = None).

(** What a pass of the loop may leave in [lastErr]: an error of the
    transport, or the [Server] error of a 5xx answer, the latter only while
    another pass follows. *)
Definition carried (config : utils_http.HTTPConfig) (retryCount : Z)
           (lastErr : option error) : Prop :=
  match lastErr with
  | Some e => error_kind e = None \/ retryCount <= utils_http.MaxRetries config
  | None => True
  end.

(** The bytes [DoHTTPRequest] sends as the request body: the JSON of the
    body when there is one. *)
Definition marshalled {B : Type} (json_Marshal : B -> bytes + error)
           (body : option B) : bytes + error :=
  match body with
  | Some b => json_Marshal b
  | None => inl []
  end.

(** The status code an SDK error carries. *)
Definition error_status (e : error) : option Z :=
  match e with
  | api_Error _ _ statusCode _ _ _ => Some statusCode
  | _ => None
  end.

(** An SDK error of a kind the clients report: any kind but [Timeout]. *)
Definition client_error (e : error) : Prop :=
  error_kind e <> None /\ error_kind e <> Some ErrorTypeTimeout.

(** The body of a response once it has been closed. *)
Definition closed_once (resp : http.Response) : io.ReadCloser :=
  snd (io.Close (http.Body_closer resp)).

(** The request [CompleteStream] of the OpenAI client sends for the body
    [reqBody]. *)
Definition openai_stream_request (c : openai_client.Client) (reqBody : bytes)
  : http.Request :=
  http.mkRequest "POST"
    (String.append (openai_client.baseURL c) "/chat/completions") reqBody
    [("Content-Type", "application/json");
     ("Authorization", String.append "Bearer " (openai_client.apiKey c));
     ("Accept", "text/event-stream")]%string.

(** A [data:] line that ends the input: the line break is there, the blank
    line that closes the event is not. *)
Definition open_event (payload : string) : string :=
  String.append "data: " (String.append payload (String newline EmptyString)).

(** The request [CompleteStream] of the Gemini client sends for [model]
    and the body [reqBody]. *)
Definition gemini_stream_request (c : gemini_client.Client) (model : string)
           (reqBody : bytes) : http.Request :=
  http.mkRequest "POST" (gemini_client.streamEndpoint c model) reqBody
    [("Content-Type", "application/json"); ("Accept", "text/event-stream")]%string.

(** ** DeepSeek values read as OpenAI values

    The two clients declare the same structs under different names; these
    functions rename field by field. *)
Definition as_openai_client (c : deepseek_client.Client) : openai_client.Client :=
  openai_client.mkClient (deepseek_client.apiKey c) (deepseek_client.baseURL c)
    (deepseek_client.httpClient c) (deepseek_client.maxRetries c).

Definition as_openai_error (e : deepseek_client.DeepSeekError)
  : openai_client.OpenAIError :=
  openai_client.mkOpenAIError (deepseek_client.error_Message e)
    (deepseek_client.error_Type e) (deepseek_client.error_Param e)
    (deepseek_client.error_Code e).

Definition as_openai_choice (choice : deepseek_client.ResponseChoice)
  : openai_client.ResponseChoice :=
  openai_client.mkResponseChoice (deepseek_client.Index choice)
    (openai_client.mkResponseMessage
       (deepseek_client.Role (deepseek_client.Message choice))
       (deepseek_client.Content (deepseek_client.Message choice)))
    (deepseek_client.FinishReason choice).

Definition as_openai_response (r : deepseek_client.DeepSeekResponse)
  : openai_client.OpenAIResponse :=
  openai_client.mkOpenAIResponse (deepseek_client.ID r) (deepseek_client.Object r)
    (deepseek_client.Created r) (deepseek_client.Model r)
    (map as_openai_choice (deepseek_client.Choices r))
    (openai_client.mkResponseUsage
       (deepseek_client.PromptTokens (deepseek_client.Usage r))
       (deepseek_client.CompletionTokens (deepseek_client.Usage r))
       (deepseek_client.TotalTokens (deepseek_client.Usage r))).

Definition as_openai_delta (choice : deepseek.StreamChoice) : openai.StreamChoice :=
  openai.mkStreamChoice (deepseek.Index choice)
    (openai.mkStreamDelta (deepseek.Content (deepseek.Delta choice))
       (deepseek.Role (deepseek.Delta choice)))
    (deepseek.FinishReason choice).

Definition as_openai_event (r : deepseek.DeepSeekStreamResponse)
  : openai.OpenAIStreamResponse :=
  openai.mkOpenAIStreamResponse (deepseek.ID r) (deepseek.Object r)
    (deepseek.Created r) (deepseek.Model r)
    (map as_openai_delta (deepseek.Choices r)).

Definition as_openai_stream (s : deepseek.deepseekResponseStream)
  : openai.openaiResponseStream :=
  openai.mkStream (deepseek.reader s) (deepseek.rawReader s) (deepseek.unmarshalled s).

(** A decoder whose values are read through [f]. *)
Definition decoded_as {A B : Type} (f : A -> B) (J : bytes -> A + error)
  : bytes -> B + error :=
  fun input => match J input with
               | inl value => inl (f value)
               | inr err => inr err
               end.

(** The outcome of a call whose value is read through [f]. *)
Definition call_as {A B : Type} (f : A -> B) (out : option (api_client.call A))
  : option (api_client.call B) :=
  match out with
  | Some out =>
      Some (api_client.mkCall
              match api_client.result out with
              | inl value => inl (f value)
              | inr err => inr err
              end
              (api_client.sent out) (api_client.body out))
  | None => None
  end.

(** What [Recv] returns, with the stream it leaves read through [f]. *)
Definition received_as {A B : Type} (f : A -> B)
           (out : option ((api.ResponseChunk + error) * A))
  : option ((api.ResponseChunk + error) * B) :=
  match out with
  | Some (res, s) => Some (res, f s)
  | None => None
  end.

(** The option that sets the base URL. *)
Definition with_BaseURL (url : string) : api_client.ClientOption :=
  fun options =>
    api_client.mkClientOptions (api_client.APIKey options) url
      (api_client.HTTPClient options) (api_client.Timeout options)
      (api_client.MaxRetries options).

(** * Properties *)

(** ** Bytes *)

Lemma bytes_Equal_eq (a b : bytes) : bytes_Equal a b = true <-> a = b.
Proof.
  revert b; induction a as [|x a IH]; intros [|y b]; simpl; split;
    try congruence; intro H.
  - apply andb_true_iff in H as [Hx Hab].
    apply Ascii.eqb_eq in Hx. apply IH in Hab. congruence.
  - inversion H; subst. rewrite Ascii.eqb_refl. simpl. now apply IH.
Qed.

Lemma bytes_HasSuffix_app (s suffix : bytes) :
  bytes_HasSuffix s suffix = true <-> exists front, s = front ++ suffix.
Proof.
  unfold bytes_HasSuffix; split.
  - intro H. apply andb_true_iff in H as [_ H]. apply bytes_Equal_eq in H.
    exists (firstn (length s - length suffix) s).
    rewrite <- (firstn_skipn (length s - length suffix) s) at 1.
    f_equal. exact H.
  - intros [front ->]. rewrite length_app. apply andb_true_iff; split.
    + apply Nat.leb_le. lia.
    + apply bytes_Equal_eq.
      replace (length front + length suffix - length suffix)%nat
        with (length front + 0)%nat by lia.
      rewrite skipn_app, Nat.add_comm, skipn_all2 by (simpl; lia).
      simpl. replace (length front - length front)%nat with 0%nat by lia.
      reflexivity.
Qed.

Lemma through_delim_split (s : bytes) (d : ascii) (line rest : bytes) :
  bufio.through_delim s d = Some (line, rest) ->
  s = line ++ rest /\ (length rest < length s)%nat.
Proof.
  revert line rest; induction s as [|c s IH]; simpl; intros line rest H.
  - discriminate.
  - destruct (Ascii.eqb c d).
    + inversion H; subst; simpl; split; [reflexivity | lia].
    + destruct (bufio.through_delim s d) as [[l r]|]; [|discriminate].
      inversion H; subst. destruct (IH l rest eq_refl) as [E Hlen].
      split; [simpl; f_equal; exact E | simpl; lia].
Qed.

(** ** The SSE reader: [ReadEvent] always returns *)

Lemma ReadEvent_loop_returns (n : nat) (r : utils.SSEReader) :
  (length (bufio.unread (utils.reader r)) < n)%nat ->
  exists x, utils.ReadEvent_loop n r = Some x.
Proof.
  revert r; induction n as [|n IH]; intros r Hn; [lia|].
  simpl. unfold bufio.ReadBytes.
  destruct (bufio.through_delim (bufio.unread (utils.reader r)) newline)
    as [[line rest]|] eqn:E.
  - apply through_delim_split in E as [_ Hlen].
    repeat match goal with
           | |- context [if ?c then _ else _] => destruct c
           end; eauto; apply IH; simpl; lia.
  - repeat match goal with
           | |- context [if ?c then _ else _] => destruct c
           end; eauto.
Qed.

(** Fuel beyond the length of the unread input does not change the result. *)
Lemma ReadEvent_loop_enough (n : nat) :
  forall m r,
    (length (bufio.unread (utils.reader r)) < n)%nat ->
    (length (bufio.unread (utils.reader r)) < m)%nat ->
    utils.ReadEvent_loop n r = utils.ReadEvent_loop m r.
Proof.
  induction n as [|n IH]; intros m r Hn Hm; [lia|].
  destruct m as [|m]; [lia|].
  simpl. unfold bufio.ReadBytes.
  destruct (bufio.through_delim (bufio.unread (utils.reader r)) newline)
    as [[line rest]|] eqn:E; [|reflexivity].
  apply through_delim_split in E as [_ Hlen].
  repeat match goal with
         | |- context [if ?c then _ else _] => destruct c
         end; try reflexivity; apply IH; simpl; lia.
Qed.

Lemma ReadEvent_returns (r : utils.SSEReader) :
  exists x, utils.ReadEvent r = Some x.
Proof.
  unfold utils.ReadEvent. apply ReadEvent_loop_returns.
  unfold utils.ReadEvent_fuel. lia.
Qed.

Lemma pending_le (r : utils.SSEReader) :
  (interp.pending r <= S (length (bufio.unread (utils.reader r))))%nat.
Proof. unfold interp.pending. destruct (utils.buffer r); lia. Qed.

Lemma ReadEvent_loop_post (n : nat) :
  forall r res r',
    utils.ReadEvent_loop n r = Some (res, r') -> ReadEvent_post r res r'.
Proof.
  induction n as [|n IH]; intros r res r' H; [discriminate|].
  simpl in H. unfold bufio.ReadBytes in H.
  destruct (bufio.through_delim (bufio.unread (utils.reader r)) newline)
    as [[line rest]|] eqn:E.
  - apply through_delim_split in E as [_ Hlen].
    destruct (utils.eventComplete _ line).
    + destruct (utils.surfaced _) eqn:Hs.
      * inversion H; subst; clear H. unfold ReadEvent_post; simpl.
        repeat split; auto. unfold interp.pending; simpl. lia.
      * apply IH in H. unfold ReadEvent_post in *; simpl in *.
        destruct H as (Hd & He & Hf & H). repeat split; auto.
        destruct res; [|exact H].
        destruct H as (? & ? & Hp). repeat split; auto.
        unfold interp.pending in *; simpl in *. lia.
    + apply IH in H. unfold ReadEvent_post in *; simpl in *.
      destruct H as (Hd & He & Hf & H). repeat split; auto.
      destruct res; [|exact H].
      destruct H as (? & ? & Hp). repeat split; auto.
      pose proof (pending_le
        (utils.set_buffer
           (utils.set_reader r (bufio.mkReader rest (bufio.final (utils.reader r))))
           (utils.buffer r ++ line))) as Hle.
      simpl in Hle. unfold interp.pending at 2. lia.
  - destruct (is_EOF (bufio.final (utils.reader r))) eqn:Heof.
    + destruct ((0 <? length (utils.buffer r))%nat
                && negb (bytes_Equal (utils.buffer r) [newline]))
        eqn:Hc.
      * apply andb_true_iff in Hc as [Hlen _]. apply Nat.ltb_lt in Hlen.
        simpl in Hlen.
        destruct (utils.surfaced _) eqn:Hs; inversion H; subst; clear H;
          unfold ReadEvent_post; simpl; repeat split; auto.
        unfold interp.pending; simpl.
        destruct (utils.buffer r); simpl in *; lia.
      * inversion H; subst; clear H. unfold ReadEvent_post; simpl.
        repeat split; auto. intros _.
        apply andb_false_iff in Hc as [Hc|Hc].
        -- apply Nat.ltb_ge in Hc. left.
           destruct (utils.buffer r); [reflexivity | simpl in Hc; lia].
        -- apply negb_false_iff, bytes_Equal_eq in Hc. now right.
    + inversion H; subst; clear H. unfold ReadEvent_post; simpl.
      repeat split; auto. congruence.
Qed.

Lemma ReadEvent_post_holds (r : utils.SSEReader) res r' :
  utils.ReadEvent r = Some (res, r') ->
  ReadEvent_post (utils.set_event r utils.zeroSSEEvent) res r'.
Proof. apply ReadEvent_loop_post. Qed.

Lemma ReadEvent_event (r : utils.SSEReader) ev r' :
  utils.ReadEvent r = Some (inl ev, r') ->
  utils.event r' = utils.zeroSSEEvent
  /\ utils.buffer r' = []
  /\ (interp.pending r' < interp.pending r)%nat.
Proof.
  intro H. apply ReadEvent_post_holds in H.
  destruct H as (_ & He & _ & _ & Hb & Hp). auto.
Qed.

Lemma ReadEvent_settles (r : utils.SSEReader) res r' :
  utils.ReadEvent r = Some (res, r') -> settled r'.
Proof.
  intro H. apply ReadEvent_post_holds in H.
  destruct H as (_ & He & Hf & H). split; [exact He|].
  destruct res as [ev|e].
  - destruct H as (_ & Hb & _). auto.
  - destruct H as (-> & _ & Hb). simpl in Hb. rewrite Hf. exact Hb.
Qed.

(** On a settled reader without unread input, [ReadEvent] reports how the
    source ended and changes nothing. *)
Lemma ReadEvent_at_end (r : utils.SSEReader) :
  settled r ->
  bufio.unread (utils.reader r) = [] ->
  utils.ReadEvent r = Some (inr (bufio.final (utils.reader r)), r).
Proof.
  destruct r as [[u f] d e b]; unfold settled; simpl.
  intros [-> Hb] ->. unfold utils.ReadEvent; simpl.
  unfold bufio.ReadBytes; simpl.
  destruct (is_EOF f) eqn:Heof; [|reflexivity].
  destruct (Hb eq_refl) as [-> | ->]; reflexivity.
Qed.

(** ** The shared recursion of [Recv] *)

Lemma Recv_times_ext {S : Type}
      (f g : S -> option ((api.ResponseChunk + error) * S)) :
  (forall s, f s = g s) ->
  forall n s, api.Recv_times f n s = api.Recv_times g n s.
Proof.
  intros Hfg n. induction n as [|n IH]; intro s; simpl; [reflexivity|].
  rewrite Hfg. destruct (g s) as [[res s1]|]; [|reflexivity].
  now rewrite IH.
Qed.

Section DriveFacts.
Context {St : Type}.
Variable rd : St -> utils.SSEReader.
Variable put : St -> utils.SSEReader -> St.
Variable next : utils.SSEEvent -> St -> interp.outcome * St.

Hypothesis rd_put : forall s r, rd (put s r) = r.
Hypothesis put_rd : forall s, put s (rd s) = s.
Hypothesis next_rd : forall ev s, rd (snd (next ev s)) = rd s.

Local Abbreviation drive := (interp.drive rd put next).
Local Abbreviation budget := (interp.budget rd).

Lemma drive_unfold (n : nat) (s : St) :
  drive (S n) s
  = match utils.ReadEvent (rd s) with
    | None => None
    | Some (inr err, r) =>
        if is_EOF err then Some (inr io_EOF, put s r)
        else Some (inr (NewError ErrorTypeServer "读取SSE事件失败" 0 (Some err)),
                   put s r)
    | Some (inl event, r) =>
        match next event (put s r) with
        | (interp.KeepReading, s) => drive n s
        | (interp.Return res, s) => Some (res, s)
        end
    end.
Proof. reflexivity. Qed.

Lemma drive_error (n : nat) (s : St) e r :
  utils.ReadEvent (rd s) = Some (inr e, r) ->
  drive (S n) s = Some (inr (interp.read_failure e), put s r).
Proof.
  intro H. simpl. rewrite H. unfold interp.read_failure.
  destruct (is_EOF e); reflexivity.
Qed.

(** Fuel above [pending] is enough, and more fuel changes nothing. *)
Lemma drive_enough (n : nat) :
  forall m s,
    (interp.pending (rd s) < n)%nat ->
    (interp.pending (rd s) < m)%nat ->
    drive n s = drive m s /\ exists x, drive n s = Some x.
Proof.
  induction n as [|n IH]; intros m s Hn Hm; [lia|].
  destruct m as [|m]; [lia|]. simpl.
  destruct (ReadEvent_returns (rd s)) as [[[ev|e] r] E]; rewrite E.
  - destruct (next ev (put s r)) as [[|res] s'] eqn:N.
    + apply ReadEvent_event in E as (_ & _ & Hp).
      assert (rd s' = r) as Hr.
      { pose proof (next_rd ev (put s r)) as Hx. rewrite N in Hx.
        simpl in Hx. now rewrite Hx, rd_put. }
      apply IH; rewrite Hr; lia.
    + split; eauto.
  - destruct (is_EOF e); split; eauto.
Qed.

Lemma budget_enough (s : St) : (interp.pending (rd s) < budget s)%nat.
Proof. unfold interp.budget. pose proof (pending_le (rd s)). lia. Qed.

Lemma drive_returns (s : St) : exists x, drive (budget s) s = Some x.
Proof. apply (@drive_enough (budget s) (budget s) s); apply budget_enough. Qed.

Lemma drive_budget (n : nat) (s : St) :
  (interp.pending (rd s) < n)%nat -> drive n s = drive (budget s) s.
Proof. intro H. apply (@drive_enough n (budget s) s); [exact H | apply budget_enough]. Qed.

(** One raw event, as [Recv] sees it. *)
Lemma drive_keep (s s' : St) ev r :
  utils.ReadEvent (rd s) = Some (inl ev, r) ->
  next ev (put s r) = (interp.KeepReading, s') ->
  drive (budget s) s = drive (budget s') s'.
Proof.
  intros E N. unfold interp.budget at 1. rewrite drive_unfold, E, N.
  apply drive_budget.
  assert (rd s' = r) as ->.
  { pose proof (next_rd ev (put s r)) as Hx. rewrite N in Hx.
    simpl in Hx. now rewrite Hx, rd_put. }
  apply ReadEvent_event in E as (_ & _ & Hp).
  pose proof (pending_le (rd s)). lia.
Qed.

Lemma drive_return (s s' : St) ev r res :
  utils.ReadEvent (rd s) = Some (inl ev, r) ->
  next ev (put s r) = (interp.Return res, s') ->
  drive (budget s) s = Some (res, s').
Proof. intros E N. unfold interp.budget. now rewrite drive_unfold, E, N. Qed.

(** Whatever [Recv] returns, it leaves the reader settled, and not further
    from its end; a chunk brings it strictly closer. *)
Lemma drive_post (n : nat) :
  forall s res s',
    drive n s = Some (res, s') ->
    settled (rd s')
    /\ bufio.final (utils.reader (rd s')) = bufio.final (utils.reader (rd s))
    /\ match res with
       | inl _ => (interp.pending (rd s') < interp.pending (rd s))%nat
       | inr _ => True
       end.
Proof.
  induction n as [|n IH]; intros s res s' H; [discriminate|].
  simpl in H.
  destruct (utils.ReadEvent (rd s)) as [[[ev|e] r]|] eqn:E; [| |discriminate].
  - pose proof (ReadEvent_settles _ _ _ E) as Hs.
    pose proof (ReadEvent_post_holds _ _ _ E) as (_ & _ & Hf & _).
    apply ReadEvent_event in E as (_ & _ & Hp).
    destruct (next ev (put s r)) as [[|res0] s0] eqn:N;
      (assert (rd s0 = r) as Hr;
       [ pose proof (next_rd ev (put s r)) as Hx; rewrite N in Hx;
         simpl in Hx; now rewrite Hx, rd_put | ]).
    + apply IH in H as (Hs' & Hf' & H). rewrite Hr in *.
      split; [exact Hs'|]. split; [simpl in Hf; congruence|].
      destruct res; [lia | exact I].
    + inversion H; subst res0 s0; clear H. rewrite Hr.
      split; [exact Hs|]. split; [exact Hf|]. destruct res; [exact Hp | exact I].
  - pose proof (ReadEvent_settles _ _ _ E) as Hs.
    pose proof (ReadEvent_post_holds _ _ _ E) as (_ & _ & Hf & _).
    destruct (is_EOF e); inversion H; subst; clear H; rewrite rd_put; auto.
Qed.

(** With the input used up, a settled stream only repeats how its source
    ended, and stays as it is. *)
Lemma drive_at_end (n : nat) (s : St) :
  settled (rd s) ->
  bufio.unread (utils.reader (rd s)) = [] ->
  drive (S n) s
  = Some (inr (interp.read_failure (bufio.final (utils.reader (rd s)))), s).
Proof.
  intros Hs Hu. rewrite (drive_error n s _ _ (ReadEvent_at_end _ Hs Hu)).
  now rewrite put_rd.
Qed.

(** The amended invariant, for any stream built on [drive]. *)
Lemma drive_after_end (s s' : St) res :
  drive (budget s) s = Some (res, s') ->
  bufio.unread (utils.reader (rd s')) = [] ->
  drive (budget s') s'
  = Some (inr (interp.read_failure (bufio.final (utils.reader (rd s')))), s').
Proof.
  intros H Hu. apply drive_post in H as (Hs & _ & _).
  unfold interp.budget. now apply drive_at_end.
Qed.

(** A result of [Recv] is a failure of the reader or the decision taken on
    some raw event. *)
Lemma drive_origin (n : nat) :
  forall s res s',
    drive n s = Some (res, s') ->
    (exists e, res = inr (interp.read_failure e))
    \/ (exists ev s0, next ev s0 = (interp.Return res, s')).
Proof.
  induction n as [|n IH]; intros s res s' H; [discriminate|].
  rewrite drive_unfold in H.
  destruct (utils.ReadEvent (rd s)) as [[[ev|e] r]|]; [| |discriminate].
  - destruct (next ev (put s r)) as [[|res0] s0] eqn:N.
    + now apply IH in H.
    + inversion H; subst. right. eauto.
  - left. exists e. unfold interp.read_failure.
    destruct (is_EOF e); inversion H; reflexivity.
Qed.

Lemma drive_times_at_end (s : St) :
  settled (rd s) ->
  bufio.unread (utils.reader (rd s)) = [] ->
  forall n,
    api.Recv_times (fun s => drive (budget s) s) n s
    = Some (repeat (inr (interp.read_failure (bufio.final (utils.reader (rd s))))) n, s).
Proof.
  intros Hs Hu n. induction n as [|n IH]; [reflexivity|].
  cbn [api.Recv_times]. unfold interp.budget at 1.
  rewrite drive_at_end by assumption. now rewrite IH.
Qed.

Lemma drive_stays_ended (s s' : St) res :
  drive (budget s) s = Some (res, s') ->
  bufio.unread (utils.reader (rd s')) = [] ->
  forall n,
    api.Recv_times (fun s => drive (budget s) s) n s'
    = Some (repeat (inr (interp.read_failure (bufio.final (utils.reader (rd s'))))) n, s').
Proof.
  intros H Hu. apply drive_post in H as (Hs & _ & _).
  now apply drive_times_at_end.
Qed.

End DriveFacts.

(** Each [Recv_fuel] is the shared recursion at its backend's decision. *)
Lemma openai_Recv_drive J (n : nat) :
  forall s, openai.Recv_fuel J n s
            = interp.drive openai.reader openai.set_reader (interp.openai_next J) n s.
Proof.
  induction n as [|n IH]; intro s; [reflexivity|]. simpl.
  destruct (utils.ReadEvent (openai.reader s)) as [[[ev|e] r]|]; try reflexivity.
  unfold interp.openai_next.
  destruct (String.eqb (utils.Data ev) "[DONE]") eqn:Hd.
  - rewrite orb_true_r. reflexivity.
  - rewrite orb_false_r.
    destruct (negb (nonempty (utils.Data ev))); [apply IH|].
    destruct (J _); reflexivity.
Qed.

Lemma deepseek_Recv_drive J (n : nat) :
  forall s, deepseek.Recv_fuel J n s
            = interp.drive deepseek.reader deepseek.set_reader
                (interp.deepseek_next J) n s.
Proof.
  induction n as [|n IH]; intro s; [reflexivity|]. simpl.
  destruct (utils.ReadEvent (deepseek.reader s)) as [[[ev|e] r]|]; try reflexivity.
  unfold interp.deepseek_next.
  destruct (String.eqb (utils.Data ev) "[DONE]") eqn:Hd.
  - rewrite orb_true_r. reflexivity.
  - rewrite orb_false_r.
    destruct (negb (nonempty (utils.Data ev))); [apply IH|].
    destruct (J _); reflexivity.
Qed.

Lemma length_zero_nil {A : Type} (l : list A) :
  (length l =? 0)%nat = match l with [] => true | _ => false end.
Proof. destruct l; reflexivity. Qed.

Lemma candidateChoices_nil : gemini.candidateChoices [] = [].
Proof. reflexivity. Qed.

Lemma gemini_Recv_drive J clock (n : nat) :
  forall s, gemini.Recv_fuel J clock n s
            = interp.drive gemini.reader gemini.set_reader
                (interp.gemini_next J clock) n s.
Proof.
  induction n as [|n IH]; intro s; [reflexivity|]. simpl.
  destruct (utils.ReadEvent (gemini.reader s)) as [[[ev|e] r]|]; try reflexivity.
  unfold interp.gemini_next.
  destruct (negb (nonempty (utils.Data ev))); [apply IH|].
  destruct (J _) as [resp|err]; [|reflexivity].
  rewrite !length_zero_nil.
  destruct (gemini.Candidates resp) as [|c cs] eqn:Hc.
  - rewrite candidateChoices_nil. apply IH.
  - destruct (gemini.candidateChoices (c :: cs)); [apply IH | reflexivity].
Qed.

Lemma anthropic_Recv_drive J clock (n : nat) :
  forall s, anthropic.Recv_fuel J clock n s
            = interp.drive anthropic.reader anthropic.set_reader
                (interp.anthropic_next J clock) n s.
Proof.
  induction n as [|n IH]; intro s; [reflexivity|]. simpl.
  destruct (utils.ReadEvent (anthropic.reader s)) as [[[ev|e] r]|]; try reflexivity.
  unfold interp.anthropic_next.
  destruct (negb (nonempty (utils.Data ev))); [apply IH|].
  destruct (J _) as [resp|err]; [|reflexivity].
  destruct (String.eqb (anthropic.Type_ resp) "message_stop"); [reflexivity|].
  destruct (String.eqb (anthropic.Type_ resp) "content_block_delta") eqn:Hd.
  - unfold anthropic.notTextDelta, anthropic.deltaText.
    destruct (anthropic.Delta resp) as [d|]; [|apply IH].
    destruct (String.eqb (anthropic.delta_Type d) "text"); simpl;
      [reflexivity | apply IH].
  - destruct (String.eqb (anthropic.Type_ resp) "content_block_start") eqn:Hs.
    + apply String.eqb_eq in Hs. rewrite Hs. simpl.
      destruct (anthropic.ContentBlock resp) as [b|]; [|apply IH].
      destruct (negb _); apply IH.
    + destruct (String.eqb (anthropic.Type_ resp) "message_start") eqn:Hm.
      * apply String.eqb_eq in Hm. rewrite Hm. simpl. apply IH.
      * destruct (String.eqb (anthropic.Type_ resp) "message_delta");
          [destruct (nonempty _); [reflexivity | apply IH] | apply IH].
Qed.

(** ** The SSE reader on a single [data:] event *)

Lemma through_delim_line (l rest : bytes) (d : ascii) :
  ~ In d l ->
  bufio.through_delim (l ++ d :: rest) d = Some (l ++ [d], rest).
Proof.
  induction l as [|c l IH]; simpl; intro H.
  - now rewrite Ascii.eqb_refl.
  - destruct (Ascii.eqb c d) eqn:E.
    + apply Ascii.eqb_eq in E. tauto.
    + rewrite IH by tauto. reflexivity.
Qed.

Lemma bytes_Split_line (l rest : bytes) (d : ascii) :
  ~ In d l ->
  bytes_Split (l ++ d :: rest) d = l :: bytes_Split rest d.
Proof.
  induction l as [|c l IH]; simpl; intro H.
  - now rewrite Ascii.eqb_refl.
  - destruct (Ascii.eqb c d) eqn:E.
    + apply Ascii.eqb_eq in E. tauto.
    + rewrite IH by tauto. reflexivity.
Qed.

Lemma bytes_of_append (a b : string) :
  bytes_of (String.append a b) = bytes_of a ++ bytes_of b.
Proof. induction a as [|c a IH]; simpl; [reflexivity | now rewrite IH]. Qed.

Lemma nonempty_true (s : string) : s <> EmptyString -> nonempty s = true.
Proof. destruct s; [congruence | reflexivity]. Qed.

Lemma ReadEvent_loop_unfold (n : nat) (r : utils.SSEReader) :
  utils.ReadEvent_loop (S n) r
  = let '((line, err), b) := bufio.ReadBytes (utils.reader r) newline in
    let r := utils.set_reader r b in
    match err with
    | Some err =>
        if is_EOF err then
          if (0 <? length (utils.buffer r))%nat
             && negb (bytes_Equal (utils.buffer r) [newline]) then
            let r := utils.set_buffer r (utils.buffer r ++ [newline]) in
            let event := utils.processBuffer r in
            let r := utils.set_buffer r [] in
            if utils.surfaced event then Some (inl event, r)
            else Some (inr err, r)
          else Some (inr err, r)
        else Some (inr err, r)
    | None =>
        let r := utils.set_buffer r (utils.buffer r ++ line) in
        if utils.eventComplete r line then
          let event := utils.processBuffer r in
          let r := utils.set_buffer r [] in
          if utils.surfaced event then Some (inl event, r)
          else utils.ReadEvent_loop n r
        else utils.ReadEvent_loop n r
    end.
Proof. reflexivity. Qed.

Lemma ReadEvent_loop_line (n : nat) (r : utils.SSEReader) (line rest : bytes) :
  bufio.through_delim (bufio.unread (utils.reader r)) newline = Some (line, rest) ->
  utils.eventComplete (with_line r line rest) line = false ->
  utils.ReadEvent_loop (S n) r = utils.ReadEvent_loop n (with_line r line rest).
Proof.
  intros Hd Hc. rewrite ReadEvent_loop_unfold.
  unfold bufio.ReadBytes, with_line in *.
  destruct r as [[u f] d e b]; simpl in *. rewrite Hd. simpl. now rewrite Hc.
Qed.

Lemma ReadEvent_loop_event (n : nat) (r : utils.SSEReader) (line rest : bytes) :
  bufio.through_delim (bufio.unread (utils.reader r)) newline = Some (line, rest) ->
  utils.eventComplete (with_line r line rest) line = true ->
  utils.surfaced (utils.processBuffer (with_line r line rest)) = true ->
  utils.ReadEvent_loop (S n) r
  = Some (inl (utils.processBuffer (with_line r line rest)),
          utils.set_buffer (with_line r line rest) []).
Proof.
  intros Hd Hc Hs. rewrite ReadEvent_loop_unfold.
  unfold bufio.ReadBytes, with_line in *.
  destruct r as [[u f] d e b]; simpl in *. rewrite Hd. simpl. now rewrite Hc, Hs.
Qed.

(** A line with content does not end an event. *)
Lemma eventComplete_content_line (r : utils.SSEReader) (line : bytes) :
  utils.delimiter r = [newline; newline] ->
  utils.buffer r = line ++ [newline] ->
  line <> [] ->
  ~ In newline line ->
  utils.eventComplete r (line ++ [newline]) = false.
Proof.
  intros Hd Hb Hne Hn. unfold utils.eventComplete. apply orb_false_iff; split.
  - destruct (bytes_HasSuffix _ _) eqn:E; [|reflexivity]. exfalso.
    apply bytes_HasSuffix_app in E as [front E]. rewrite Hd, Hb in E.
    change [newline; newline] with ([newline] ++ [newline]) in E.
    rewrite app_assoc in E. apply app_inj_tail in E as [E _].
    apply Hn. rewrite E. apply in_or_app. right. now left.
  - replace (length (line ++ [newline]) =? 1)%nat with false; [reflexivity|].
    symmetry. apply Nat.eqb_neq. rewrite length_app. simpl.
    destruct line; [congruence | simpl; lia].
Qed.

Lemma processBuffer_data_line (r : utils.SSEReader) (payload : string) :
  ~ In newline (bytes_of payload) ->
  utils.buffer r = (bytes_of "data: " ++ bytes_of payload) ++ [newline; newline] ->
  utils.processBuffer r = utils.mkSSEEvent EmptyString payload EmptyString 0.
Proof.
  intros Hnl Hb. unfold utils.processBuffer. rewrite Hb.
  rewrite bytes_Split_line.
  - simpl. unfold string_of, bytes_of.
    now rewrite string_of_list_ascii_of_string.
  - intro H. apply in_app_or in H as [H|H]; [|tauto].
    simpl in H. repeat (destruct H as [H|H]; [discriminate H|]). exact H.
Qed.

Lemma ReadEvent_data_event (payload : string) (rest : bytes) (final : error)
      (n : nat) :
  payload <> EmptyString ->
  ~ In newline (bytes_of payload) ->
  utils.ReadEvent_loop (S (S n))
    (utils.mkSSEReader
       (bufio.mkReader (bytes_of (wire.data_event payload) ++ rest) final)
       [newline; newline] utils.zeroSSEEvent [])
  = Some (inl (utils.mkSSEEvent EmptyString payload EmptyString 0),
          utils.mkSSEReader (bufio.mkReader rest final)
            [newline; newline] utils.zeroSSEEvent []).
Proof.
  intros Hne Hnl.
  set (line := bytes_of "data: " ++ bytes_of payload).
  assert (~ In newline line) as Hline.
  { unfold line. intro H. apply in_app_or in H as [H|H]; [|tauto].
    simpl in H. repeat (destruct H as [H|H]; [discriminate H|]). exact H. }
  assert (bytes_of (wire.data_event payload) ++ rest
          = line ++ newline :: newline :: rest) as ->.
  { unfold wire.data_event, line. rewrite !bytes_of_append.
    rewrite <- !app_assoc. reflexivity. }
  set (r0 := utils.mkSSEReader _ _ _ _).
  set (r1 := with_line r0 (line ++ [newline]) (newline :: rest)).
  set (r2 := with_line r1 [newline] rest).
  assert (utils.buffer r2 = line ++ [newline; newline]) as Hb2.
  { unfold r2, r1, r0, with_line. simpl. now rewrite <- app_assoc. }
  assert (utils.processBuffer r2
          = utils.mkSSEEvent EmptyString payload EmptyString 0) as Hev.
  { apply processBuffer_data_line; assumption. }
  rewrite (@ReadEvent_loop_line (S n) r0 (line ++ [newline]) (newline :: rest)).
  - fold r1. rewrite (@ReadEvent_loop_event n r1 [newline] rest).
    + fold r2. rewrite Hev. reflexivity.
    + reflexivity.
    + fold r2. unfold utils.eventComplete. apply orb_true_iff. left.
      apply bytes_HasSuffix_app. exists line. rewrite Hb2. reflexivity.
    + fold r2. rewrite Hev. unfold utils.surfaced. simpl.
      now rewrite (nonempty_true _ Hne).
  - unfold r0. simpl.
    apply (@through_delim_line line (newline :: rest) newline Hline).
  - fold r1. apply eventComplete_content_line; try reflexivity; [|exact Hline].
    unfold line. simpl. discriminate.
Qed.

Lemma has_newline_false (payload : string) :
  wire.has_newline payload = false -> ~ In newline (bytes_of payload).
Proof.
  unfold wire.has_newline. intros H Hin.
  assert (existsb (Ascii.eqb newline) (bytes_of payload) = true) as Ht.
  { apply existsb_exists. exists newline. split; [exact Hin|].
    apply Ascii.eqb_refl. }
  congruence.
Qed.

Lemma nonempty_neq (s : string) : nonempty s = true -> s <> EmptyString.
Proof. destruct s; [discriminate | discriminate]. Qed.

(** C5. For a single-event input [data: <payload>] followed by a blank
    line, with a payload that is not empty and holds no line break, the
    reader yields exactly one event, whose data is the payload, and then the
    end of the stream; and for the input [data: foo], [data: bar], blank
    line it yields one event whose data is [foo], a newline, [bar]. *)
Theorem C5_single_data_event (payload : string) :
  nonempty payload = true ->
  wire.has_newline payload = false ->
  (exists r1,
      utils.ReadEvent (wire.source (wire.data_event payload))
      = Some (inl (utils.mkSSEEvent EmptyString payload EmptyString 0), r1)
      /\ utils.ReadEvent r1 = Some (inr io_EOF, r1))
  /\ (exists r1,
         utils.ReadEvent (wire.source wire.two_data_lines)
         = Some (inl (utils.mkSSEEvent EmptyString wire.foo_bar EmptyString 0), r1)
         /\ utils.ReadEvent r1 = Some (inr io_EOF, r1)).
Proof.
  intros Hne Hnl. split.
  - exists (utils.mkSSEReader (bufio.mkReader [] io_EOF)
              [newline; newline] utils.zeroSSEEvent []).
    split; [|reflexivity].
    unfold utils.ReadEvent, utils.ReadEvent_fuel, wire.source, utils.NewSSEReader.
    cbn [utils.set_event utils.reader utils.delimiter utils.buffer bufio.unread].
    assert (exists n, length (bytes_of (wire.data_event payload)) = S n)
      as [n ->].
    { unfold wire.data_event. rewrite bytes_of_append. simpl. eauto. }
    rewrite <- (app_nil_r (bytes_of (wire.data_event payload))).
    apply ReadEvent_data_event.
    + now apply nonempty_neq.
    + now apply has_newline_false.
  - eexists. split; reflexivity.
Qed.

(** C5 on the payload of an empty JSON object. *)
Lemma C5_single_data_event_witness :
  nonempty "{}" = true
  /\ wire.has_newline "{}" = false
  /\ (exists r1,
         utils.ReadEvent (wire.source (wire.data_event "{}"))
         = Some (inl (utils.mkSSEEvent EmptyString "{}" EmptyString 0), r1)
         /\ utils.ReadEvent r1 = Some (inr io_EOF, r1)).
Proof.
  split; [reflexivity|]. split; [reflexivity|].
  apply (@C5_single_data_event "{}"); reflexivity.
Defined.

(** ** The four streams as instances of the shared recursion *)

(** Case analysis on every test a per-event decision makes. *)
Ltac each_decision :=
  repeat match goal with
         | |- context [if ?c then _ else _] => destruct c
         | |- context [match ?J ?x with inl _ => _ | inr _ => _ end] =>
             destruct (J x)
         | |- context [match gemini.candidateChoices ?x with _ => _ end] =>
             destruct (gemini.candidateChoices x)
         | |- context [match anthropic.Delta ?x with _ => _ end] =>
             destruct (anthropic.Delta x)
         end.

Lemma openai_put_rd s : openai.set_reader s (openai.reader s) = s.
Proof. now destruct s. Qed.

Lemma openai_next_rd J ev s :
  openai.reader (snd (interp.openai_next J ev s)) = openai.reader s.
Proof. unfold interp.openai_next. each_decision; reflexivity. Qed.

Lemma openai_Recv_is_drive J s :
  openai.Recv J s
  = interp.drive openai.reader openai.set_reader (interp.openai_next J)
      (interp.budget openai.reader s) s.
Proof. apply openai_Recv_drive. Qed.

Lemma deepseek_put_rd s : deepseek.set_reader s (deepseek.reader s) = s.
Proof. now destruct s. Qed.

Lemma deepseek_next_rd J ev s :
  deepseek.reader (snd (interp.deepseek_next J ev s)) = deepseek.reader s.
Proof. unfold interp.deepseek_next. each_decision; reflexivity. Qed.

Lemma deepseek_Recv_is_drive J s :
  deepseek.Recv J s
  = interp.drive deepseek.reader deepseek.set_reader (interp.deepseek_next J)
      (interp.budget deepseek.reader s) s.
Proof. apply deepseek_Recv_drive. Qed.

Lemma gemini_put_rd s : gemini.set_reader s (gemini.reader s) = s.
Proof. now destruct s. Qed.

Lemma gemini_next_rd J clock ev s :
  gemini.reader (snd (interp.gemini_next J clock ev s)) = gemini.reader s.
Proof. unfold interp.gemini_next. each_decision; reflexivity. Qed.

Lemma gemini_Recv_is_drive J clock s :
  gemini.Recv J clock s
  = interp.drive gemini.reader gemini.set_reader (interp.gemini_next J clock)
      (interp.budget gemini.reader s) s.
Proof. apply gemini_Recv_drive. Qed.

Lemma anthropic_put_rd s : anthropic.set_reader s (anthropic.reader s) = s.
Proof. now destruct s. Qed.

Lemma anthropic_next_rd J clock ev s :
  anthropic.reader (snd (interp.anthropic_next J clock ev s)) = anthropic.reader s.
Proof. unfold interp.anthropic_next. each_decision; reflexivity. Qed.

Lemma anthropic_Recv_is_drive J clock s :
  anthropic.Recv J clock s
  = interp.drive anthropic.reader anthropic.set_reader (interp.anthropic_next J clock)
      (interp.budget anthropic.reader s) s.
Proof. apply anthropic_Recv_drive. Qed.

Create HintDb streams.
#[local] Hint Resolve openai_put_rd openai_next_rd deepseek_put_rd deepseek_next_rd
  gemini_put_rd gemini_next_rd anthropic_put_rd anthropic_next_rd : streams.

(** [Recv] returns on every stream, and fuel above what is pending gives
    the same result as the fuel [Recv] takes. *)
Lemma Recv_returns :
  (forall J s, exists x, openai.Recv J s = Some x)
  /\ (forall J s, exists x, deepseek.Recv J s = Some x)
  /\ (forall J clock s, exists x, gemini.Recv J clock s = Some x)
  /\ (forall J clock s, exists x, anthropic.Recv J clock s = Some x).
Proof.
  split; [|split; [|split]]; intros.
  - rewrite openai_Recv_is_drive.
    apply drive_returns; [reflexivity | apply openai_next_rd].
  - rewrite deepseek_Recv_is_drive.
    apply drive_returns; [reflexivity | apply deepseek_next_rd].
  - rewrite gemini_Recv_is_drive.
    apply drive_returns; [reflexivity | apply gemini_next_rd].
  - rewrite anthropic_Recv_is_drive.
    apply drive_returns; [reflexivity | apply anthropic_next_rd].
Qed.

Lemma Recv_fuel_enough :
  (forall J n s, (interp.pending (openai.reader s) < n)%nat ->
                 openai.Recv_fuel J n s = openai.Recv J s)
  /\ (forall J n s, (interp.pending (deepseek.reader s) < n)%nat ->
                    deepseek.Recv_fuel J n s = deepseek.Recv J s)
  /\ (forall J clock n s, (interp.pending (gemini.reader s) < n)%nat ->
                          gemini.Recv_fuel J clock n s = gemini.Recv J clock s)
  /\ (forall J clock n s, (interp.pending (anthropic.reader s) < n)%nat ->
                          anthropic.Recv_fuel J clock n s = anthropic.Recv J clock s).
Proof.
  split; [|split; [|split]]; intros.
  - rewrite openai_Recv_is_drive, openai_Recv_drive.
    apply drive_budget; [reflexivity | apply openai_next_rd | assumption].
  - rewrite deepseek_Recv_is_drive, deepseek_Recv_drive.
    apply drive_budget; [reflexivity | apply deepseek_next_rd | assumption].
  - rewrite gemini_Recv_is_drive, gemini_Recv_drive.
    apply drive_budget; [reflexivity | apply gemini_next_rd | assumption].
  - rewrite anthropic_Recv_is_drive, anthropic_Recv_drive.
    apply drive_budget; [reflexivity | apply anthropic_next_rd | assumption].
Qed.

(** ** C1: reads after the end of a stream *)

Lemma read_failure_EOF e : e = io_EOF -> interp.read_failure e = io_EOF.
Proof. now intros ->. Qed.

(** A stream that is the shared recursion stays ended. *)
Ltac stays_ended_by is_drive :=
  intros s e s' H Hu; eexists; split; [apply read_failure_EOF|];
  intro n; rewrite (Recv_times_ext _ _ is_drive); rewrite is_drive in H;
  eapply drive_stays_ended; eauto with streams.

(** C1 (as amended). Once [Recv] has returned the completion signal or a
    fatal error and no unread input is left in the byte source, no later
    [Recv] on the same stream returns a chunk: every later read returns the
    same result and leaves the stream unchanged, and that result is the
    completion signal when the source ended cleanly.  This holds of the
    OpenAI, DeepSeek, Gemini and Anthropic streams for every decoder; the
    placeholder DeepSeek stream returns its error at every read. *)
Theorem C1_reads_after_the_end :
  (forall J, stays_ended (openai.Recv J)
               (fun s => utils.reader (openai.reader s)))
  /\ (forall J, stays_ended (deepseek.Recv J)
                  (fun s => utils.reader (deepseek.reader s)))
  /\ (forall J clock, stays_ended (gemini.Recv J clock)
                        (fun s => utils.reader (gemini.reader s)))
  /\ (forall J clock, stays_ended (anthropic.Recv J clock)
                        (fun s => utils.reader (anthropic.reader s)))
  /\ (forall s n,
         api.Recv_times deepseek_placeholder.Recv n s
         = Some (repeat (inr (NewError ErrorTypeUnknown
                                "流式响应功能尚未完全实现" 0 None)) n, s)).
Proof.
  split; [|split; [|split; [|split]]].
  - intros J. stays_ended_by (openai_Recv_is_drive J).
  - intros J. stays_ended_by (deepseek_Recv_is_drive J).
  - intros J clock. stays_ended_by (gemini_Recv_is_drive J clock).
  - intros J clock. stays_ended_by (anthropic_Recv_is_drive J clock).
  - intros s n. induction n as [|n IH]; [reflexivity|].
    simpl. now rewrite IH.
Qed.

(** C1 (as stated) fails: the OpenAI stream returns the completion signal
    at [data: [DONE]] and a chunk at the next read, because the event that
    follows the sentinel is still read and decoded; likewise a chunk follows
    the [Server] error returned for a payload that is not JSON. *)
Lemma C1_chunk_after_completion :
  (exists s2,
      api.Recv_times (openai.Recv sample.openai_json) 2
        (sample.openai_stream ["[DONE]"; fst (sample.openai_text "late")]%string)
      = Some ([inr io_EOF; inl (sample.text_chunk "late")], s2))
  /\ (exists s2,
         api.Recv_times (openai.Recv sample.openai_json) 2
           (sample.openai_stream [sample.malformed; fst (sample.openai_text "late")])
         = Some ([inr sample.parse_failure; inl (sample.text_chunk "late")], s2)).
Proof. split; eexists; vm_compute; reflexivity. Qed.

(** C1 (as amended) on the OpenAI stream that holds the sentinel alone. *)
Lemma C1_reads_after_the_end_witness :
  let J := sample.openai_json in
  let s := sample.openai_stream ["[DONE]"%string] in
  let s' := openai.mkStream wire.drained sample.lenient_body [] in
  openai.Recv J s = Some (inr io_EOF, s')
  /\ bufio.unread (utils.reader (openai.reader s')) = []
  /\ exists e',
      (bufio.final (utils.reader (openai.reader s')) = io_EOF -> e' = io_EOF)
      /\ forall n, api.Recv_times (openai.Recv J) n s' = Some (repeat (inr e') n, s').
Proof.
  intros J s s'. split; [vm_compute; reflexivity|]. split; [reflexivity|].
  apply (proj1 C1_reads_after_the_end J s io_EOF s');
    [vm_compute; reflexivity | reflexivity].
Defined.

(** ** C4: the [[DONE]] sentinel *)

(** C4. On the OpenAI and DeepSeek streams, a raw event whose data is
    exactly [[DONE]] makes [Recv] return the completion signal, not a chunk,
    and the list of inputs handed to the JSON decoder is left as it was, for
    every decoder, also one that would accept [[DONE]]. *)
Theorem C4_done_sentinel :
  (forall J s ev r,
      utils.ReadEvent (openai.reader s) = Some (inl ev, r) ->
      utils.Data ev = "[DONE]"%string ->
      openai.Recv J s = Some (inr io_EOF, openai.set_reader s r)
      /\ openai.unmarshalled (openai.set_reader s r) = openai.unmarshalled s)
  /\ (forall J s ev r,
         utils.ReadEvent (deepseek.reader s) = Some (inl ev, r) ->
         utils.Data ev = "[DONE]"%string ->
         deepseek.Recv J s = Some (inr io_EOF, deepseek.set_reader s r)
         /\ deepseek.unmarshalled (deepseek.set_reader s r) = deepseek.unmarshalled s).
Proof.
  split; intros J s ev r H Hd; (split; [|reflexivity]).
  - unfold openai.Recv, openai.Recv_budget. cbn [openai.Recv_fuel].
    now rewrite H, Hd.
  - unfold deepseek.Recv, deepseek.Recv_budget. cbn [deepseek.Recv_fuel].
    now rewrite H, Hd.
Qed.

(** C4 on the OpenAI stream that holds the sentinel alone. *)
Lemma C4_done_sentinel_witness :
  let s := sample.openai_stream ["[DONE]"%string] in
  let ev := utils.mkSSEEvent EmptyString "[DONE]" EmptyString 0 in
  utils.ReadEvent (openai.reader s) = Some (inl ev, wire.drained)
  /\ utils.Data ev = "[DONE]"%string
  /\ openai.Recv sample.openai_json s
     = Some (inr io_EOF, openai.set_reader s wire.drained)
  /\ openai.unmarshalled (openai.set_reader s wire.drained) = openai.unmarshalled s.
Proof.
  intros s ev. split; [vm_compute; reflexivity|]. split; [reflexivity|].
  apply (proj1 C4_done_sentinel sample.openai_json s ev wire.drained);
    [vm_compute; reflexivity | reflexivity].
Defined.

(** ** The Anthropic stream *)

Lemma anthropic_keep J clock s s' ev r :
  utils.ReadEvent (anthropic.reader s) = Some (inl ev, r) ->
  interp.anthropic_next J clock ev (anthropic.set_reader s r)
  = (interp.KeepReading, s') ->
  anthropic.Recv J clock s = anthropic.Recv J clock s'.
Proof.
  intros E N. rewrite !anthropic_Recv_is_drive.
  eapply drive_keep; eauto using anthropic_next_rd.
Qed.

Lemma anthropic_return J clock s s' ev r res :
  utils.ReadEvent (anthropic.reader s) = Some (inl ev, r) ->
  interp.anthropic_next J clock ev (anthropic.set_reader s r)
  = (interp.Return res, s') ->
  anthropic.Recv J clock s = Some (res, s').
Proof.
  intros E N. rewrite anthropic_Recv_is_drive.
  eapply drive_return; eauto.
Qed.

(** C2. When the next raw event of an Anthropic stream decodes to a
    [message_delta], [Recv] returns the completion signal, without reading
    further, if the event carries a non-empty stop reason
    ([Message.StopReason]); if it carries none, the event is a no-op: [Recv]
    returns whatever it returns on the stream after that event. *)
Theorem C2_message_delta J clock s ev r resp :
  utils.ReadEvent (anthropic.reader s) = Some (inl ev, r) ->
  nonempty (utils.Data ev) = true ->
  J (bytes_of (utils.ParseSSEData (utils.Data ev))) = inl resp ->
  anthropic.Type_ resp = "message_delta"%string ->
  let s' := anthropic.note_unmarshal (anthropic.set_reader s r)
              (bytes_of (utils.ParseSSEData (utils.Data ev))) in
  if nonempty (anthropic.StopReason (anthropic.Message resp))
  then anthropic.Recv J clock s = Some (inr io_EOF, s')
  else anthropic.Recv J clock s = anthropic.Recv J clock s'.
Proof.
  intros E Hd HJ Ht s'.
  destruct (nonempty (anthropic.StopReason (anthropic.Message resp))) eqn:Hs.
  - apply (anthropic_return J clock _ _ _ _ _ E).
    unfold interp.anthropic_next. rewrite Hd, HJ, Ht. simpl. now rewrite Hs.
  - apply (anthropic_keep J clock _ _ _ _ E).
    unfold interp.anthropic_next. rewrite Hd, HJ, Ht. simpl. now rewrite Hs.
Qed.

(** C2 on a [message_delta] with stop reason [end_turn], and on one
    without stop reason that a text delta follows. *)
Lemma C2_message_delta_witness :
  let J := sample.anthropic_json in
  let stop := sample.anthropic_stream [sample.message_delta_stop] in
  let go_on := sample.anthropic_stream
                 [sample.message_delta; fst (sample.anthropic_text "a")] in
  let rest := wire.source (wire.events [fst (sample.anthropic_text "a")]) in
  (utils.ReadEvent (anthropic.reader stop)
   = Some (inl (wire.data_only sample.message_delta_stop), wire.drained)
   /\ anthropic.Recv J sample.clock stop
      = Some (inr io_EOF,
              anthropic.mkStream wire.drained sample.lenient_body
                [bytes_of sample.message_delta_stop]))
  /\ (utils.ReadEvent (anthropic.reader go_on)
      = Some (inl (wire.data_only sample.message_delta), rest)
      /\ anthropic.Recv J sample.clock go_on
         = anthropic.Recv J sample.clock
             (anthropic.mkStream rest sample.lenient_body
                [bytes_of sample.message_delta])).
Proof.
  intros J stop go_on rest. split; (split; [vm_compute; reflexivity|]).
  - apply (C2_message_delta J sample.clock stop
             (wire.data_only sample.message_delta_stop) wire.drained
             (anthropic.mkAnthropicStreamResponse "message_delta"
                (anthropic.mkAnthropicStreamMessage EmptyString EmptyString
                   EmptyString [] EmptyString "end_turn" EmptyString
                   (anthropic.mkUsage 0 0))
                None None 0));
      vm_compute; reflexivity.
  - apply (C2_message_delta J sample.clock go_on
             (wire.data_only sample.message_delta) rest
             (sample.anthropic_event "message_delta"));
      vm_compute; reflexivity.
Defined.

(** The decision on an event that carries data and decodes to [resp]. *)
Lemma anthropic_next_decoded J clock ev s resp :
  nonempty (utils.Data ev) = true ->
  J (bytes_of (utils.ParseSSEData (utils.Data ev))) = inl resp ->
  interp.anthropic_next J clock ev s
  = let s := anthropic.note_unmarshal s
               (bytes_of (utils.ParseSSEData (utils.Data ev))) in
    let type := anthropic.Type_ resp in
    if String.eqb type "message_stop" then (interp.Return (inr io_EOF), s)
    else if String.eqb type "content_block_delta" then
      match anthropic.Delta resp with
      | Some delta =>
          if String.eqb (anthropic.delta_Type delta) "text" then
            (interp.Return
               (inl (sample.delta_chunk (anthropic.Index resp)
                       (anthropic.delta_Text delta) (clock (anthropic.reader s)))), s)
          else (interp.KeepReading, s)
      | None => (interp.KeepReading, s)
      end
    else if String.eqb type "message_delta" then
      if nonempty (anthropic.StopReason (anthropic.Message resp))
      then (interp.Return (inr io_EOF), s)
      else (interp.KeepReading, s)
    else (interp.KeepReading, s).
Proof.
  intros Hd HJ. unfold interp.anthropic_next. now rewrite Hd, HJ.
Qed.

(** C3. When the raw events of an Anthropic stream decode, in order, to
    [message_start], a [content_block_delta] with text delta [a], a
    [content_block_delta] with text delta [b] and [message_stop], three
    successive calls of [Recv] return a chunk with text [a], a chunk with
    text [b] and the completion signal; each chunk has one choice, with the
    assistant role, at the block index of its event.  No chunk is returned
    for [message_start] or [message_stop]. *)
Theorem C3_start_two_deltas_stop J clock s0 r1 r2 r3 r4 i1 i2 i3 i4
        resp1 resp2 resp3 resp4 :
  anthropic_reads J (anthropic.reader s0) resp1 i1 r1 ->
  anthropic_reads J r1 resp2 i2 r2 ->
  anthropic_reads J r2 resp3 i3 r3 ->
  anthropic_reads J r3 resp4 i4 r4 ->
  anthropic.Type_ resp1 = "message_start"%string ->
  anthropic.Type_ resp2 = "content_block_delta"%string ->
  anthropic.Delta resp2 = Some (anthropic.mkAnthropicContentDelta "text" "a") ->
  anthropic.Type_ resp3 = "content_block_delta"%string ->
  anthropic.Delta resp3 = Some (anthropic.mkAnthropicContentDelta "text" "b") ->
  anthropic.Type_ resp4 = "message_stop"%string ->
  api.Recv_times (anthropic.Recv J clock) 3 s0
  = Some ([inl (sample.delta_chunk (anthropic.Index resp2) "a" (clock r2));
           inl (sample.delta_chunk (anthropic.Index resp3) "b" (clock r3));
           inr io_EOF],
          anthropic.mkStream r4 (anthropic.rawReader s0)
            (anthropic.unmarshalled s0 ++ [i1; i2; i3; i4])).
Proof.
  intros (ev1 & E1 & D1 & -> & J1) (ev2 & E2 & D2 & -> & J2)
         (ev3 & E3 & D3 & -> & J3) (ev4 & E4 & D4 & -> & J4)
         T1 T2 X2 T3 X3 T4.
  set (in1 := bytes_of (utils.ParseSSEData (utils.Data ev1))) in *.
  set (in2 := bytes_of (utils.ParseSSEData (utils.Data ev2))) in *.
  set (in3 := bytes_of (utils.ParseSSEData (utils.Data ev3))) in *.
  set (in4 := bytes_of (utils.ParseSSEData (utils.Data ev4))) in *.
  set (s1 := anthropic.mkStream r1 (anthropic.rawReader s0)
               (anthropic.unmarshalled s0 ++ [in1])).
  set (s2 := anthropic.mkStream r2 (anthropic.rawReader s0)
               ((anthropic.unmarshalled s0 ++ [in1]) ++ [in2])).
  set (s3 := anthropic.mkStream r3 (anthropic.rawReader s0)
               (((anthropic.unmarshalled s0 ++ [in1]) ++ [in2]) ++ [in3])).
  set (s4 := anthropic.mkStream r4 (anthropic.rawReader s0)
               ((((anthropic.unmarshalled s0 ++ [in1]) ++ [in2]) ++ [in3]) ++ [in4])).
  assert (anthropic.Recv J clock s0 = anthropic.Recv J clock s1) as R0.
  { apply (anthropic_keep J clock s0 s1 ev1 r1 E1).
    rewrite (anthropic_next_decoded J clock ev1 _ resp1 D1 J1), T1. reflexivity. }
  assert (anthropic.Recv J clock s1
          = Some (inl (sample.delta_chunk (anthropic.Index resp2) "a" (clock r2)), s2))
    as R1.
  { apply (anthropic_return J clock s1 s2 ev2 r2 _ E2).
    rewrite (anthropic_next_decoded J clock ev2 _ resp2 D2 J2), T2, X2.
    reflexivity. }
  assert (anthropic.Recv J clock s2
          = Some (inl (sample.delta_chunk (anthropic.Index resp3) "b" (clock r3)), s3))
    as R2.
  { apply (anthropic_return J clock s2 s3 ev3 r3 _ E3).
    rewrite (anthropic_next_decoded J clock ev3 _ resp3 D3 J3), T3, X3.
    reflexivity. }
  assert (anthropic.Recv J clock s3 = Some (inr io_EOF, s4)) as R3.
  { apply (anthropic_return J clock s3 s4 ev4 r4 _ E4).
    rewrite (anthropic_next_decoded J clock ev4 _ resp4 D4 J4), T4.
    reflexivity. }
  cbn [api.Recv_times]. rewrite R0, R1, R2, R3.
  unfold s4. rewrite <- !app_assoc. reflexivity.
Qed.

(** The sample decoder reads the first of the events written with
    [wire.events]. *)
Lemma sample_anthropic_reads (payload : string) (rest : list string)
      (resp : anthropic.AnthropicStreamResponse) :
  nonempty payload = true ->
  wire.has_newline payload = false ->
  utils.ParseSSEData payload = payload ->
  sample.anthropic_json (bytes_of payload) = inl resp ->
  anthropic_reads sample.anthropic_json
    (wire.source (wire.events (payload :: rest))) resp (bytes_of payload)
    (wire.source (wire.events rest)).
Proof.
  intros Hne Hnl Hp HJ. exists (wire.data_only payload).
  split; [|split; [exact Hne | split; [cbn [wire.data_only utils.Data]; now rewrite Hp | exact HJ]]].
  unfold utils.ReadEvent, utils.ReadEvent_fuel, wire.source, utils.NewSSEReader.
  change (wire.events (payload :: rest))
    with (String.append (wire.data_event payload) (wire.events rest)).
  rewrite bytes_of_append.
  cbn [utils.set_event utils.reader utils.delimiter utils.buffer bufio.unread].
  assert (exists n, length (bytes_of (wire.data_event payload)
                            ++ bytes_of (wire.events rest)) = S n) as [n ->].
  { unfold wire.data_event. rewrite bytes_of_append. simpl. eauto. }
  apply ReadEvent_data_event.
  - now apply nonempty_neq.
  - now apply has_newline_false.
Qed.

(** C3 on the wire text of the four events. *)
Lemma C3_start_two_deltas_stop_witness :
  api.Recv_times (anthropic.Recv sample.anthropic_json sample.clock) 3
    (sample.anthropic_stream
       [sample.message_start; fst (sample.anthropic_text "a");
        fst (sample.anthropic_text "b"); sample.message_stop])
  = Some ([inl (sample.delta_chunk 0 "a" 0); inl (sample.delta_chunk 0 "b" 0);
           inr io_EOF],
          anthropic.mkStream wire.drained sample.lenient_body
            [bytes_of sample.message_start;
             bytes_of (fst (sample.anthropic_text "a"));
             bytes_of (fst (sample.anthropic_text "b"));
             bytes_of sample.message_stop]).
Proof.
  apply (C3_start_two_deltas_stop sample.anthropic_json sample.clock
           (sample.anthropic_stream
              [sample.message_start; fst (sample.anthropic_text "a");
               fst (sample.anthropic_text "b"); sample.message_stop])
           (wire.source (wire.events [fst (sample.anthropic_text "a");
                                        fst (sample.anthropic_text "b");
                                        sample.message_stop]))
           (wire.source (wire.events [fst (sample.anthropic_text "b");
                                        sample.message_stop]))
           (wire.source (wire.events [sample.message_stop]))
           (wire.source (wire.events []))
           _ _ _ _
           (sample.anthropic_event "message_start")
           (snd (sample.anthropic_text "a"))
           (snd (sample.anthropic_text "b"))
           (sample.anthropic_event "message_stop"));
    try reflexivity;
    apply sample_anthropic_reads; vm_compute; reflexivity.
Defined.

(** C10. Every chunk returned by the Anthropic stream has an empty [ID], an
    empty [Model], the [Object] [chat.completion.chunk] and exactly one
    choice, whose delta has the assistant role. *)
Theorem C10_anthropic_chunk_shape J clock s c s' :
  anthropic.Recv J clock s = Some (inl c, s') ->
  api.ID c = EmptyString
  /\ api.Model c = EmptyString
  /\ api.Object c = "chat.completion.chunk"%string
  /\ exists choice,
      api.Choices c = [choice]
      /\ api.Role_ (api.Delta choice) = api.RoleAssistant.
Proof.
  intro H. rewrite anthropic_Recv_is_drive in H.
  apply drive_origin in H as [[e He] | (ev & s0 & N)]; [discriminate|].
  unfold interp.anthropic_next in N.
  repeat match type of N with
         | context [if ?c then _ else _] => destruct c
         | context [match J ?x with _ => _ end] => destruct (J x)
         | context [match anthropic.Delta ?x with _ => _ end] =>
             destruct (anthropic.Delta x)
         end; inversion N; subst; simpl; eauto 10.
Qed.

(** C10 on the chunk returned for a text delta after [message_start]. *)
Lemma C10_anthropic_chunk_shape_witness :
  let c := sample.delta_chunk 0 "a" 0 in
  api.ID c = EmptyString
  /\ api.Model c = EmptyString
  /\ api.Object c = "chat.completion.chunk"%string
  /\ exists choice,
      api.Choices c = [choice]
      /\ api.Role_ (api.Delta choice) = api.RoleAssistant.
Proof.
  apply (C10_anthropic_chunk_shape sample.anthropic_json sample.clock
           (sample.anthropic_stream
              [sample.message_start; fst (sample.anthropic_text "a")])
           (sample.delta_chunk 0 "a" 0)
           (anthropic.mkStream wire.drained sample.lenient_body
              [bytes_of sample.message_start;
               bytes_of (fst (sample.anthropic_text "a"))])).
  vm_compute. reflexivity.
Defined.

(** ** The Gemini stream *)

Lemma gemini_keep J clock s s' ev r :
  utils.ReadEvent (gemini.reader s) = Some (inl ev, r) ->
  interp.gemini_next J clock ev (gemini.set_reader s r)
  = (interp.KeepReading, s') ->
  gemini.Recv J clock s = gemini.Recv J clock s'.
Proof.
  intros E N. rewrite !gemini_Recv_is_drive.
  eapply drive_keep; eauto using gemini_next_rd.
Qed.

Lemma gemini_return J clock s s' ev r res :
  utils.ReadEvent (gemini.reader s) = Some (inl ev, r) ->
  interp.gemini_next J clock ev (gemini.set_reader s r)
  = (interp.Return res, s') ->
  gemini.Recv J clock s = Some (res, s').
Proof.
  intros E N. rewrite gemini_Recv_is_drive.
  eapply drive_return; eauto.
Qed.

Lemma append_empty_r (s : string) : String.append s EmptyString = s.
Proof. induction s as [|c s IH]; simpl; [reflexivity | now rewrite IH]. Qed.

Lemma append_assoc (a b c : string) :
  String.append (String.append a b) c = String.append a (String.append b c).
Proof. induction a as [|x a IH]; simpl; [reflexivity | now rewrite IH]. Qed.

Lemma concat_empty_cons (x : string) (xs : list string) :
  String.concat EmptyString (x :: xs)
  = String.append x (String.concat EmptyString xs).
Proof. destruct xs; simpl; [now rewrite append_empty_r | reflexivity]. Qed.

Lemma partsText_concat (parts : list gemini.Part) :
  gemini.partsText parts = String.concat EmptyString (map gemini.Text parts).
Proof.
  unfold gemini.partsText.
  enough (forall acc,
             fold_left (fun content part => String.append content (gemini.Text part))
               parts acc
             = String.append acc (String.concat EmptyString (map gemini.Text parts)))
    as H by apply (H EmptyString).
  induction parts as [|p parts IH]; intro acc.
  - simpl. now rewrite append_empty_r.
  - cbn [fold_left map]. rewrite IH, concat_empty_cons. apply append_assoc.
Qed.

Lemma candidateChoices_flat_map (candidates : list gemini.Candidate) :
  gemini.candidateChoices candidates = flat_map candidate_choice candidates.
Proof.
  unfold gemini.candidateChoices.
  enough (forall acc,
             fold_left gemini.addCandidate candidates acc
             = acc ++ flat_map candidate_choice candidates)
    as H by apply (H []).
  induction candidates as [|c cs IH]; intro acc.
  - simpl. now rewrite app_nil_r.
  - cbn [fold_left flat_map]. rewrite IH, app_assoc. f_equal.
    unfold gemini.addCandidate, candidate_choice.
    rewrite partsText_concat.
    destruct (nonempty (gemini.FinishReason c)); [reflexivity|].
    cbv zeta. destruct (nonempty _); [reflexivity | now rewrite app_nil_r].
Qed.

(** C7. When the next raw event of a Gemini stream decodes to a response,
    the choices built from its candidates are those of [candidate_choice]:
    a candidate with a non-empty finish reason gives a choice with empty
    text and that reason, another candidate gives its parts' texts
    concatenated into one delta text.  When there are no such choices, and
    in particular when the candidates array is empty, no chunk is made of
    the event and [Recv] returns whatever it returns on the stream after the
    event; otherwise it returns one chunk with those choices. *)
Theorem C7_gemini_candidates J clock s ev r resp :
  utils.ReadEvent (gemini.reader s) = Some (inl ev, r) ->
  nonempty (utils.Data ev) = true ->
  J (bytes_of (utils.ParseSSEData (utils.Data ev))) = inl resp ->
  let s' := gemini.note_unmarshal (gemini.set_reader s r)
              (bytes_of (utils.ParseSSEData (utils.Data ev))) in
  let choices := flat_map candidate_choice (gemini.Candidates resp) in
  let id := wrap_int (gemini.chunkID s + 1) in
  gemini.candidateChoices (gemini.Candidates resp) = choices
  /\ (gemini.Candidates resp = [] -> gemini.Recv J clock s = gemini.Recv J clock s')
  /\ match choices with
     | [] => gemini.Recv J clock s = gemini.Recv J clock s'
     | _ :: _ =>
         gemini.Recv J clock s
         = Some (inl (api.mkResponseChunk
                        (String.append "chunk-" (fmt_d id))
                        "chat.completion.chunk" (clock r) (gemini.model s)
                        choices),
                 gemini.set_chunkID s' id)
     end.
Proof.
  intros E Hd HJ s' choices id.
  assert (gemini.candidateChoices (gemini.Candidates resp) = choices) as Hc
      by apply candidateChoices_flat_map.
  assert (match choices with
          | [] => gemini.Recv J clock s = gemini.Recv J clock s'
          | _ :: _ =>
              gemini.Recv J clock s
              = Some (inl (api.mkResponseChunk
                             (String.append "chunk-" (fmt_d id))
                             "chat.completion.chunk" (clock r) (gemini.model s)
                             choices),
                      gemini.set_chunkID s' id)
          end) as Hm.
  { destruct choices as [|c cs] eqn:Hch.
    - apply (gemini_keep J clock s s' ev r E).
      unfold interp.gemini_next. rewrite Hd, HJ. simpl. now rewrite Hc.
    - apply (gemini_return J clock s _ ev r _ E).
      unfold interp.gemini_next. rewrite Hd, HJ. simpl. now rewrite Hc. }
  split; [exact Hc|]. split; [|exact Hm].
  intro Hnil. unfold choices in Hm. rewrite Hnil in Hm. exact Hm.
Qed.

(** C7 on an event without candidates followed by one candidate with two
    parts: the first is passed over, the second gives the chunk [Hello]. *)
Lemma C7_gemini_candidates_witness :
  let J := sample.gemini_json in
  let s := sample.gemini_stream [sample.no_candidates; sample.two_parts] in
  let rest := wire.source (wire.events [sample.two_parts]) in
  let s' := gemini.mkStream rest sample.lenient_body "gemini-pro" 0
              [bytes_of sample.no_candidates] in
  let hello := api.mkResponseChunk "chunk-1" "chat.completion.chunk" 0 "gemini-pro"
                 [api.mkChunkChoice 0 (api.mkMessage api.RoleAssistant "Hello")
                    EmptyString] in
  gemini.Recv J sample.clock s = gemini.Recv J sample.clock s'
  /\ gemini.Recv J sample.clock s'
     = Some (inl hello,
             gemini.mkStream wire.drained sample.lenient_body "gemini-pro" 1
               [bytes_of sample.no_candidates; bytes_of sample.two_parts]).
Proof.
  intros J s rest s' hello. split.
  - apply (C7_gemini_candidates J sample.clock s
             (wire.data_only sample.no_candidates) rest
             (gemini.mkGeminiStreamResponse [] (gemini.mkUsageMetadata 0 0 0)));
      vm_compute; reflexivity.
  - apply (C7_gemini_candidates J sample.clock s'
             (wire.data_only sample.two_parts) wire.drained
             (gemini.mkGeminiStreamResponse
                [sample.gemini_candidate ["Hel"; "lo"]%string EmptyString]
                (gemini.mkUsageMetadata 0 0 0)));
      vm_compute; reflexivity.
Defined.

(** ** The stream processor *)

Section ProcessFacts.
Context {S U : Type} {RS : api.ResponseStream S}.
Variable options : api.StreamOptions U.


Lemma chunkCallback_calls (chunk : api.ResponseChunk) (st st' : api.run S U) ret :
  api.chunkCallback options chunk st = (ret, st') ->
  api.stream st' = api.stream st
  /\ exists made,
      api.calls st' = api.calls st ++ made
      /\ match ret with
         | None => forallb ongoing made = true
         | Some e => exists c, made = [c] /\ terminal c = Some (Some e)
         end.
Proof.
  unfold api.chunkCallback. destruct (api.OnChunk options) as [f|].
  - destruct (f chunk (api.user st)) as [r u]. intro H; inversion H; subst.
    simpl. split; [reflexivity|]. eexists; split; [reflexivity|].
    destruct ret; simpl; eauto.
  - intro H; inversion H; subst. split; [reflexivity|].
    exists []. now rewrite app_nil_r.
Qed.

Lemma textCallback_calls (chunk : api.ResponseChunk) (st st' : api.run S U) ret :
  api.textCallback options chunk st = (ret, st') ->
  api.stream st' = api.stream st
  /\ exists made,
      api.calls st' = api.calls st ++ made
      /\ match ret with
         | None => forallb ongoing made = true
         | Some e => exists c, made = [c] /\ terminal c = Some (Some e)
         end.
Proof.
  unfold api.textCallback.
  assert (forall st0 : api.run S U,
             api.stream st0 = api.stream st0
             /\ exists made, api.calls st0 = api.calls st0 ++ made
                             /\ forallb ongoing made = true) as Hnone.
  { intro st0. split; [reflexivity|]. exists []. now rewrite app_nil_r. }
  destruct (api.OnText options) as [f|];
    [|intro H; inversion H; subst; apply Hnone].
  destruct (api.Choices chunk) as [|choice0 rest];
    [intro H; inversion H; subst; apply Hnone|].
  destruct (nonempty (api.Content (api.Delta choice0)));
    [|intro H; inversion H; subst; apply Hnone].
  destruct (f _ (api.user st)) as [r u]. intro H; inversion H; subst.
  simpl. split; [reflexivity|]. eexists; split; [reflexivity|].
  destruct ret; simpl; eauto.
Qed.


(** A stream that ends within [fuel] reads lets the loop return. *)
Lemma Process_loop_returns (fuel : nat) :
  forall st,
    ends_within api.Recv fuel (api.stream st) ->
    exists ret st', api.Process_loop fuel options st = Some (ret, st').
Proof.
  induction fuel as [|fuel IH]; intros st H; [contradiction|].
  cbn [ends_within] in H. cbn [api.Process_loop].
  destruct (api.Recv (api.stream st)) as [[res s1]|]; [|contradiction].
  destruct res as [chunk|err].
  - destruct (api.chunkCallback options chunk _) as [r1 st1] eqn:C1.
    pose proof (chunkCallback_calls _ _ _ _ C1) as (Hs1 & _).
    destruct r1; [eauto|].
    destruct (api.textCallback options chunk st1) as [r2 st2] eqn:C2.
    pose proof (textCallback_calls _ _ _ _ C2) as (Hs2 & _).
    destruct r2; [eauto|].
    apply IH. rewrite Hs2, Hs1. exact H.
  - destruct (is_EOF err); eauto.
Qed.


End ProcessFacts.




(** ** C8: a payload that is not JSON *)



Lemma eqb_neq_false (a b : string) : a <> b -> String.eqb a b = false.
Proof. intro H. now apply String.eqb_neq. Qed.



(** ** [Process] returns on the four streams *)

Lemma ends_within_ext {S : Type}
      (f g : S -> option ((api.ResponseChunk + error) * S)) :
  (forall s, f s = g s) ->
  forall n s, ends_within g n s -> ends_within f n s.
Proof.
  intros Hfg n. induction n as [|n IH]; intros s H; [exact H|].
  cbn [ends_within] in *. rewrite Hfg.
  destruct (g s) as [[[c|e] s1]|]; auto.
Qed.

Section DriveEnds.
Context {St : Type}.
Variable rd : St -> utils.SSEReader.
Variable put : St -> utils.SSEReader -> St.
Variable next : utils.SSEEvent -> St -> interp.outcome * St.

Hypothesis rd_put : forall s r, rd (put s r) = r.
Hypothesis next_rd : forall ev s, rd (snd (next ev s)) = rd s.

(** Every chunk brings the reader closer to its end, so the stream ends
    within as many reads as there is input pending, and one more. *)
Lemma drive_ends_within (n : nat) :
  forall s,
    (interp.pending (rd s) < n)%nat ->
    ends_within (fun s => interp.drive rd put next (interp.budget rd s) s) n s.
Proof.
  induction n as [|n IH]; intros s Hn; [lia|].
  cbn [ends_within].
  destruct (drive_returns rd put next rd_put next_rd s) as [[res s'] E].
  rewrite E. destruct res as [c|e]; [|exact I].
  apply (drive_post rd put next rd_put next_rd) in E as (_ & _ & Hp).
  apply IH. lia.
Qed.

End DriveEnds.

Lemma openai_ends_within J s :
  ends_within (openai.Recv J) (openai.Recv_budget s) s.
Proof.
  apply (ends_within_ext _ _ (openai_Recv_is_drive J)).
  apply drive_ends_within; [reflexivity | apply openai_next_rd |].
  apply budget_enough.
Qed.

Lemma deepseek_ends_within J s :
  ends_within (deepseek.Recv J) (deepseek.Recv_budget s) s.
Proof.
  apply (ends_within_ext _ _ (deepseek_Recv_is_drive J)).
  apply drive_ends_within; [reflexivity | apply deepseek_next_rd |].
  apply budget_enough.
Qed.

Lemma gemini_ends_within J clock s :
  ends_within (gemini.Recv J clock) (gemini.Recv_budget s) s.
Proof.
  apply (ends_within_ext _ _ (gemini_Recv_is_drive J clock)).
  apply drive_ends_within; [reflexivity | apply gemini_next_rd |].
  apply budget_enough.
Qed.

Lemma anthropic_ends_within J clock s :
  ends_within (anthropic.Recv J clock) (anthropic.Recv_budget s) s.
Proof.
  apply (ends_within_ext _ _ (anthropic_Recv_is_drive J clock)).
  apply drive_ends_within; [reflexivity | apply anthropic_next_rd |].
  apply budget_enough.
Qed.

(** On the four streams [Process] returns, whatever the input and the
    callbacks. *)
Lemma Process_returns_on_streams {U : Type} (options : api.StreamOptions U) (u : U) :
  (forall J s, exists ret st,
        @api.Process _ _ (openai.stream J) (openai.Recv_budget s) s (Some options) u
        = Some (ret, st))
  /\ (forall J s, exists ret st,
           @api.Process _ _ (deepseek.stream J) (deepseek.Recv_budget s) s
             (Some options) u
           = Some (ret, st))
  /\ (forall J clock s, exists ret st,
           @api.Process _ _ (gemini.stream J clock) (gemini.Recv_budget s) s
             (Some options) u
           = Some (ret, st))
  /\ (forall J clock s, exists ret st,
           @api.Process _ _ (anthropic.stream J clock) (anthropic.Recv_budget s) s
             (Some options) u
           = Some (ret, st)).
Proof.
  split; [|split; [|split]]; intros; unfold api.Process.
  - destruct (@Process_loop_returns _ _ (openai.stream J) options
                (openai.Recv_budget s) (api.mkRun s u []) (openai_ends_within J s))
      as (ret & st & ->). eauto.
  - destruct (@Process_loop_returns _ _ (deepseek.stream J) options
                (deepseek.Recv_budget s) (api.mkRun s u []) (deepseek_ends_within J s))
      as (ret & st & ->). eauto.
  - destruct (@Process_loop_returns _ _ (gemini.stream J clock) options
                (gemini.Recv_budget s) (api.mkRun s u [])
                (gemini_ends_within J clock s))
      as (ret & st & ->). eauto.
  - destruct (@Process_loop_returns _ _ (anthropic.stream J clock) options
                (anthropic.Recv_budget s) (api.mkRun s u [])
                (anthropic_ends_within J clock s))
      as (ret & st & ->). eauto.
Qed.

(** ** C9: closing twice *)

(** C9 (as amended). [Close] on a stream returns what [Close] on its byte
    source returns, and a second [Close] returns what a second [Close] on
    the byte source returns: it reports no error exactly when the byte
    source's own [Close] reports none the second time.  The streams keep no
    record of having been closed. *)
Theorem C9_Close_forwards :
  (forall s, fst (openai.Close s) = fst (io.Close (openai.rawReader s))
             /\ second_Close openai.Close s
                = second_Close io.Close (openai.rawReader s))
  /\ (forall s, fst (deepseek.Close s) = fst (io.Close (deepseek.rawReader s))
                /\ second_Close deepseek.Close s
                   = second_Close io.Close (deepseek.rawReader s))
  /\ (forall s, fst (gemini.Close s) = fst (io.Close (gemini.rawReader s))
                /\ second_Close gemini.Close s
                   = second_Close io.Close (gemini.rawReader s))
  /\ (forall s, fst (anthropic.Close s) = fst (io.Close (anthropic.rawReader s))
                /\ second_Close anthropic.Close s
                   = second_Close io.Close (anthropic.rawReader s))
  /\ (forall s, fst (deepseek_placeholder.Close s)
                = fst (io.Close (deepseek_placeholder.reader s))
                /\ second_Close deepseek_placeholder.Close s
                   = second_Close io.Close (deepseek_placeholder.reader s)).
Proof.
  split; [|split; [|split; [|split]]]; intro s; destruct s; split; reflexivity.
Qed.

(** C9 (as stated) fails: on an OpenAI stream whose byte source reports an
    error when closed again, the first [Close] succeeds and the second
    returns that error. *)
Lemma C9_second_Close_error :
  let s := openai.mkStream wire.drained sample.strict_body [] in
  fst (openai.Close s) = None
  /\ second_Close openai.Close s = Some (foreign_error "file already closed").
Proof. split; reflexivity. Qed.

(** ** Runs on explicit inputs *)

(** The reader skips comment lines and unknown fields, and surfaces an
    event that has a name and no data. *)
Example reader_fields :
  utils.ReadEvent
    (wire.source
       (String.append ": keep-alive"
          (String newline
             (String.append "event: ping"
                (String newline
                   (String.append "id:7"
                      (String newline
                         (String.append "retry: 5"
                            (String newline
                               (String.append "unknown: x"
                                  (String newline (String newline EmptyString))))))))))))
  = Some (inl (utils.mkSSEEvent "ping" EmptyString "7" 3000), wire.drained).
Proof. vm_compute. reflexivity. Qed.

(** At most one space is taken off the value of a field. *)
Example reader_leading_space :
  utils.ReadEvent (wire.source (String.append "data:x" (String newline (String newline EmptyString))))
  = Some (inl (wire.data_only "x"), wire.drained)
  /\ utils.ReadEvent (wire.source (wire.data_event " x"))
     = Some (inl (wire.data_only " x"), wire.drained).
Proof. split; vm_compute; reflexivity. Qed.

(** An event without its final blank line is still delivered at the end of
    the input; a last line without its line break is not. *)
Example reader_end_of_input :
  utils.ReadEvent (wire.source (String.append "data: foo" (String newline EmptyString)))
  = Some (inl (wire.data_only "foo"), wire.drained)
  /\ utils.ReadEvent (wire.source "data: foo") = Some (inr io_EOF, wire.drained).
Proof. split; vm_compute; reflexivity. Qed.

(** The simple-delta scenario of the design: [Hel], [lo], [[DONE]] collect
    to [Hello] without error. *)
Example collect_hello :
  @api.CollectFullContent _ (openai.stream sample.openai_json) 3
    (sample.openai_stream
       [fst (sample.openai_text "Hel"); fst (sample.openai_text "lo");
        "[DONE]"%string])
  = Some ("Hello"%string, None).
Proof. vm_compute. reflexivity. Qed.

(** A Gemini candidate with a finish reason gives a choice with that reason
    and no text, whatever its parts hold; an event whose only candidate has
    no text is passed over. *)
Example gemini_finish_and_empty :
  gemini.Recv sample.gemini_json sample.clock
    (sample.gemini_stream [sample.empty_part; sample.finished])
  = Some (inl (api.mkResponseChunk "chunk-1" "chat.completion.chunk" 0 "gemini-pro"
                 [api.mkChunkChoice 0 (api.mkMessage api.RoleAssistant EmptyString)
                    "STOP"]),
          gemini.mkStream wire.drained sample.lenient_body "gemini-pro" 1
            [bytes_of sample.empty_part; bytes_of sample.finished]).
Proof. vm_compute. reflexivity. Qed.

(** An Anthropic [message_delta] without stop reason is passed over, and
    input after [message_stop] is still read by a later [Recv]. *)
Example anthropic_reads_on :
  api.Recv_times (anthropic.Recv sample.anthropic_json sample.clock) 3
    (sample.anthropic_stream
       [sample.message_delta; fst (sample.anthropic_text "a");
        sample.message_stop; fst (sample.anthropic_text "late")])
  = Some ([inl (sample.delta_chunk 0 "a" 0); inr io_EOF;
           inl (sample.delta_chunk 0 "late" 0)],
          anthropic.mkStream wire.drained sample.lenient_body
            [bytes_of sample.message_delta;
             bytes_of (fst (sample.anthropic_text "a"));
             bytes_of sample.message_stop;
             bytes_of (fst (sample.anthropic_text "late"))]).
Proof. vm_compute. reflexivity. Qed.

(** * Further properties of the code *)

(** ** The SSE reader *)

(** X1. An event [ReadEvent] returns has data or a name: an event with
    neither is never returned to the caller.  The reader's buffer is empty
    after an event is returned. *)
Theorem X1_ReadEvent_no_empty_event (r r' : utils.SSEReader) (ev : utils.SSEEvent) :
  utils.ReadEvent r = Some (inl ev, r') ->
  (utils.Data ev <> EmptyString \/ utils.Event ev <> EmptyString)
  /\ utils.buffer r' = [].
Proof.
  intro H. apply ReadEvent_post_holds in H as (_ & _ & _ & Hs & Hb & _).
  split; [|exact Hb].
  unfold utils.surfaced in Hs. apply orb_true_iff in Hs as [Hs|Hs];
    [left | right]; now apply nonempty_neq.
Qed.

(** X1 on a stream that holds one [data:] event. *)
Lemma X1_ReadEvent_no_empty_event_witness :
  (utils.Data (wire.data_only "x") <> EmptyString
   \/ utils.Event (wire.data_only "x") <> EmptyString)
  /\ utils.buffer wire.drained = [].
Proof.
  apply (X1_ReadEvent_no_empty_event (wire.source (wire.data_event "x"))).
  vm_compute. reflexivity.
Defined.

(** X2. [ReadEvent] makes no error of its own: an error it returns is the
    condition its byte source ended with, and it is returned only when no
    unread input is left. *)
Theorem X2_ReadEvent_error_is_the_sources (r r' : utils.SSEReader) (e : error) :
  utils.ReadEvent r = Some (inr e, r') ->
  e = bufio.final (utils.reader r)
  /\ bufio.unread (utils.reader r') = [].
Proof.
  intro H. apply ReadEvent_post_holds in H as (_ & _ & _ & He & Hu & _).
  split; assumption.
Qed.

(** X2 on a source that breaks after an unfinished event. *)
Lemma X2_ReadEvent_error_is_the_sources_witness :
  let broken := foreign_error "connection reset" in
  let r := utils.NewSSEReader
             (bufio.mkReader (bytes_of (String.append "data: x" (String newline EmptyString)))
                broken) in
  exists r',
    utils.ReadEvent r = Some (inr broken, r')
    /\ broken = bufio.final (utils.reader r)
    /\ bufio.unread (utils.reader r') = [].
Proof.
  intros broken r. eexists. split; [vm_compute; reflexivity|].
  eapply X2_ReadEvent_error_is_the_sources. vm_compute. reflexivity.
Defined.

Lemma fits_data_line_true (payload : string) :
  fits_data_line payload = true ->
  payload <> EmptyString /\ ~ In newline (bytes_of payload).
Proof.
  unfold fits_data_line. intro H. apply andb_true_iff in H as [Hn Hl].
  split; [now apply nonempty_neq|].
  apply has_newline_false. now apply negb_true_iff.
Qed.

(** The first of the events written with [wire.events]. *)
Lemma ReadEvent_first_event (payload : string) (rest : list string) :
  fits_data_line payload = true ->
  utils.ReadEvent (wire.source (wire.events (payload :: rest)))
  = Some (inl (wire.data_only payload), wire.source (wire.events rest)).
Proof.
  intro Hfit. apply fits_data_line_true in Hfit as [Hne Hnl].
  unfold utils.ReadEvent, utils.ReadEvent_fuel, wire.source, utils.NewSSEReader.
  change (wire.events (payload :: rest))
    with (String.append (wire.data_event payload) (wire.events rest)).
  rewrite bytes_of_append.
  cbn [utils.set_event utils.reader utils.delimiter utils.buffer bufio.unread].
  assert (exists n, length (bytes_of (wire.data_event payload)
                            ++ bytes_of (wire.events rest)) = S n) as [n ->].
  { unfold wire.data_event. rewrite bytes_of_append. simpl. eauto. }
  now apply ReadEvent_data_event.
Qed.

(** X3. Events are delivered one by one, in the order they are on the
    wire: from a stream that holds one [data:] event per payload, each
    payload not empty and without line break, as many reads as there are
    payloads return the payloads in order, and the next read returns
    [io.EOF]. *)
Theorem X3_events_in_wire_order (payloads : list string) :
  forallb fits_data_line payloads = true ->
  ReadEvent_times (S (length payloads)) (wire.source (wire.events payloads))
  = Some (map (fun p => inl (wire.data_only p)) payloads ++ [inr io_EOF],
          wire.drained).
Proof.
  induction payloads as [|p ps IH]; intro H; [reflexivity|].
  cbn [forallb] in H. apply andb_true_iff in H as [Hp Hps].
  cbn [length ReadEvent_times]. rewrite (ReadEvent_first_event p ps Hp).
  cbn [ReadEvent_times] in IH. cbn [length]. rewrite (IH Hps). reflexivity.
Qed.

(** X3 on two payloads. *)
Lemma X3_events_in_wire_order_witness :
  ReadEvent_times 3 (wire.source (wire.events ["{}"; "[DONE]"]%string))
  = Some ([inl (wire.data_only "{}"); inl (wire.data_only "[DONE]"); inr io_EOF],
          wire.drained).
Proof. apply (X3_events_in_wire_order ["{}"; "[DONE]"]%string). reflexivity. Defined.

Lemma through_delim_none (s : bytes) (d : ascii) :
  ~ In d s -> bufio.through_delim s d = None.
Proof.
  induction s as [|c s IH]; simpl; intro H; [reflexivity|].
  destruct (Ascii.eqb c d) eqn:E.
  - apply Ascii.eqb_eq in E. tauto.
  - rewrite IH by tauto. reflexivity.
Qed.

(** X4. A line is read only when its line break has arrived: from a fresh
    reader over a text without any line break, [ReadEvent] returns no event
    but the condition the source ended with, also when the text is a
    complete [data:] field, and the text is gone. *)
Theorem X4_unterminated_line_is_dropped (text : string) (final : error) :
  wire.has_newline text = false ->
  utils.ReadEvent (utils.NewSSEReader (bufio.mkReader (bytes_of text) final))
  = Some (inr final, utils.NewSSEReader (bufio.mkReader [] final)).
Proof.
  intro H. apply has_newline_false in H.
  unfold utils.ReadEvent, utils.ReadEvent_fuel. rewrite ReadEvent_loop_unfold.
  unfold bufio.ReadBytes, utils.NewSSEReader. simpl.
  rewrite (through_delim_none _ _ H). simpl.
  destruct (is_EOF final); reflexivity.
Qed.

(** X4 on [data: hello] without line break. *)
Lemma X4_unterminated_line_is_dropped_witness :
  utils.ReadEvent (utils.NewSSEReader (bufio.mkReader (bytes_of "data: hello") io_EOF))
  = Some (inr io_EOF, utils.NewSSEReader (bufio.mkReader [] io_EOF)).
Proof. apply (X4_unterminated_line_is_dropped "data: hello" io_EOF). reflexivity. Defined.

(** *** Several [data:] lines in one event *)



















(** *** [ParseSSEData] *)

Lemma substring_all (s : string) : substring 0 (String.length s) s = s.
Proof. induction s as [|c s IH]; simpl; [reflexivity | now rewrite IH]. Qed.

(** X6. [ParseSSEData] takes one leading [data: ] off its argument and no
    more: applied to [data: ] followed by any text it returns that text,
    also when the text starts with [data: ] again; an argument that does
    not start with [data: ] is returned as it is. *)
Theorem X6_ParseSSEData_strips_one_prefix (s : string) :
  utils.ParseSSEData (String.append "data: " s) = s
  /\ (strings_HasPrefix s "data: " = false -> utils.ParseSSEData s = s).
Proof.
  split.
  - unfold utils.ParseSSEData, strings_TrimPrefix, strings_HasPrefix. simpl.
    replace (prefix EmptyString s) with true by (now destruct s).
    rewrite Nat.sub_0_r. apply substring_all.
  - intro H. unfold utils.ParseSSEData. now rewrite H.
Qed.

(** X6 on the sentinel, which has no prefix to take off. *)
Lemma X6_ParseSSEData_strips_one_prefix_witness :
  utils.ParseSSEData (String.append "data: " "[DONE]") = "[DONE]"%string
  /\ utils.ParseSSEData "[DONE]" = "[DONE]"%string.
Proof.
  split.
  - apply (proj1 (X6_ParseSSEData_strips_one_prefix "[DONE]")).
  - apply (proj2 (X6_ParseSSEData_strips_one_prefix "[DONE]")). reflexivity.
Defined.

(** *** The event the input ends with *)

(** X27. The last event need not be closed by a blank line, but only at a
    clean end of input: when the input ends right after the line break of
    a [data:] line, [ReadEvent] returns that event if the source ended with
    [io.EOF]; if the source ended with any other error, it returns that
    error and the event is not delivered. *)
Theorem X27_event_at_end_of_input (payload : string) (final : error) :
  fits_data_line payload = true ->
  utils.ReadEvent
    (utils.NewSSEReader (bufio.mkReader (bytes_of (open_event payload)) final))
  = if is_EOF final
    then Some (inl (wire.data_only payload),
               utils.NewSSEReader (bufio.mkReader [] final))
    else Some (inr final,
               utils.mkSSEReader (bufio.mkReader [] final) [newline; newline]
                 utils.zeroSSEEvent (bytes_of (open_event payload))).
Proof.
  intro Hfit. apply fits_data_line_true in Hfit as [Hne Hnl].
  set (line := bytes_of "data: " ++ bytes_of payload).
  assert (~ In newline line) as Hline.
  { unfold line. intro H. apply in_app_or in H as [H|H]; [|tauto].
    simpl in H. repeat (destruct H as [H|H]; [discriminate H|]). exact H. }
  assert (bytes_of (open_event payload) = line ++ [newline]) as Htext.
  { unfold open_event, line. rewrite !bytes_of_append, <- app_assoc. reflexivity. }
  rewrite Htext.
  unfold utils.ReadEvent, utils.ReadEvent_fuel, utils.NewSSEReader.
  cbn [utils.set_event utils.reader utils.delimiter utils.buffer bufio.unread].
  set (r0 := utils.mkSSEReader _ _ _ _).
  assert (exists n, length (line ++ [newline]) = S n) as [n ->]
      by (exists (length line); rewrite length_app; cbn [length]; lia).
  change (utils.set_event r0 utils.zeroSSEEvent) with r0.
  rewrite (@ReadEvent_loop_line (S n) r0 (line ++ [newline]) []).
  - rewrite ReadEvent_loop_unfold. unfold with_line, r0, bufio.ReadBytes.
    cbn [utils.reader utils.set_reader utils.set_buffer utils.buffer utils.delimiter
         utils.event bufio.unread bufio.final bufio.through_delim app].
    destruct (is_EOF final) eqn:Eeof; [|reflexivity].
    assert ((0 <? length (line ++ [newline]))%nat
            && negb (bytes_Equal (line ++ [newline]) [newline]) = true) as ->.
    { apply andb_true_iff. split.
      - apply Nat.ltb_lt. rewrite length_app. simpl. lia.
      - apply negb_true_iff. destruct (bytes_Equal _ _) eqn:E; [|reflexivity].
        apply bytes_Equal_eq in E. unfold line in E. discriminate E. }
    rewrite (processBuffer_data_line _ payload Hnl).
    + unfold utils.surfaced. cbn [utils.Data]. rewrite (nonempty_true _ Hne).
      reflexivity.
    + cbn [utils.buffer]. fold line. now rewrite <- app_assoc.
  - unfold r0. cbn [utils.reader bufio.unread].
    apply (@through_delim_line line [] newline Hline).
  - apply eventComplete_content_line; try reflexivity; [|exact Hline].
    unfold line. simpl. discriminate.
Qed.

(** X27 on a connection that breaks after [data: hello] and its line
    break. *)
Lemma X27_event_at_end_of_input_witness :
  utils.ReadEvent
    (utils.NewSSEReader
       (bufio.mkReader (bytes_of (open_event "hello")) scenario.broken))
  = Some (inr scenario.broken,
          utils.mkSSEReader (bufio.mkReader [] scenario.broken) [newline; newline]
            utils.zeroSSEEvent (bytes_of (open_event "hello"))).
Proof. apply (X27_event_at_end_of_input "hello" scenario.broken). reflexivity. Defined.

(** ** The four streams *)

Lemma openai_keep J s s' ev r :
  utils.ReadEvent (openai.reader s) = Some (inl ev, r) ->
  interp.openai_next J ev (openai.set_reader s r) = (interp.KeepReading, s') ->
  openai.Recv J s = openai.Recv J s'.
Proof.
  intros E N. rewrite !openai_Recv_is_drive.
  eapply drive_keep; eauto using openai_next_rd.
Qed.

Lemma openai_return J s s' ev r res :
  utils.ReadEvent (openai.reader s) = Some (inl ev, r) ->
  interp.openai_next J ev (openai.set_reader s r) = (interp.Return res, s') ->
  openai.Recv J s = Some (res, s').
Proof.
  intros E N. rewrite openai_Recv_is_drive. eapply drive_return; eauto.
Qed.

Lemma deepseek_keep J s s' ev r :
  utils.ReadEvent (deepseek.reader s) = Some (inl ev, r) ->
  interp.deepseek_next J ev (deepseek.set_reader s r) = (interp.KeepReading, s') ->
  deepseek.Recv J s = deepseek.Recv J s'.
Proof.
  intros E N. rewrite !deepseek_Recv_is_drive.
  eapply drive_keep; eauto using deepseek_next_rd.
Qed.

Lemma deepseek_return J s s' ev r res :
  utils.ReadEvent (deepseek.reader s) = Some (inl ev, r) ->
  interp.deepseek_next J ev (deepseek.set_reader s r) = (interp.Return res, s') ->
  deepseek.Recv J s = Some (res, s').
Proof.
  intros E N. rewrite deepseek_Recv_is_drive. eapply drive_return; eauto.
Qed.


Lemma read_failure_kind (e : error) : EOF_or_Server (interp.read_failure e).
Proof.
  unfold interp.read_failure, EOF_or_Server.
  destruct (is_EOF e); [now left | now right].
Qed.

(** Case analysis on a per-event decision that returned. *)
Ltac returned_error N :=
  repeat match type of N with
         | context [if ?c then _ else _] => destruct c
         | context [match ?J ?x with inl _ => _ | inr _ => _ end] =>
             destruct (J x)
         | context [match gemini.candidateChoices ?x with _ => _ end] =>
             destruct (gemini.candidateChoices x)
         | context [match anthropic.Delta ?x with _ => _ end] =>
             destruct (anthropic.Delta x)
         end;
  inversion N; subst; unfold EOF_or_Server; auto.

(** X7. Whatever the input and the decoder, an error returned by [Recv]
    is either [io.EOF] or an SDK error of kind [Server]: a failure of the
    transport is reported with kind [Server] too, and no other kind is ever
    used by the OpenAI, DeepSeek, Gemini and Anthropic streams. *)
Theorem X7_Recv_errors_are_EOF_or_Server :
  (forall J s e s', openai.Recv J s = Some (inr e, s') -> EOF_or_Server e)
  /\ (forall J s e s', deepseek.Recv J s = Some (inr e, s') -> EOF_or_Server e)
  /\ (forall J clock s e s',
         gemini.Recv J clock s = Some (inr e, s') -> EOF_or_Server e)
  /\ (forall J clock s e s',
         anthropic.Recv J clock s = Some (inr e, s') -> EOF_or_Server e).
Proof.
  split; [|split; [|split]].
  - intros J s e s' H. rewrite openai_Recv_is_drive in H.
    apply drive_origin in H as [[e0 He] | (ev & s0 & N)].
    + inversion He. apply read_failure_kind.
    + unfold interp.openai_next in N. returned_error N.
  - intros J s e s' H. rewrite deepseek_Recv_is_drive in H.
    apply drive_origin in H as [[e0 He] | (ev & s0 & N)].
    + inversion He. apply read_failure_kind.
    + unfold interp.deepseek_next in N. returned_error N.
  - intros J clock s e s' H. rewrite gemini_Recv_is_drive in H.
    apply drive_origin in H as [[e0 He] | (ev & s0 & N)].
    + inversion He. apply read_failure_kind.
    + unfold interp.gemini_next in N. returned_error N.
  - intros J clock s e s' H. rewrite anthropic_Recv_is_drive in H.
    apply drive_origin in H as [[e0 He] | (ev & s0 & N)].
    + inversion He. apply read_failure_kind.
    + unfold interp.anthropic_next in N. returned_error N.
Qed.

(** X7 on an OpenAI stream whose connection breaks before any event. *)
Lemma X7_Recv_errors_are_EOF_or_Server_witness :
  let broken := foreign_error "connection reset" in
  let s := openai.mkStream
             (utils.NewSSEReader (bufio.mkReader (bytes_of "data: {") broken))
             sample.lenient_body [] in
  let e := NewError ErrorTypeServer "读取SSE事件失败" 0 (Some broken) in
  openai.Recv sample.openai_json s
  = Some (inr e,
          openai.mkStream (utils.NewSSEReader (bufio.mkReader [] broken))
            sample.lenient_body [])
  /\ EOF_or_Server e.
Proof.
  intros broken s e. split; [vm_compute; reflexivity|].
  eapply (proj1 X7_Recv_errors_are_EOF_or_Server sample.openai_json s).
  vm_compute. reflexivity.
Defined.

(** X8. An event without data is passed over without being decoded: when
    the next raw event has an empty [Data] (it has a name only), [Recv]
    returns what it returns on the stream after that event, and nothing is
    handed to the JSON decoder for it.  This holds of the four streams. *)
Theorem X8_events_without_data_are_skipped :
  (forall J s ev r,
      utils.ReadEvent (openai.reader s) = Some (inl ev, r) ->
      utils.Data ev = EmptyString ->
      openai.Recv J s = openai.Recv J (openai.set_reader s r)
      /\ openai.unmarshalled (openai.set_reader s r) = openai.unmarshalled s)
  /\ (forall J s ev r,
         utils.ReadEvent (deepseek.reader s) = Some (inl ev, r) ->
         utils.Data ev = EmptyString ->
         deepseek.Recv J s = deepseek.Recv J (deepseek.set_reader s r)
         /\ deepseek.unmarshalled (deepseek.set_reader s r) = deepseek.unmarshalled s)
  /\ (forall J clock s ev r,
         utils.ReadEvent (gemini.reader s) = Some (inl ev, r) ->
         utils.Data ev = EmptyString ->
         gemini.Recv J clock s = gemini.Recv J clock (gemini.set_reader s r)
         /\ gemini.unmarshalled (gemini.set_reader s r) = gemini.unmarshalled s)
  /\ (forall J clock s ev r,
         utils.ReadEvent (anthropic.reader s) = Some (inl ev, r) ->
         utils.Data ev = EmptyString ->
         anthropic.Recv J clock s = anthropic.Recv J clock (anthropic.set_reader s r)
         /\ anthropic.unmarshalled (anthropic.set_reader s r)
            = anthropic.unmarshalled s).
Proof.
  split; [|split; [|split]]; intros; (split; [|reflexivity]).
  - eapply openai_keep; eauto. unfold interp.openai_next. now rewrite H0.
  - eapply deepseek_keep; eauto. unfold interp.deepseek_next. now rewrite H0.
  - eapply gemini_keep; eauto. unfold interp.gemini_next. now rewrite H0.
  - eapply anthropic_keep; eauto. unfold interp.anthropic_next. now rewrite H0.
Qed.

(** X8 on a keep-alive event followed by a content delta. *)
Lemma X8_events_without_data_are_skipped_witness :
  let s := openai.mkStream
             (wire.source (scenario.ping_then (fst (sample.openai_text "Hel"))))
             sample.lenient_body [] in
  let s' := sample.openai_stream [fst (sample.openai_text "Hel")] in
  openai.Recv sample.openai_json s = openai.Recv sample.openai_json s'
  /\ openai.unmarshalled s' = openai.unmarshalled s.
Proof.
  intros s s'.
  apply (proj1 X8_events_without_data_are_skipped sample.openai_json s
           scenario.ping (openai.reader s')); vm_compute; reflexivity.
Defined.

(** *** One chunk per decodable event, in order *)





Lemma fits_nonempty (p : string) : fits_data_line p = true -> nonempty p = true.
Proof. unfold fits_data_line. intro H. now apply andb_true_iff in H as [H _]. Qed.

Lemma openai_chunks_in_order J rc (items : list (string * openai.OpenAIStreamResponse)) :
  Forall (decodes_to J) items ->
  forall log,
    api.Recv_times (openai.Recv J) (S (length items))
      (openai.mkStream (wire.source (wire.events (map fst items))) rc log)
    = Some (map (fun item => inl (openai_chunk (snd item))) items ++ [inr io_EOF],
            openai.mkStream wire.drained rc (log ++ map decoder_input items)).
Proof.
  induction 1 as [|[p resp] items (Hfit & Hdone & HJ) _ IH]; intro log.
  - simpl. now rewrite app_nil_r.
  - cbn [fst snd] in *. cbn [length map]. cbn [api.Recv_times].
    rewrite (openai_return J _
               (openai.mkStream (wire.source (wire.events (map fst items))) rc
                  (log ++ [bytes_of (utils.ParseSSEData p)]))
               (wire.data_only p) (wire.source (wire.events (map fst items)))
               (inl (openai_chunk resp))).
    + cbn [api.Recv_times] in IH. rewrite IH. cbn [app].
      rewrite <- app_assoc. reflexivity.
    + apply ReadEvent_first_event. exact Hfit.
    + unfold interp.openai_next. cbn [wire.data_only utils.Data].
      rewrite (eqb_neq_false _ _ Hdone), (fits_nonempty _ Hfit). simpl.
      unfold openai.note_unmarshal, openai.set_reader. cbn.
      now rewrite HJ.
Qed.

Lemma deepseek_chunks_in_order J rc
      (items : list (string * deepseek.DeepSeekStreamResponse)) :
  Forall (decodes_to J) items ->
  forall log,
    api.Recv_times (deepseek.Recv J) (S (length items))
      (deepseek.mkStream (wire.source (wire.events (map fst items))) rc log)
    = Some (map (fun item => inl (deepseek_chunk (snd item))) items ++ [inr io_EOF],
            deepseek.mkStream wire.drained rc (log ++ map decoder_input items)).
Proof.
  induction 1 as [|[p resp] items (Hfit & Hdone & HJ) _ IH]; intro log.
  - simpl. now rewrite app_nil_r.
  - cbn [fst snd] in *. cbn [length map]. cbn [api.Recv_times].
    rewrite (deepseek_return J _
               (deepseek.mkStream (wire.source (wire.events (map fst items))) rc
                  (log ++ [bytes_of (utils.ParseSSEData p)]))
               (wire.data_only p) (wire.source (wire.events (map fst items)))
               (inl (deepseek_chunk resp))).
    + cbn [api.Recv_times] in IH. rewrite IH. cbn [app].
      rewrite <- app_assoc. reflexivity.
    + apply ReadEvent_first_event. exact Hfit.
    + unfold interp.deepseek_next. cbn [wire.data_only utils.Data].
      rewrite (eqb_neq_false _ _ Hdone), (fits_nonempty _ Hfit). simpl.
      unfold deepseek.note_unmarshal, deepseek.set_reader. cbn.
      now rewrite HJ.
Qed.

(** X9. The simple-delta streams return one chunk per decodable event, in
    the order of the wire: over a stream of [data:] events whose payloads
    are decoded to responses, the reads return, in order, the chunk that
    mirrors each response (same id, object, created, model, and its choices
    one for one, also when it has none), then [io.EOF] at the end of the
    input; each payload is handed to the decoder once, in order. *)
Theorem X9_one_chunk_per_event_in_order :
  (forall J rc items log,
      Forall (decodes_to J) items ->
      api.Recv_times (openai.Recv J) (S (length items))
        (openai.mkStream (wire.source (wire.events (map fst items))) rc log)
      = Some (map (fun item => inl (openai_chunk (snd item))) items ++ [inr io_EOF],
              openai.mkStream wire.drained rc (log ++ map decoder_input items)))
  /\ (forall J rc items log,
         Forall (decodes_to J) items ->
         api.Recv_times (deepseek.Recv J) (S (length items))
           (deepseek.mkStream (wire.source (wire.events (map fst items))) rc log)
         = Some (map (fun item => inl (deepseek_chunk (snd item))) items
                     ++ [inr io_EOF],
                 deepseek.mkStream wire.drained rc (log ++ map decoder_input items))).
Proof.
  split; intros.
  - now apply openai_chunks_in_order.
  - now apply deepseek_chunks_in_order.
Qed.

(** X9 on the two content deltas [Hel] and [lo]. *)
Lemma X9_one_chunk_per_event_in_order_witness :
  api.Recv_times (openai.Recv sample.openai_json) 3
    (sample.openai_stream [fst (sample.openai_text "Hel"); fst (sample.openai_text "lo")])
  = Some ([inl (sample.text_chunk "Hel"); inl (sample.text_chunk "lo"); inr io_EOF],
          openai.mkStream wire.drained sample.lenient_body
            [bytes_of (fst (sample.openai_text "Hel"));
             bytes_of (fst (sample.openai_text "lo"))]).
Proof.
  apply (proj1 X9_one_chunk_per_event_in_order sample.openai_json sample.lenient_body
           [sample.openai_text "Hel"; sample.openai_text "lo"] []).
  repeat constructor; try discriminate; vm_compute; reflexivity.
Defined.

(** ** What a stream keeps across the events it passes over *)

Section DriveInvariant.
Context {St A : Type}.
Variable rd : St -> utils.SSEReader.
Variable put : St -> utils.SSEReader -> St.
Variable next : utils.SSEEvent -> St -> interp.outcome * St.
(** A part of the stream's state that neither the reader nor an event that
    is passed over changes. *)
Variable kept : St -> A.

Hypothesis put_kept : forall s r, kept (put s r) = kept s.
Hypothesis keep_kept :
  forall ev s s', next ev s = (interp.KeepReading, s') -> kept s' = kept s.

Lemma drive_kept (n : nat) :
  forall s res s',
    interp.drive rd put next n s = Some (res, s') ->
    (exists e, res = inr (interp.read_failure e) /\ kept s' = kept s)
    \/ (exists ev s0, kept s0 = kept s /\ next ev s0 = (interp.Return res, s')).
Proof.
  induction n as [|n IH]; intros s res s' H; [discriminate|].
  rewrite drive_unfold in H.
  destruct (utils.ReadEvent (rd s)) as [[[ev|e] r]|]; [| |discriminate].
  - destruct (next ev (put s r)) as [[|res0] s0] eqn:N.
    + apply IH in H. apply keep_kept in N. rewrite put_kept in N.
      destruct H as [(e & -> & Hk)|(ev' & s1 & Hk & Hn)].
      * left. exists e. split; [reflexivity | congruence].
      * right. exists ev', s1. split; [congruence | exact Hn].
    + inversion H; subst. right. exists ev, (put s r). auto.
  - left. exists e. unfold interp.read_failure.
    destruct (is_EOF e); inversion H; auto.
Qed.

End DriveInvariant.

(** *** Gemini: the numbering of chunks *)

Lemma wrap_int_small (n : Z) : - 2 ^ 63 <= n < 2 ^ 63 -> wrap_int n = n.
Proof. intro H. unfold wrap_int. rewrite Z.mod_small; lia. Qed.

(** One read: the model is kept, a chunk takes the next number and an error
    takes none. *)
Lemma gemini_Recv_numbering J clock s res s' :
  gemini.Recv J clock s = Some (res, s') ->
  gemini.model s' = gemini.model s
  /\ match res with
     | inl chunk =>
         gemini.chunkID s' = wrap_int (gemini.chunkID s + 1)
         /\ api.ID chunk = chunk_name (gemini.chunkID s')
         /\ api.Object chunk = "chat.completion.chunk"%string
         /\ api.Model chunk = gemini.model s
         /\ api.Choices chunk <> []
     | inr _ => gemini.chunkID s' = gemini.chunkID s
     end.
Proof.
  intro H. rewrite gemini_Recv_is_drive in H.
  apply (drive_kept gemini.reader gemini.set_reader (interp.gemini_next J clock)
           (fun s => (gemini.chunkID s, gemini.model s))) in H.
  - destruct H as [(e & -> & Hk)|(ev & s0 & Hk & N)].
    + inversion Hk. auto.
    + inversion Hk as [[Hid Hm]]. clear Hk. unfold interp.gemini_next in N.
      destruct (negb (nonempty (utils.Data ev))); [discriminate|].
      cbv zeta in N.
      destruct (J (bytes_of (utils.ParseSSEData (utils.Data ev)))) as [resp|err].
      * destruct (gemini.candidateChoices (gemini.Candidates resp)) as [|c cs];
          [discriminate|].
        inversion N; subst; clear N. simpl. rewrite Hid, Hm.
        repeat split; try reflexivity. discriminate.
      * inversion N; subst; clear N. simpl. auto.
  - reflexivity.
  - intros ev s0 s1 N. unfold interp.gemini_next in N.
    destruct (negb (nonempty (utils.Data ev))); [now inversion N|].
    cbv zeta in N.
    destruct (J (bytes_of (utils.ParseSSEData (utils.Data ev)))) as [resp|err];
      [|discriminate].
    destruct (gemini.candidateChoices (gemini.Candidates resp)) as [|c cs];
      [now inversion N | discriminate].
Qed.

Lemma chunk_names_S (first : Z) (count : nat) :
  chunk_names first (S count)
  = chunk_name first :: chunk_names (first + 1) count.
Proof.
  unfold chunk_names. cbn [seq map]. rewrite Z.add_0_r. f_equal.
  rewrite <- seq_shift, map_map. apply map_ext. intro k.
  f_equal. lia.
Qed.

Lemma gemini_numbering J clock (n : nat) :
  forall s results s',
    api.Recv_times (gemini.Recv J clock) n s = Some (results, s') ->
    0 <= gemini.chunkID s ->
    gemini.chunkID s + Z.of_nat n < 2 ^ 63 ->
    map api.ID (chunks_of results)
    = chunk_names (gemini.chunkID s + 1) (length (chunks_of results))
    /\ gemini.chunkID s'
       = gemini.chunkID s + Z.of_nat (length (chunks_of results))
    /\ (length (chunks_of results) <= n)%nat
    /\ gemini.model s' = gemini.model s
    /\ Forall (fun chunk => api.Model chunk = gemini.model s
                            /\ api.Object chunk = "chat.completion.chunk"%string
                            /\ api.Choices chunk <> [])
         (chunks_of results).
Proof.
  induction n as [|n IH]; intros s results s' H Hlo Hhi.
  - inversion H; subst. simpl. rewrite Z.add_0_r.
    repeat split; auto.
  - cbn [api.Recv_times] in H.
    destruct (gemini.Recv J clock s) as [[res s1]|] eqn:E; [|discriminate].
    destruct (api.Recv_times (gemini.Recv J clock) n s1) as [[rest s2]|] eqn:R;
      [|discriminate].
    inversion H; subst; clear H.
    apply gemini_Recv_numbering in E as [Hm Hres].
    destruct res as [chunk|e].
    + destruct Hres as (Hid & Hname & Hobj & Hmodel & Hch).
      rewrite wrap_int_small in Hid by lia.
      apply IH in R as (Hids & Hlast & Hlen & Hm2 & Hall); [| lia | lia].
      change (chunks_of (inl chunk :: rest)) with (chunk :: chunks_of rest).
      cbn [map length]. rewrite chunk_names_S.
      rewrite Hids, Hlast, Hname, Hm2, Hm, Hid.
      split; [reflexivity|]. split; [lia|]. split; [lia|]. split; [reflexivity|].
      constructor; [auto|]. now rewrite <- Hm.
    + apply IH in R as (Hids & Hlast & Hlen & Hm2 & Hall); [| lia | lia].
      change (chunks_of (inr e :: rest)) with (chunks_of rest).
      rewrite Hids, Hlast, Hm2, Hm, Hres.
      split; [reflexivity|]. split; [reflexivity|]. split; [lia|].
      split; [reflexivity|]. now rewrite <- Hm.
Qed.

(** X10. The chunks of a Gemini stream are numbered one by one in the order
    they are returned: over any number of reads, as long as the counter does
    not overflow, the chunks returned carry the identifiers [chunk-(c+1)],
    [chunk-(c+2)], ... where [c] is the stream's counter before the reads,
    and the counter ends at [c] plus the number of chunks.  Events that are
    passed over (no data, no candidates, no resulting choice) and reads that
    return an error or the completion signal take no number.  Every chunk
    carries the model of the stream and the object
    [chat.completion.chunk], and has at least one choice. *)
Theorem X10_gemini_chunks_numbered J clock (n : nat) s results s' :
  api.Recv_times (gemini.Recv J clock) n s = Some (results, s') ->
  0 <= gemini.chunkID s ->
  gemini.chunkID s + Z.of_nat n < 2 ^ 63 ->
  map api.ID (chunks_of results)
  = chunk_names (gemini.chunkID s + 1) (length (chunks_of results))
  /\ gemini.chunkID s' = gemini.chunkID s + Z.of_nat (length (chunks_of results))
  /\ Forall (fun chunk => api.Model chunk = gemini.model s
                          /\ api.Object chunk = "chat.completion.chunk"%string
                          /\ api.Choices chunk <> [])
       (chunks_of results).
Proof.
  intros H Hlo Hhi.
  destruct (gemini_numbering J clock n s results s' H Hlo Hhi)
    as (Hids & Hlast & _ & _ & Hall).
  auto.
Qed.

(** X10 on an event without candidates, a candidate with two parts and a
    candidate with a finish reason: two chunks, [chunk-1] and [chunk-2]. *)
Lemma X10_gemini_chunks_numbered_witness :
  match api.Recv_times (gemini.Recv sample.gemini_json sample.clock) 3
          (sample.gemini_stream
             [sample.no_candidates; sample.two_parts; sample.finished]) with
  | Some (results, s') =>
      map api.ID (chunks_of results) = ["chunk-1"; "chunk-2"]%string
      /\ gemini.chunkID s' = 2
  | None => False
  end.
Proof.
  destruct (api.Recv_times (gemini.Recv sample.gemini_json sample.clock) 3
              (sample.gemini_stream
                 [sample.no_candidates; sample.two_parts; sample.finished]))
    as [[results s']|] eqn:E.
  - destruct (X10_gemini_chunks_numbered sample.gemini_json sample.clock 3 _ _ _ E)
      as (Hids & Hlast & _); [simpl; lia | simpl; lia |].
    vm_compute in E. inversion E; subst; clear E.
    split; [exact Hids | exact Hlast].
  - vm_compute in E. discriminate.
Defined.

(** *** Anthropic: only text deltas are delivered *)

(** X11. An Anthropic stream delivers the text deltas and nothing else:
    over a stream of events that decode to responses none of which ends the
    message (no [message_stop], no [message_delta] with a stop reason), the
    reads return one chunk for each [content_block_delta] whose delta is of
    type [text], in the order of the wire, and then [io.EOF] at the end of
    the input.  Events of every other type, [error] and [ping] included, and
    deltas that are missing or of another type, are decoded and passed over
    without any result. *)
Theorem X11_anthropic_text_deltas_only J clock rc items log :
  Forall (decoded_by J) items ->
  Forall (fun item => anthropic_ends (snd item) = false) items ->
  api.Recv_times (anthropic.Recv J clock) (S (length (anthropic_chunks clock items)))
    (anthropic.mkStream (wire.source (wire.events (map fst items))) rc log)
  = Some (map inl (anthropic_chunks clock items) ++ [inr io_EOF],
          anthropic.mkStream wire.drained rc (log ++ map decoder_input items)).
Proof.
  intro Hdec. revert log.
  induction Hdec as [|[p resp] items (Hfit & HJ) _ IH]; intros log Hends.
  - simpl. now rewrite app_nil_r.
  - inversion Hends as [|? ? Hend Hrest]; subst.
    assert (IH' := fun log0 => IH log0 Hrest). clear IH. rename IH' into IH.
    cbn [fst snd] in *. cbn [map anthropic_chunks snd fst].
    apply orb_false_iff in Hend as [Hstop Hdelta].
    pose proof (ReadEvent_first_event p (map fst items) Hfit) as E.
    pose proof (anthropic_next_decoded J clock (wire.data_only p)
                  (anthropic.set_reader
                     (anthropic.mkStream
                        (wire.source (wire.events (p :: map fst items))) rc log)
                     (wire.source (wire.events (map fst items))))
                  resp (fits_nonempty _ Hfit) HJ) as N.
    cbv zeta in N. rewrite Hstop in N.
    unfold anthropic_text_of.
    set (s1 := anthropic.mkStream (wire.source (wire.events (map fst items))) rc
                 (log ++ [bytes_of (utils.ParseSSEData p)])).
    set (s0 := anthropic.mkStream
                 (wire.source (wire.events (p :: map fst items))) rc log) in *.
    change (utils.ReadEvent (anthropic.reader s0)
            = Some (inl (wire.data_only p), wire.source (wire.events (map fst items))))
      in E.
    assert (anthropic.mkStream wire.drained rc
              (log ++ decoder_input (p, resp) :: map decoder_input items)
            = anthropic.mkStream wire.drained rc
                ((log ++ [bytes_of (utils.ParseSSEData p)])
                   ++ map decoder_input items)) as ->
        by (now rewrite <- app_assoc).
    destruct (String.eqb (anthropic.Type_ resp) "content_block_delta").
    + destruct (anthropic.Delta resp) as [delta|].
      * destruct (String.eqb (anthropic.delta_Type delta) "text").
        -- cbn [app length map]. cbn [api.Recv_times].
           rewrite (anthropic_return J clock s0 _ _ _ _ E N).
           specialize (IH (log ++ [bytes_of (utils.ParseSSEData p)])).
           cbn [api.Recv_times] in IH.
           change (anthropic.note_unmarshal _ _) with s1.
           unfold s1. now rewrite IH.
        -- cbn [app]. cbn [api.Recv_times].
           rewrite (anthropic_keep J clock s0 _ _ _ E N).
           apply (IH (log ++ [bytes_of (utils.ParseSSEData p)])).
      * cbn [app]. cbn [api.Recv_times].
        rewrite (anthropic_keep J clock s0 _ _ _ E N).
        apply (IH (log ++ [bytes_of (utils.ParseSSEData p)])).
    + assert (interp.anthropic_next J clock (wire.data_only p)
                (anthropic.set_reader s0
                   (wire.source (wire.events (map fst items))))
              = (interp.KeepReading, s1)) as N'.
      { rewrite N. destruct (String.eqb (anthropic.Type_ resp) "message_delta");
          [|reflexivity].
        simpl in Hdelta. now rewrite Hdelta. }
      cbn [app]. cbn [api.Recv_times].
      rewrite (anthropic_keep J clock s0 _ _ _ E N').
      apply (IH (log ++ [bytes_of (utils.ParseSSEData p)])).
Qed.


(** X11 on [message_start], text [a], a [message_delta] without stop reason
    and text [b]: two chunks and the completion signal. *)
Lemma X11_anthropic_text_deltas_only_witness :
  api.Recv_times (anthropic.Recv sample.anthropic_json sample.clock) 3
    (sample.anthropic_stream
       [sample.message_start; fst (sample.anthropic_text "a");
        sample.message_delta; fst (sample.anthropic_text "b")])
  = Some ([inl (sample.delta_chunk 0 "a" 0); inl (sample.delta_chunk 0 "b" 0);
           inr io_EOF],
          anthropic.mkStream wire.drained sample.lenient_body
            [bytes_of sample.message_start; bytes_of (fst (sample.anthropic_text "a"));
             bytes_of sample.message_delta; bytes_of (fst (sample.anthropic_text "b"))]).
Proof.
  apply (X11_anthropic_text_deltas_only sample.anthropic_json sample.clock
           sample.lenient_body
           [(sample.message_start, sample.anthropic_event "message_start");
            sample.anthropic_text "a";
            (sample.message_delta, sample.anthropic_event "message_delta");
            sample.anthropic_text "b"] []).
  - repeat constructor; vm_compute; reflexivity.
  - repeat constructor.
Defined.

(** ** The stream processor over the chunks of a stream *)

Lemma Recv_times_cons {S : Type}
      (recv : S -> option ((api.ResponseChunk + error) * S))
      (n : nat) (s s' : S) res rest :
  api.Recv_times recv (Datatypes.S n) s = Some (res :: rest, s') ->
  exists s1, recv s = Some (res, s1) /\ api.Recv_times recv n s1 = Some (rest, s').
Proof.
  cbn [api.Recv_times]. intro H.
  destruct (recv s) as [[res0 s1]|]; [|discriminate].
  destruct (api.Recv_times recv n s1) as [[rest0 s2]|] eqn:R; [|discriminate].
  inversion H; subst. eauto.
Qed.

Section ProcessOverChunks.
Context {S U : Type} {RS : api.ResponseStream S}.
Variable options : api.StreamOptions U.
Hypothesis callbacks_quiet : quiet options.

Lemma quiet_chunkCallback (chunk : api.ResponseChunk) (st : api.run S U) :
  api.chunkCallback options chunk st
  = (None,
     api.mkRun (api.stream st)
       match api.OnChunk options with
       | Some f => snd (f chunk (api.user st))
       | None => api.user st
       end
       (api.calls st
          ++ match api.OnChunk options with
             | Some _ => [api.call_OnChunk chunk None]
             | None => []
             end)).
Proof.
  destruct callbacks_quiet as [Hchunk _]. unfold api.chunkCallback.
  destruct (api.OnChunk options) as [f|] eqn:Ef.
  - specialize (Hchunk f chunk (api.user st) eq_refl).
    destruct (f chunk (api.user st)) as [ret u1]. simpl in Hchunk. now subst ret.
  - destruct st. simpl. now rewrite app_nil_r.
Qed.

Lemma quiet_textCallback (chunk : api.ResponseChunk) (st : api.run S U) :
  api.textCallback options chunk st
  = (None,
     api.mkRun (api.stream st)
       match api.OnText options with
       | Some g => fold_left (fun u text => snd (g text u)) (first_text chunk)
                     (api.user st)
       | None => api.user st
       end
       (api.calls st
          ++ match api.OnText options with
             | Some _ => map (fun text => api.call_OnText text None) (first_text chunk)
             | None => []
             end)).
Proof.
  destruct callbacks_quiet as [_ Htext]. unfold api.textCallback, first_text.
  destruct (api.OnText options) as [g|] eqn:Eg.
  - destruct (api.Choices chunk) as [|choice0 rest].
    + destruct st. simpl. now rewrite app_nil_r.
    + destruct (nonempty (api.Content (api.Delta choice0))).
      * specialize (Htext g (api.Content (api.Delta choice0)) (api.user st) eq_refl).
        cbn [fold_left map].
        destruct (g (api.Content (api.Delta choice0)) (api.user st)) as [ret u2].
        simpl in Htext. now subst ret.
      * destruct st. simpl. now rewrite app_nil_r.
  - destruct st. simpl. now rewrite app_nil_r.
Qed.

Lemma Process_loop_quiet (chunks : list api.ResponseChunk) :
  forall (st : api.run S U) e s' fuel,
    api.Recv_times api.Recv (Datatypes.S (length chunks)) (api.stream st)
    = Some (map inl chunks ++ [inr e], s') ->
    (length chunks < fuel)%nat ->
    api.Process_loop fuel options st
    = Some (end_of e,
            api.complete options (end_of e)
              (api.mkRun s' (fold_left (after_chunk options) chunks (api.user st))
                 (api.calls st ++ flat_map (chunk_calls options) chunks
                    ++ [api.call_Recv (inr e)]))).
Proof.
  induction chunks as [|chunk chunks IH]; intros st e s' fuel H Hfuel;
    (destruct fuel as [|fuel]; [lia|]);
    cbn [map app] in H; apply Recv_times_cons in H as (s1 & E & R);
    cbn [api.Process_loop]; rewrite E.
  - inversion R; subst. unfold end_of. simpl.
    destruct (is_EOF e); reflexivity.
  - rewrite quiet_chunkCallback, quiet_textCallback.
    cbn [api.stream api.user api.calls].
    rewrite (IH _ e s' fuel); [| exact R | simpl in Hfuel; lia].
    cbn [api.stream api.user api.calls fold_left flat_map].
    unfold chunk_calls at 2. unfold callback_calls, after_chunk.
    cbn [app]. rewrite <- !app_assoc. cbn [app]. reflexivity.
Qed.

End ProcessOverChunks.

(** X12. With callbacks that return no error, [Process] reads the stream
    to its end and the calls it makes are, for each chunk in the order
    received, the read, then [OnChunk] with the chunk when it is set, then
    [OnText] when it is set and the first choice has a non-empty text, with
    that text; then the read that ends the stream, [OnComplete] when set,
    and [Close] when [AutoClose] is set.  Texts of further choices are not
    passed on, and a chunk without choices, or whose first text is empty,
    gives no [OnText] call.  [Process] returns [nil] when the stream ended
    with [io.EOF] and the stream's error otherwise; the stream is left as
    the last read, or [Close], left it. *)
Theorem X12_Process_calls_per_chunk
        {S U : Type} {RS : api.ResponseStream S}
        (options : api.StreamOptions U) (s s' : S) (u : U)
        (chunks : list api.ResponseChunk) (e : error) (fuel : nat) :
  quiet options ->
  api.Recv_times api.Recv (Datatypes.S (length chunks)) s
  = Some (map inl chunks ++ [inr e], s') ->
  (length chunks < fuel)%nat ->
  exists st,
    api.Process fuel s (Some options) u = Some (end_of e, st)
    /\ api.calls st
       = flat_map (chunk_calls options) chunks
           ++ [api.call_Recv (inr e)]
           ++ completion_calls options (end_of e)
           ++ closing_calls options
    /\ api.user st
       = after_complete options (end_of e)
           (fold_left (after_chunk options) chunks u)
    /\ api.stream st = if api.AutoClose options then snd (api.Close s') else s'.
Proof.
  intros Hq H Hfuel. unfold api.Process.
  rewrite (Process_loop_quiet options Hq chunks (api.mkRun s u []) e s' fuel H Hfuel).
  eexists. split; [reflexivity|].
  unfold api.deferred, api.complete, completion_calls, closing_calls, after_complete.
  destruct (api.OnComplete options), (api.AutoClose options); simpl;
    rewrite <- ?app_assoc, ?app_nil_r; auto.
Qed.

(** X12 on the chunks [Hel] and [lo] with callbacks that keep a
    transcript. *)
Lemma X12_Process_calls_per_chunk_witness :
  let s := sample.openai_stream
             [fst (sample.openai_text "Hel"); fst (sample.openai_text "lo")] in
  exists st,
    @api.Process _ _ (openai.stream sample.openai_json) 3 s
      (Some consumer.transcript) EmptyString
    = Some (None, st)
    /\ api.user st = "|Hel|lo."%string
    /\ api.calls st
       = [api.call_Recv (inl (sample.text_chunk "Hel"));
          api.call_OnChunk (sample.text_chunk "Hel") None;
          api.call_OnText "Hel" None;
          api.call_Recv (inl (sample.text_chunk "lo"));
          api.call_OnChunk (sample.text_chunk "lo") None;
          api.call_OnText "lo" None;
          api.call_Recv (inr io_EOF);
          api.call_OnComplete None;
          api.call_Close].
Proof.
  intro s.
  destruct (@X12_Process_calls_per_chunk _ _ (openai.stream sample.openai_json)
              consumer.transcript s
              (openai.mkStream wire.drained sample.lenient_body
                 [bytes_of (fst (sample.openai_text "Hel"));
                  bytes_of (fst (sample.openai_text "lo"))])
              EmptyString
              [sample.text_chunk "Hel"; sample.text_chunk "lo"] io_EOF 3)
    as (st & HP & Hc & Hu & _).
  - split; intros f x u H; inversion H; reflexivity.
  - vm_compute. reflexivity.
  - simpl. lia.
  - exists st. split; [exact HP|]. split; [rewrite Hu | rewrite Hc]; reflexivity.
Defined.

(** *** A text handler over the chunks of a stream *)

Section HandlerOverChunks.
Context {S U : Type} {RS : api.ResponseStream S}.
Variable handler : string -> U -> option error * U.

Local Abbreviation handler_options := (api.mkStreamOptions None None (Some handler) true).

Lemma handled_cons (text : string) (texts : list string) (u u' : U) e :
  handler text u = (None, u') ->
  handled handler (text :: texts) u e = handled handler texts u' e.
Proof. intro H. unfold handled. cbn [feed]. now rewrite H. Qed.

Lemma handled_fails (text : string) (texts : list string) (u u' : U) e err :
  handler text u = (Some err, u') ->
  handled handler (text :: texts) u e = (Some err, u').
Proof. intro H. unfold handled. cbn [feed]. now rewrite H. Qed.

Lemma Process_loop_handled (chunks : list api.ResponseChunk) :
  forall (st : api.run S U) e s' fuel,
    api.Recv_times api.Recv (Datatypes.S (length chunks)) (api.stream st)
    = Some (map inl chunks ++ [inr e], s') ->
    (length chunks < fuel)%nat ->
    exists st',
      api.Process_loop fuel handler_options st
      = Some (fst (handled handler (flat_map first_text chunks) (api.user st) e), st')
      /\ api.user st'
         = snd (handled handler (flat_map first_text chunks) (api.user st) e).
Proof.
  induction chunks as [|chunk chunks IH]; intros st e s' fuel H Hfuel;
    (destruct fuel as [|fuel]; [lia|]);
    cbn [map app] in H; apply Recv_times_cons in H as (s1 & E & R);
    cbn [api.Process_loop]; rewrite E.
  - unfold handled, end_of. simpl. destruct (is_EOF e); eexists; split; reflexivity.
  - unfold api.chunkCallback, api.textCallback.
    cbn [api.OnChunk api.OnText api.user api.stream api.calls flat_map].
    destruct (api.Choices chunk) as [|choice0 rest] eqn:Ec.
    + assert (first_text chunk = []) as ->
          by (unfold first_text; now rewrite Ec).
      cbn [app]. apply (IH (api.mkRun s1 (api.user st) _) e s' fuel R).
      simpl in Hfuel. lia.
    + destruct (nonempty (api.Content (api.Delta choice0))) eqn:En.
      * assert (first_text chunk = [api.Content (api.Delta choice0)]) as ->
            by (unfold first_text; now rewrite Ec, En).
        cbn [app].
        destruct (handler (api.Content (api.Delta choice0)) (api.user st))
          as [[err|] u1] eqn:Eh.
        -- rewrite (handled_fails _ _ _ _ e _ Eh). eexists. split; reflexivity.
        -- rewrite (handled_cons _ _ _ _ e Eh).
           apply (IH (api.mkRun s1 u1 _) e s' fuel R). simpl in Hfuel. lia.
      * assert (first_text chunk = []) as ->
            by (unfold first_text; now rewrite Ec, En).
        cbn [app]. apply (IH (api.mkRun s1 (api.user st) _) e s' fuel R).
        simpl in Hfuel. lia.
Qed.

Lemma ProcessWithHandler_handled (chunks : list api.ResponseChunk)
      (s s' : S) (u : U) e fuel :
  api.Recv_times api.Recv (Datatypes.S (length chunks)) s
  = Some (map inl chunks ++ [inr e], s') ->
  (length chunks < fuel)%nat ->
  exists st,
    api.ProcessWithHandler fuel s handler u
    = Some (fst (handled handler (flat_map first_text chunks) u e), st)
    /\ api.user st = snd (handled handler (flat_map first_text chunks) u e)
    /\ exists before, api.calls st = before ++ [api.call_Close].
Proof.
  intros H Hfuel. unfold api.ProcessWithHandler, api.Process.
  destruct (Process_loop_handled chunks (api.mkRun s u []) e s' fuel H Hfuel)
    as (st' & -> & Hu).
  eexists. split; [reflexivity|]. split; [exact Hu|].
  unfold api.deferred. simpl. eauto.
Qed.

End HandlerOverChunks.

Lemma feed_collect (texts : list string) (u : string) :
  feed (fun text fullContent => (None, String.append fullContent text)) texts u
  = (None, String.append u (String.concat EmptyString texts)).
Proof.
  revert u. induction texts as [|text texts IH]; intro u.
  - simpl. now rewrite append_empty_r.
  - cbn [feed]. rewrite IH, concat_empty_cons, append_assoc. reflexivity.
Qed.

(** X13. [CollectFullContent] returns the texts of the first choices of
    the chunks the stream delivers before it ends, concatenated in order,
    together with [nil] when the stream ended with [io.EOF] and with the
    stream's error otherwise: what was collected before an error is
    returned next to the error.  Texts of further choices are not
    collected. *)
Theorem X13_CollectFullContent_concatenates
        {S : Type} {RS : api.ResponseStream S}
        (s s' : S) (chunks : list api.ResponseChunk) (e : error) (fuel : nat) :
  api.Recv_times api.Recv (Datatypes.S (length chunks)) s
  = Some (map inl chunks ++ [inr e], s') ->
  (length chunks < fuel)%nat ->
  api.CollectFullContent fuel s
  = Some (String.concat EmptyString (flat_map first_text chunks), end_of e).
Proof.
  intros H Hfuel. unfold api.CollectFullContent.
  destruct (ProcessWithHandler_handled
              (fun text fullContent => (None, String.append fullContent text))
              chunks s s' EmptyString e fuel H Hfuel) as (st & -> & Hu & _).
  rewrite Hu. unfold handled. rewrite feed_collect. reflexivity.
Qed.

(** X13 on a stream that breaks after the chunks [Hel] and [lo]: the text
    [Hello] comes back with the error. *)
Lemma X13_CollectFullContent_concatenates_witness :
  let s := openai.mkStream
             (utils.NewSSEReader
                (bufio.mkReader
                   (bytes_of (wire.events [fst (sample.openai_text "Hel");
                                           fst (sample.openai_text "lo")]))
                   scenario.broken))
             sample.lenient_body [] in
  @api.CollectFullContent _ (openai.stream sample.openai_json) 3 s
  = Some ("Hello"%string, Some (interp.read_failure scenario.broken)).
Proof.
  intro s.
  destruct (@api.Recv_times _ (@api.Recv _ (openai.stream sample.openai_json)) 3 s)
    as [[results s']|] eqn:E; [|vm_compute in E; discriminate].
  assert (results = map inl [sample.text_chunk "Hel"; sample.text_chunk "lo"]
                      ++ [inr (interp.read_failure scenario.broken)]) as Hr
      by (vm_compute in E; now inversion E).
  rewrite Hr in E.
  apply (@X13_CollectFullContent_concatenates _ (openai.stream sample.openai_json)
           s s' [sample.text_chunk "Hel"; sample.text_chunk "lo"]
           (interp.read_failure scenario.broken) 3 E).
  simpl. lia.
Defined.

(** X14. [StreamToWriter] writes the non-empty first-choice texts of the
    chunks to the writer, one [Write] per chunk, in order.  The first
    [Write] that returns an error ends it: that error is returned and
    nothing is written after it; when no [Write] fails it returns [nil] if
    the stream ended with [io.EOF] and the stream's error otherwise.  The
    stream is closed in every case, as the last thing done. *)
Theorem X14_StreamToWriter_writes_in_order
        {S W : Type} {RS : api.ResponseStream S}
        (Write : bytes -> W -> (Z * option error) * W)
        (s s' : S) (w : W) (chunks : list api.ResponseChunk) (e : error)
        (fuel : nat) :
  api.Recv_times api.Recv (Datatypes.S (length chunks)) s
  = Some (map inl chunks ++ [inr e], s') ->
  (length chunks < fuel)%nat ->
  exists st,
    api_writer.StreamToWriter Write fuel s w
    = Some (fst (handled (api_writer.write_text Write)
                   (flat_map first_text chunks) w e), st)
    /\ api.user st
       = snd (handled (api_writer.write_text Write) (flat_map first_text chunks) w e)
    /\ exists before, api.calls st = before ++ [api.call_Close].
Proof.
  intros H Hfuel. unfold api_writer.StreamToWriter.
  apply (ProcessWithHandler_handled (api_writer.write_text Write)
           chunks s s' w e fuel H Hfuel).
Qed.

(** X14 on the chunks [Hel] and [lo] and a buffer with room for four
    bytes: [Hel] is written, the write of [lo] fails and its error is
    returned. *)
Lemma X14_StreamToWriter_writes_in_order_witness :
  let s := sample.openai_stream
             [fst (sample.openai_text "Hel"); fst (sample.openai_text "lo")] in
  exists st,
    @api_writer.StreamToWriter _ _ (openai.stream sample.openai_json)
      (consumer.bounded_Write 4) 3 s []
    = Some (Some (foreign_error "short write"), st)
    /\ api.user st = bytes_of "Hel".
Proof.
  intro s.
  destruct (@X14_StreamToWriter_writes_in_order _ _
              (openai.stream sample.openai_json) (consumer.bounded_Write 4) s
              (openai.mkStream wire.drained sample.lenient_body
                 [bytes_of (fst (sample.openai_text "Hel"));
                  bytes_of (fst (sample.openai_text "lo"))])
              [] [sample.text_chunk "Hel"; sample.text_chunk "lo"] io_EOF 3)
    as (st & HP & Hu & _).
  - vm_compute. reflexivity.
  - simpl. lia.
  - exists st. split; [exact HP | exact Hu].
Defined.

(** ** The clients: responses *)

Lemma rangeCandidates_app (candidates : list gemini.Candidate) :
  forall i choices,
    gemini_client.rangeCandidates i candidates choices
    = choices ++ gemini_client.rangeCandidates i candidates [].
Proof.
  induction candidates as [|c cs IH]; intros i choices; cbn [gemini_client.rangeCandidates].
  - now rewrite app_nil_r.
  - rewrite IH. rewrite (IH _ ([] ++ _)). cbn [app]. now rewrite <- app_assoc.
Qed.

Lemma rangeCandidates_nth (candidates : list gemini.Candidate) :
  forall i (k : nat) candidate,
    nth_error candidates k = Some candidate ->
    nth_error (gemini_client.rangeCandidates i candidates []) k
    = Some (api_response.mkChoice (i + Z.of_nat k)
              (api.mkMessage api.RoleAssistant (candidate_text candidate))
              (gemini.FinishReason candidate)).
Proof.
  induction candidates as [|c cs IH]; intros i k candidate H.
  - destruct k; discriminate.
  - cbn [gemini_client.rangeCandidates]. rewrite rangeCandidates_app. cbn [app].
    destruct k as [|k]; cbn [nth_error] in *.
    + inversion H; subst. rewrite partsText_concat, Z.add_0_r. reflexivity.
    + rewrite (IH (i + 1) k candidate H). do 2 f_equal. lia.
Qed.

Lemma rangeCandidates_length (candidates : list gemini.Candidate) :
  forall i, length (gemini_client.rangeCandidates i candidates []) = length candidates.
Proof.
  induction candidates as [|c cs IH]; intro i; cbn [gemini_client.rangeCandidates].
  - reflexivity.
  - rewrite rangeCandidates_app. cbn [app length]. now rewrite IH.
Qed.

(** X15. The choices of a full Gemini response: [adaptResponse] makes one
    choice for every candidate, in order.  The choice made of the
    candidate at position [k] has index [k], whatever index the candidate
    itself carries, the assistant role, the finish reason of the candidate
    and the texts of all its parts concatenated; a candidate with a finish
    reason keeps its text, and a candidate without text still gives a
    choice.  The response carries the model name passed in, the clock's
    reading and an empty identifier. *)
Theorem X15_gemini_adaptResponse_choices
        (geminiResp : gemini_client.GeminiResponse) (modelName : string) (now : Z) :
  let response := gemini_client.adaptResponse geminiResp modelName now in
  length (api_response.Choices response)
  = length (gemini_client.Candidates geminiResp)
  /\ (forall (k : nat) candidate,
         nth_error (gemini_client.Candidates geminiResp) k = Some candidate ->
         nth_error (api_response.Choices response) k
         = Some (api_response.mkChoice (Z.of_nat k)
                   (api.mkMessage api.RoleAssistant (candidate_text candidate))
                   (gemini.FinishReason candidate)))
  /\ api_response.Model response = modelName
  /\ api_response.Created response = now
  /\ api_response.ID response = EmptyString.
Proof.
  cbv zeta. unfold gemini_client.adaptResponse. cbn [api_response.Choices
    api_response.Model api_response.Created api_response.ID].
  split; [apply rangeCandidates_length|]. split; [|auto].
  intros k candidate H.
  now rewrite (rangeCandidates_nth _ 0 k candidate H).
Qed.

Lemma blocksText_filter (blocks : list anthropic_client.ContentBlock) :
  anthropic_client.blocksText blocks
  = String.concat EmptyString (map anthropic_client.Text (filter is_text blocks)).
Proof.
  unfold anthropic_client.blocksText.
  enough (forall acc,
             fold_left
               (fun content block =>
                  if String.eqb (anthropic_client.Type_ block) "text"
                  then String.append content (anthropic_client.Text block)
                  else content) blocks acc
             = String.append acc
                 (String.concat EmptyString
                    (map anthropic_client.Text (filter is_text blocks))))
    as H by apply (H EmptyString).
  induction blocks as [|b blocks IH]; intro acc.
  - simpl. now rewrite append_empty_r.
  - cbn [fold_left filter]. unfold is_text at 1. rewrite IH.
    destruct (String.eqb (anthropic_client.Type_ b) "text"); [|reflexivity].
    cbn [map]. rewrite concat_empty_cons. apply append_assoc.
Qed.

(** X16. A full Anthropic response becomes exactly one choice, at index 0
    and with the assistant role, whose content is the texts of the content
    blocks of type [text], concatenated in order; blocks of any other type
    contribute nothing.  The finish reason is the stop reason, and the total
    token count is the sum of the input and output counts (in 64-bit
    arithmetic: the plain sum when that fits). *)
Theorem X16_anthropic_adaptResponse_one_choice
        (anthropicResp : anthropic_client.AnthropicResponse) (now : Z) :
  let response := anthropic_client.adaptResponse anthropicResp now in
  let usage := anthropic_client.Usage anthropicResp in
  api_response.Choices response
  = [api_response.mkChoice 0
       (api.mkMessage api.RoleAssistant
          (String.concat EmptyString
             (map anthropic_client.Text
                (filter is_text (anthropic_client.Content anthropicResp)))))
       (anthropic_client.StopReason anthropicResp)]
  /\ api_response.TotalTokens (api_response.Usage_ response)
     = wrap_int (anthropic_client.InputTokens usage
                 + anthropic_client.OutputTokens usage)
  /\ (- 2 ^ 63 <= anthropic_client.InputTokens usage
                  + anthropic_client.OutputTokens usage < 2 ^ 63 ->
      api_response.TotalTokens (api_response.Usage_ response)
      = api_response.PromptTokens (api_response.Usage_ response)
        + api_response.CompletionTokens (api_response.Usage_ response)).
Proof.
  cbv zeta. unfold anthropic_client.adaptResponse.
  cbn [api_response.Choices api_response.Usage_ api_response.TotalTokens
       api_response.PromptTokens api_response.CompletionTokens].
  rewrite blocksText_filter. split; [reflexivity|]. split; [reflexivity|].
  apply wrap_int_small.
Qed.

(** ** The clients: request bodies *)

Lemma lookup_assign_same (m : api_request.object) (k : string) v :
  api_request.lookup (api_request.assign m k v) k = Some v.
Proof.
  induction m as [|[k' v'] m IH]; cbn [api_request.assign api_request.lookup].
  - now rewrite String.eqb_refl.
  - destruct (String.eqb k' k) eqn:E; cbn [api_request.lookup]; now rewrite E.
Qed.

Lemma lookup_assign_other (m : api_request.object) (k k0 : string) v :
  k <> k0 ->
  api_request.lookup (api_request.assign m k v) k0 = api_request.lookup m k0.
Proof.
  intro Hk. induction m as [|[k' v'] m IH]; cbn [api_request.assign api_request.lookup].
  - now rewrite (eqb_neq_false _ _ Hk).
  - destruct (String.eqb k' k) eqn:E; cbn [api_request.lookup].
    + apply String.eqb_eq in E. subst k'. now rewrite (eqb_neq_false _ _ Hk).
    + now rewrite IH.
Qed.

Lemma lookup_assign_float64 (m : api_request.object) (k k0 : string) p :
  k <> k0 ->
  api_request.lookup (api_request.assign_float64 m k p) k0 = api_request.lookup m k0.
Proof. intro Hk. destruct p; simpl; [now apply lookup_assign_other | reflexivity]. Qed.

Lemma lookup_assign_int (m : api_request.object) (k k0 : string) p :
  k <> k0 ->
  api_request.lookup (api_request.assign_int m k p) k0 = api_request.lookup m k0.
Proof. intro Hk. destruct p; simpl; [now apply lookup_assign_other | reflexivity]. Qed.

(** The parameters in [ExtraParams] are stored last: a key among them takes
    its value from there, any other key keeps what it had. *)
Lemma lookup_assign_all_absent (extra : api_request.object) :
  forall m k,
    api_request.lookup extra k = None ->
    api_request.lookup (api_request.assign_all m extra) k = api_request.lookup m k.
Proof.
  unfold api_request.assign_all.
  induction extra as [|[k' v'] extra IH]; intros m k H; cbn [fold_left fst snd].
  - reflexivity.
  - cbn [api_request.lookup] in H. destruct (String.eqb k' k) eqn:E; [discriminate|].
    rewrite (IH _ k H). apply lookup_assign_other.
    now apply String.eqb_neq.
Qed.

Lemma lookup_assign_all_present (extra : api_request.object) :
  is_map extra ->
  forall m k v,
    api_request.lookup extra k = Some v ->
    api_request.lookup (api_request.assign_all m extra) k = Some v.
Proof.
  unfold api_request.assign_all, is_map.
  induction extra as [|[k' v'] extra IH]; intros Hmap m k v H; [discriminate|].
  cbn [fold_left fst snd]. cbn [map fst] in Hmap. inversion Hmap as [|? ? Hnotin Hrest]; subst.
  cbn [api_request.lookup] in H. destruct (String.eqb k' k) eqn:E.
  - inversion H; subst. apply String.eqb_eq in E. subst k'.
    assert (api_request.lookup extra k = None) as Hnone.
    { clear - Hnotin. induction extra as [|[k1 v1] extra IH]; [reflexivity|].
      cbn [api_request.lookup]. cbn [map fst In] in Hnotin.
      destruct (String.eqb k1 k) eqn:E1.
      - apply String.eqb_eq in E1. tauto.
      - apply IH. tauto. }
    pose proof (lookup_assign_all_absent extra (api_request.assign m k v) k Hnone) as Ha.
    unfold api_request.assign_all in Ha. rewrite Ha. apply lookup_assign_same.
  - now apply IH.
Qed.

(** Distinct literal keys. *)
Ltac other_key := let Heq := fresh in intro Heq; discriminate Heq.

(** The standard part of the body the OpenAI and DeepSeek clients build,
    before [ExtraParams] is added. *)
Ltac standard_lookup :=
  repeat first
    [ rewrite lookup_assign_float64 by other_key
    | rewrite lookup_assign_int by other_key
    | rewrite lookup_assign_other by other_key
    | rewrite lookup_assign_same
    | match goal with
      | |- context [if ?c then api_request.assign _ _ _ else _] => destruct c
      end ];
  try reflexivity.

(** X18. The bodies the OpenAI and DeepSeek clients send are the same, and
    [ExtraParams] is written into them last: every parameter given there
    is sent with the value given there, also in place of the model, the
    messages, the stream flag or any other standard parameter.  A standard
    key that is not in [ExtraParams] is sent as the request has it:
    [model] and [messages] always, [stream] only when the request's flag is
    set (and then as [true]), [stop] only when there are stop sequences. *)
Theorem X18_ExtraParams_override (request : api_request.Request) :
  is_map (api_request.ExtraParams request) ->
  let extra := api_request.ExtraParams request in
  let body := openai_client.adaptRequest request in
  deepseek_client.adaptRequest request = body
  /\ (forall k v, api_request.lookup extra k = Some v ->
                  api_request.lookup body k = Some v)
  /\ (api_request.lookup extra "model" = None ->
      api_request.lookup body "model"
      = Some (api_request.of_string (api_request.Model request)))
  /\ (api_request.lookup extra "messages" = None ->
      api_request.lookup body "messages"
      = Some (api_request.of_messages (api_request.Messages request)))
  /\ (api_request.lookup extra "stream" = None ->
      api_request.lookup body "stream"
      = if api_request.Stream request then Some (api_request.of_bool true) else None)
  /\ (api_request.lookup extra "stop" = None ->
      api_request.lookup body "stop"
      = match api_request.Stop request with
        | [] => None
        | stop => Some (api_request.of_strings stop)
        end).
Proof.
  intros Hmap extra body. split; [reflexivity|].
  split; [intros k v H; now apply lookup_assign_all_present|].
  unfold body, openai_client.adaptRequest.
  split; [|split; [|split]]; intro H;
    rewrite (lookup_assign_all_absent _ _ _ H).
  - standard_lookup.
  - standard_lookup.
  - destruct (api_request.Stream request); standard_lookup.
  - destruct (api_request.Stop request) as [|stop0 stops]; cbn [length Nat.ltb Nat.leb];
      standard_lookup.
Qed.

(** X18 on a request with the stream flag set and [stream: false] among
    the extra parameters: the body says [false]. *)
Lemma X18_ExtraParams_override_witness :
  api_request.lookup
    (openai_client.adaptRequest (inquiry.chat "gpt-4" inquiry.two_answers)) "stream"
  = Some (api_request.of_bool false).
Proof.
  assert (is_map (api_request.ExtraParams (inquiry.chat "gpt-4" inquiry.two_answers)))
    as Hmap.
  { unfold is_map. simpl. repeat constructor; simpl; intuition discriminate. }
  destruct (X18_ExtraParams_override (inquiry.chat "gpt-4" inquiry.two_answers) Hmap)
    as (_ & Hextra & _).
  apply Hextra. reflexivity.
Defined.

Lemma last_cons {A : Type} (x : A) (l : list A) (d : A) :
  last (x :: l) d = last l x.
Proof.
  revert x d. induction l as [|y l IH]; intros x d; [reflexivity|].
  change (last (x :: y :: l) d) with (last (y :: l) d).
  now rewrite !(IH y).
Qed.

Lemma splitMessage_fold (messages : list api.Message) :
  forall systemPrompt collected,
    fold_left anthropic_client.splitMessage messages (systemPrompt, collected)
    = (last (map api.Content (filter is_system messages)) systemPrompt,
       collected
         ++ map message_object (filter (fun msg => negb (is_system msg)) messages)).
Proof.
  induction messages as [|msg messages IH]; intros systemPrompt collected.
  - simpl. now rewrite app_nil_r.
  - cbn [fold_left filter]. unfold anthropic_client.splitMessage at 2.
    change (String.eqb (api.Role_ msg) api.RoleSystem) with (is_system msg).
    destruct (is_system msg); cbn [negb map].
    + rewrite IH, last_cons. reflexivity.
    + rewrite IH, <- app_assoc. reflexivity.
Qed.

(** X17. The body the Anthropic client sends separates the system
    messages from the others: [messages] holds the messages that do not
    have the system role, in order, each with its role and content, and
    [system] holds the content of the last system message.  Earlier system
    messages are dropped, and there is no [system] key when the last
    system message is empty or there is none.  (Each for a key that
    [ExtraParams] does not set.) *)
Theorem X17_anthropic_system_prompt (request : api_request.Request) :
  let extra := api_request.ExtraParams request in
  let body := anthropic_client.adaptRequest request in
  let prompt :=
    last (map api.Content (filter is_system (api_request.Messages request)))
      EmptyString in
  (api_request.lookup extra "messages" = None ->
   api_request.lookup body "messages"
   = Some (api_request.of_objects
             (map message_object
                (filter (fun msg => negb (is_system msg))
                   (api_request.Messages request)))))
  /\ (api_request.lookup extra "system" = None ->
      api_request.lookup body "system"
      = if nonempty prompt then Some (api_request.of_string prompt) else None).
Proof.
  intros extra body prompt. unfold body, anthropic_client.adaptRequest.
  rewrite splitMessage_fold. fold prompt. cbn [app].
  split; intro H; rewrite (lookup_assign_all_absent _ _ _ H).
  - standard_lookup.
  - destruct (nonempty prompt); standard_lookup.
Qed.

Lemma contents_fold (messages : list api.Message) :
  forall contents,
    fold_left (fun contents msg => contents ++ [gemini_client.messageContent msg])
      messages contents
    = contents ++ map gemini_client.messageContent messages.
Proof.
  induction messages as [|msg messages IH]; intro contents; cbn [fold_left map].
  - now rewrite app_nil_r.
  - now rewrite IH, <- app_assoc.
Qed.

(** X19. The body the Gemini client sends holds one content per message,
    in order, with the role [user] or [model]: the system and assistant
    roles become [model], every other role [user].  The safety settings
    are always sent, and there is a generation configuration exactly when
    a temperature, a top-p, a token limit or a stop sequence is given.
    Nothing else of the request reaches the body: two requests that agree
    on these give the same body, whatever their model, penalties, stream
    flag and [ExtraParams]. *)
Theorem X19_gemini_request_body (request : api_request.Request) :
  let body := gemini_client.adaptRequest request in
  api_request.lookup body "contents"
  = Some (api_request.of_objects
            (map gemini_client.messageContent (api_request.Messages request)))
  /\ (forall role,
         (gemini_client.mapRole role = "user"%string
          \/ gemini_client.mapRole role = "model"%string)
         /\ (gemini_client.mapRole role = "model"%string
             <-> role = api.RoleSystem \/ role = api.RoleAssistant))
  /\ api_request.lookup body "safetySettings"
     = Some (api_request.of_string_maps gemini_client.safetySettings)
  /\ (api_request.lookup body "generationConfig" = None
      <-> api_request.Temperature request = None
          /\ api_request.TopP request = None
          /\ api_request.MaxTokens request = None
          /\ api_request.Stop request = [])
  /\ (forall other,
         api_request.Messages other = api_request.Messages request ->
         api_request.Temperature other = api_request.Temperature request ->
         api_request.TopP other = api_request.TopP request ->
         api_request.MaxTokens other = api_request.MaxTokens request ->
         api_request.Stop other = api_request.Stop request ->
         gemini_client.adaptRequest other = body).
Proof.
  intro body. unfold body, gemini_client.adaptRequest.
  split; [|split; [|split; [|split]]].
  - rewrite contents_fold. cbn [app]. standard_lookup.
  - intro role. unfold gemini_client.mapRole.
    destruct (String.eqb role api.RoleUser) eqn:Eu.
    + apply String.eqb_eq in Eu. subst role. split; [now left|].
      split; [discriminate | intros [H|H]; discriminate].
    + destruct (String.eqb role api.RoleSystem) eqn:Es.
      * apply String.eqb_eq in Es. simpl. split; [now right|]. split; auto.
      * destruct (String.eqb role api.RoleAssistant) eqn:Ea; simpl.
        -- apply String.eqb_eq in Ea. split; [now right|]. split; auto.
        -- apply String.eqb_neq in Es, Ea. split; [now left|].
           split; [discriminate | tauto].
  - apply lookup_assign_same.
  - rewrite lookup_assign_other by other_key.
    destruct (api_request.Temperature request), (api_request.TopP request),
      (api_request.MaxTokens request), (api_request.Stop request);
      cbn; split; intro H; try discriminate H; try reflexivity;
      repeat split; try reflexivity;
      destruct H as (H1 & H2 & H3 & H4); discriminate.
  - intros other Hm Ht Hp Hn Hs. now rewrite Hm, Ht, Hp, Hn, Hs.
Qed.

(** ** The clients: validation *)

(** X20. The four clients accept a request under the same conditions,
    and Anthropic under one more: [validateRequest] of the OpenAI, DeepSeek
    and Gemini clients returns [nil] exactly when the request is not [nil],
    names a model and has at least one message; that of the Anthropic
    client, exactly when in addition the model is one of the five names it
    lists.  So whatever Anthropic accepts the others accept.  Every error
    returned is of kind [InvalidRequest], with status code 0 and no wrapped
    error. *)
Theorem X20_validateRequest_accepts :
  (forall request,
      openai_client.validateRequest request = None
      <-> exists r, request = Some r
                    /\ api_request.Model r <> EmptyString
                    /\ api_request.Messages r <> [])
  /\ (forall request,
         deepseek_client.validateRequest request
         = openai_client.validateRequest request
         /\ gemini_client.validateRequest request
            = openai_client.validateRequest request)
  /\ (forall request,
         anthropic_client.validateRequest request = None
         <-> openai_client.validateRequest request = None
             /\ exists r, request = Some r
                          /\ In (api_request.Model r) anthropic_client.validModels)
  /\ (forall request e,
         openai_client.validateRequest request = Some e
         \/ anthropic_client.validateRequest request = Some e ->
         exists message, e = NewError ErrorTypeInvalidRequest message 0 None).
Proof.
  split; [|split; [|split]].
  - intros [r|]; simpl.
    + destruct (api_request.Model r) eqn:Em; simpl.
      * split; [discriminate|]. intros (r0 & Hr & Hm & _). inversion Hr; subst.
        congruence.
      * destruct (api_request.Messages r) eqn:Eg; simpl.
        -- split; [discriminate|]. intros (r0 & Hr & _ & Hg). inversion Hr; subst.
           congruence.
        -- split; [|reflexivity]. intros _. exists r.
           rewrite Em, Eg. repeat split; discriminate.
    + split; [discriminate|]. intros (r0 & Hr & _). discriminate.
  - intro request. split; reflexivity.
  - intros [r|]; unfold anthropic_client.validateRequest, openai_client.validateRequest.
    + destruct (nonempty (api_request.Model r)); cbn [negb].
      * destruct (length (api_request.Messages r) =? 0)%nat.
        -- split; [discriminate | intros [H _]; discriminate].
        -- destruct (existsb (String.eqb (api_request.Model r))
                       anthropic_client.validModels) eqn:Ev; cbn [negb].
           ++ split; [|reflexivity]. intros _. split; [reflexivity|].
              exists r. split; [reflexivity|].
              apply existsb_exists in Ev as (m & Hin & Hm).
              apply String.eqb_eq in Hm. now subst m.
           ++ split; [discriminate|]. intros (_ & r0 & Hr & Hin).
              inversion Hr; subst r0.
              assert (existsb (String.eqb (api_request.Model r))
                        anthropic_client.validModels = true) as Ht.
              { apply existsb_exists. exists (api_request.Model r).
                split; [exact Hin | apply String.eqb_refl]. }
              congruence.
      * split; [discriminate | intros [H _]; discriminate].
    + split; [discriminate | intros [H _]; discriminate].
  - intros [r|] e [H|H];
      unfold anthropic_client.validateRequest, openai_client.validateRequest in H;
      repeat match type of H with
             | context [if ?c then _ else _] => destruct c
             end;
      inversion H; eexists; reflexivity.
Qed.

(** ** The model registry *)

Lemma registered_In (registry : list (string * models.ModelInfo)) (modelID : string)
      (info : models.ModelInfo) :
  models.registered registry modelID = Some info -> In (modelID, info) registry.
Proof.
  induction registry as [|[key info0] registry IH]; cbn [models.registered];
    [discriminate|].
  destruct (String.eqb key modelID) eqn:E.
  - intro H. inversion H; subst. apply String.eqb_eq in E. subst. now left.
  - intro H. right. now apply IH.
Qed.

(** One entry of the registry, checked by computation. *)
Ltac filed :=
  unfold well_filed;
  split; [reflexivity|];
  split; [simpl; auto 10|];
  split; [discriminate|];
  split; [unfold incl; simpl; intros ? ?; intuition (subst; auto 10)|];
  split; [simpl; lia|];
  split; [vm_compute; reflexivity|];
  split; [vm_compute; reflexivity|];
  let Hp := fresh in intro Hp; first [discriminate Hp | simpl; auto 10].

Lemma registry_well_filed : Forall well_filed models.modelRegistry.
Proof. unfold models.modelRegistry. repeat (constructor; [filed|]). constructor.
Qed.

(** X21. The registry is filed consistently: [GetModelInfo] returns, for a
    model it knows, the entry that carries that very model as its ID; the
    provider is one of the four backends, the capabilities are a non-empty
    selection of the five declared ones, and the token limit and the prices
    are not negative.  Every model the registry lists for Anthropic is
    accepted by the Anthropic client's [validateRequest]; the constants
    [ClaudeHaiku], [ClaudeSonnet] and [ClaudeOpus] are neither in the
    registry nor accepted by that client. *)
Theorem X21_registry_is_consistent :
  (forall modelID info,
      models.GetModelInfo modelID = Some info -> well_filed (modelID, info))
  /\ (forall modelID,
         In modelID [models.ClaudeHaiku; models.ClaudeSonnet; models.ClaudeOpus] ->
         models.GetModelInfo modelID = None
         /\ ~ In modelID anthropic_client.validModels).
Proof.
  split.
  - intros modelID info H. apply registered_In in H.
    exact (proj1 (Forall_forall _ _) registry_well_filed _ H).
  - intros modelID [<-|[<-|[<-|[]]]]; (split; [reflexivity|]);
      simpl; intuition discriminate.
Qed.

(** ** [DoHTTPRequest]: the retry loop *)

Section RetryFacts.
Variable client_Do : nat -> http.Request -> http.Response + error.
Variable ctx_Done : Z -> option error.
Variable config : utils_http.HTTPConfig.
Variable req : http.Request.

Hypothesis retries_fit : utils_http.MaxRetries config < 2 ^ 63 - 1.

Local Abbreviation retry := (utils_http.retry client_Do ctx_Done).
Local Abbreviation MaxRetries := (utils_http.MaxRetries config).

Lemma bodies_closed_S (n : nat) :
  bodies_closed client_Do req (S n)
  = match client_Do n req with
    | inl resp => [snd (io.Close (http.Body_closer resp))]
    | inr _ => []
    end ++ bodies_closed client_Do req n.
Proof.
  unfold bodies_closed. rewrite seq_S, flat_map_app, rev_app_distr.
  cbn [flat_map Nat.add]. rewrite app_nil_r.
  destruct (client_Do n req); reflexivity.
Qed.

(** The loop from [retryCount] on, entered after [retryCount] calls. *)
Lemma retry_spec (fuel : nat) :
  forall retryCount lastErr attempts deferred,
    0 <= retryCount ->
    Z.of_nat attempts = retryCount ->
    (Z.to_nat (MaxRetries + 1 - retryCount) < fuel)%nat ->
    map (fun body => snd (io.Close body)) deferred
    = bodies_closed client_Do req attempts ->
    exists out,
      retry fuel config req retryCount lastErr attempts deferred = Some out
      /\ Z.of_nat (utils_http.attempts out) <= Z.max retryCount (MaxRetries + 1)
      /\ (attempts <= utils_http.attempts out)%nat
      /\ utils_http.closed out = bodies_closed client_Do req (utils_http.attempts out)
      /\ match utils_http.err out with
         | None =>
             exists (last : nat) resp,
               utils_http.attempts out = S last
               /\ client_Do last req = inl resp
               /\ http.ReadAll (http.Body_source resp) = (utils_http.respBody out, None)
               /\ utils_http.statusCode out = http.StatusCode resp
               /\ (http.StatusCode resp < 500 \/ Z.of_nat last = MaxRetries)
         | Some e =>
             utils_http.respBody out = []
             /\ (transport_errors_foreign client_Do ->
                 carried config retryCount lastErr ->
                 utils_http.statusCode out = 0
                 /\ (error_kind e = Some ErrorTypeTimeout
                     \/ error_kind e = Some ErrorTypeConnection
                     \/ (error_kind e = Some ErrorTypeUnknown
                         /\ lastErr = None /\ utils_http.attempts out = attempts)))
         end.
Proof.
  induction fuel as [|fuel IH]; intros retryCount lastErr attempts deferred
                                      Hpos Hatt Hfuel Hdef; [lia|].
  cbn [utils_http.retry].
  destruct (retryCount <=? MaxRetries) eqn:Hle.
  - apply Z.leb_le in Hle.
    assert (wrap_int (retryCount + 1) = retryCount + 1) as Hwrap
        by (apply wrap_int_small; lia).
    assert (forall e' deferred',
               map (fun body => snd (io.Close body)) deferred'
               = bodies_closed client_Do req (S attempts) ->
               (transport_errors_foreign client_Do ->
                carried config (retryCount + 1) (Some e')) ->
               exists out,
                 retry fuel config req (retryCount + 1) (Some e') (S attempts) deferred'
                 = Some out
                 /\ Z.of_nat (utils_http.attempts out)
                    <= Z.max retryCount (MaxRetries + 1)
                 /\ (attempts <= utils_http.attempts out)%nat
                 /\ utils_http.closed out
                    = bodies_closed client_Do req (utils_http.attempts out)
                 /\ match utils_http.err out with
                    | None =>
                        exists (last : nat) resp,
                          utils_http.attempts out = S last
                          /\ client_Do last req = inl resp
                          /\ http.ReadAll (http.Body_source resp)
                             = (utils_http.respBody out, None)
                          /\ utils_http.statusCode out = http.StatusCode resp
                          /\ (http.StatusCode resp < 500 \/ Z.of_nat last = MaxRetries)
                    | Some e =>
                        utils_http.respBody out = []
                        /\ (transport_errors_foreign client_Do ->
                            carried config retryCount lastErr ->
                            utils_http.statusCode out = 0
                            /\ (error_kind e = Some ErrorTypeTimeout
                                \/ error_kind e = Some ErrorTypeConnection
                                \/ (error_kind e = Some ErrorTypeUnknown
                                    /\ lastErr = None
                                    /\ utils_http.attempts out = attempts)))
                    end) as Hnext.
    { intros e' deferred' Hdef' Hcarried.
      destruct (IH (retryCount + 1) (Some e') (S attempts) deferred')
        as (out & -> & Hn & Ha & Hc & He); [lia | lia | lia | exact Hdef' |].
      exists out. split; [reflexivity|]. split; [lia|]. split; [lia|].
      split; [exact Hc|].
      destruct (utils_http.err out) as [e|]; [|exact He].
      destruct He as [Hb He]. split; [exact Hb|]. intros Hf _.
      destruct (He Hf (Hcarried Hf)) as [Hs [Hk|[Hk|(Hk & Hl & Hat)]]].
      - auto.
      - auto.
      - discriminate. }
    destruct (if 0 <? retryCount then ctx_Done retryCount else None) as [ctxErr|].
    + eexists. split; [reflexivity|].
              unfold utils_http.returns; cbn [utils_http.attempts utils_http.closed utils_http.err utils_http.respBody utils_http.statusCode].
      split; [lia|]. split; [lia|]. split; [exact Hdef|]. auto.
    + rewrite Hwrap. destruct (client_Do attempts req) as [resp|e] eqn:Edo.
      * destruct (http.ReadAll (http.Body_source resp)) as [respBody [e|]] eqn:Eread.
        -- apply Hnext.
           ++ rewrite bodies_closed_S, Edo. cbn [map app]. now rewrite Hdef.
           ++ intro Hf. unfold carried. left.
              unfold http.ReadAll in Eread. inversion Eread as [[Hb He]].
              destruct (is_EOF (bufio.final (http.Body_source resp)));
                [discriminate|].
              inversion He; subst e. exact (proj2 Hf _ _ _ Edo).
        -- destruct ((500 <=? http.StatusCode resp) && (retryCount <? MaxRetries))
             eqn:Hretry.
           ++ apply Hnext.
              ** rewrite bodies_closed_S, Edo. cbn [map app]. now rewrite Hdef.
              ** intros _. unfold carried. right.
                 apply andb_true_iff in Hretry as [_ Hlt]. apply Z.ltb_lt in Hlt. lia.
           ++ eexists. split; [reflexivity|].
              unfold utils_http.returns; cbn [utils_http.attempts utils_http.closed utils_http.err utils_http.respBody utils_http.statusCode].
              split; [lia|]. split; [lia|].
              split; [rewrite bodies_closed_S, Edo; cbn [map app]; now rewrite Hdef|].
              exists attempts, resp. repeat split; auto.
              apply andb_false_iff in Hretry as [H5|Hlt].
              ** left. apply Z.leb_gt in H5. exact H5.
              ** right. apply Z.ltb_ge in Hlt. lia.
      * apply Hnext.
        -- rewrite bodies_closed_S, Edo. exact Hdef.
        -- intro Hf. unfold carried. left. exact (proj1 Hf _ _ _ Edo).
  - apply Z.leb_gt in Hle.
    destruct lastErr as [[|what|t m sc p c raw]|]; eexists;
      (split; [reflexivity|]);
      unfold utils_http.returns; cbn [utils_http.attempts utils_http.closed utils_http.err utils_http.respBody utils_http.statusCode];
      (split; [lia|]); (split; [lia|]); (split; [exact Hdef|]);
      (split; [reflexivity|]); intros Hf Hcarried.
    + auto.
    + auto.
    + unfold carried in Hcarried. simpl in Hcarried.
      destruct Hcarried as [Hk|Hk]; [discriminate | lia].
    + split; [reflexivity|]. right. right. auto.
Qed.

End RetryFacts.

(** X22. [DoHTTPRequest] returns after at most [MaxRetries + 1] calls of
    [client.Do], and none when [MaxRetries] is negative.  When it returns
    without error, the body and status are those of the last call made,
    whose body was read to its end; that answer has a status below 500, or
    it is the answer to the last attempt allowed: a 5xx answer to the last
    attempt is returned as a success.  Every response body received in the
    course of the retries is closed exactly once, on return, the latest
    first. *)
Theorem X22_DoHTTPRequest_attempts
        {B : Type} (json_Marshal : B -> bytes + error)
        (http_invalid : string -> string -> option error)
        (canonical : string -> string)
        (client_Do : nat -> http.Request -> http.Response + error)
        (ctx_Done : Z -> option error)
        (method url : string) (body : option B) (headers : list (string * string))
        (config : utils_http.HTTPConfig) (bodyBytes : bytes) :
  utils_http.MaxRetries config < 2 ^ 63 - 1 ->
  marshalled json_Marshal body = inl bodyBytes ->
  http_invalid method url = None ->
  let req := utils_http.prepare canonical (http.mkRequest method url bodyBytes [])
               body headers in
  exists out,
    utils_http.DoHTTPRequest json_Marshal http_invalid canonical client_Do
      ctx_Done method url body headers config = Some out
    /\ Z.of_nat (utils_http.attempts out)
       <= Z.max 0 (utils_http.MaxRetries config + 1)
    /\ utils_http.closed out = bodies_closed client_Do req (utils_http.attempts out)
    /\ match utils_http.err out with
       | None =>
           exists (last : nat) resp,
             utils_http.attempts out = S last
             /\ client_Do last req = inl resp
             /\ http.ReadAll (http.Body_source resp) = (utils_http.respBody out, None)
             /\ utils_http.statusCode out = http.StatusCode resp
             /\ (http.StatusCode resp < 500
                 \/ Z.of_nat last = utils_http.MaxRetries config)
       | Some _ => utils_http.respBody out = []
       end.
Proof.
  intros Hfit Hmarshal Hnew req.
  unfold utils_http.DoHTTPRequest. unfold marshalled in Hmarshal.
  unfold http.NewRequestWithContext. rewrite Hmarshal, Hnew. fold req.
  destruct (retry_spec client_Do ctx_Done config req Hfit
              (utils_http.retry_fuel config) 0 None O [])
    as (out & Hout & Hn & _ & Hc & He).
  - lia.
  - reflexivity.
  - unfold utils_http.retry_fuel. lia.
  - reflexivity.
  - exists out. split; [exact Hout|]. split; [exact Hn|]. split; [exact Hc|].
    destruct (utils_http.err out); [exact (proj1 He) | exact He].
Qed.

(** X23. The errors of [DoHTTPRequest].  When the transport's own errors
    are not SDK errors, every error returned after the request was built
    has status code 0 and is of kind [Timeout] (the context was done before
    a retry), [Connection] (the last attempt failed in [client.Do] or while
    reading the body) or [Unknown] (no attempt was made, which happens
    exactly when [MaxRetries] is negative).  It is never of kind [Server]:
    a 5xx answer is retried or returned, and never reported as an error. *)
Theorem X23_DoHTTPRequest_errors
        {B : Type} (json_Marshal : B -> bytes + error)
        (http_invalid : string -> string -> option error)
        (canonical : string -> string)
        (client_Do : nat -> http.Request -> http.Response + error)
        (ctx_Done : Z -> option error)
        (method url : string) (body : option B) (headers : list (string * string))
        (config : utils_http.HTTPConfig) (bodyBytes : bytes)
        (out : utils_http.outcome) :
  utils_http.MaxRetries config < 2 ^ 63 - 1 ->
  transport_errors_foreign client_Do ->
  marshalled json_Marshal body = inl bodyBytes ->
  http_invalid method url = None ->
  utils_http.DoHTTPRequest json_Marshal http_invalid canonical client_Do
    ctx_Done method url body headers config = Some out ->
  (forall e,
      utils_http.err out = Some e ->
      utils_http.statusCode out = 0
      /\ (error_kind e = Some ErrorTypeTimeout
          \/ error_kind e = Some ErrorTypeConnection
          \/ (error_kind e = Some ErrorTypeUnknown /\ utils_http.attempts out = O)))
  /\ (utils_http.MaxRetries config < 0 ->
      utils_http.attempts out = O
      /\ exists e, utils_http.err out = Some e
                   /\ error_kind e = Some ErrorTypeUnknown).
Proof.
  intros Hfit Hforeign Hmarshal Hnew Hout.
  unfold utils_http.DoHTTPRequest in Hout. unfold marshalled in Hmarshal.
  unfold http.NewRequestWithContext in Hout. rewrite Hmarshal, Hnew in Hout.
  split.
  - destruct (retry_spec client_Do ctx_Done config
                (utils_http.prepare canonical (http.mkRequest method url bodyBytes []) body
                   headers) Hfit
                (utils_http.retry_fuel config) 0 None O [])
      as (out' & Hout' & _ & _ & _ & He);
      [lia | reflexivity | unfold utils_http.retry_fuel; lia | reflexivity |].
    rewrite Hout in Hout'. inversion Hout'; subst out'.
    intros e Herr. rewrite Herr in He.
    destruct He as [_ He]. destruct (He Hforeign I) as [Hs Hk].
    split; [exact Hs|]. tauto.
  - intro Hneg. unfold utils_http.retry_fuel in Hout.
    cbn [utils_http.retry] in Hout.
    assert ((0 <=? utils_http.MaxRetries config) = false) as Hle
        by (apply Z.leb_gt; lia).
    rewrite Hle in Hout. inversion Hout; subst out. cbn.
    split; [reflexivity|]. eexists. split; reflexivity.
Qed.

(** X22 on a server that is always busy, with the default configuration:
    four calls, and the 503 of the last one comes back without error. *)
Lemma X22_DoHTTPRequest_attempts_witness :
  exists out,
    utils_http.DoHTTPRequest server.text_body server.any_target server.as_written
      server.busy server.never_done "POST" "https://example.test/v1" (Some "{}"%string)
      [] utils_http.DefaultHTTPConfig = Some out
    /\ utils_http.attempts out = 4%nat
    /\ utils_http.statusCode out = 503
    /\ utils_http.err out = None
    /\ length (utils_http.closed out) = 4%nat.
Proof.
  destruct (X22_DoHTTPRequest_attempts server.text_body server.any_target
              server.as_written server.busy server.never_done
              "POST" "https://example.test/v1" (Some "{}"%string) []
              utils_http.DefaultHTTPConfig (bytes_of "{}"))
    as (out & Hout & _); [simpl; lia | reflexivity | reflexivity |].
  exists out. split; [exact Hout|].
  vm_compute in Hout. inversion Hout. repeat split; reflexivity.
Defined.

(** X23 on a server that cannot be reached: four calls, then a
    [Connection] error with status code 0. *)
Lemma X23_DoHTTPRequest_errors_witness :
  let e := NewError ErrorTypeConnection "HTTP请求失败" 0
             (Some (foreign_error "connection refused")) in
  let out := utils_http.mkOutcome [] 0 (Some e) 4 [] in
  utils_http.statusCode out = 0
  /\ (error_kind e = Some ErrorTypeTimeout
      \/ error_kind e = Some ErrorTypeConnection
      \/ (error_kind e = Some ErrorTypeUnknown /\ utils_http.attempts out = O)).
Proof.
  intros e out.
  destruct (X23_DoHTTPRequest_errors server.text_body server.any_target
              server.as_written server.refusing server.never_done
              "POST" "https://example.test/v1" (Some "{}"%string) []
              utils_http.DefaultHTTPConfig (bytes_of "{}") out)
    as [Herr _].
  - simpl. lia.
  - split; intros n req x H; [inversion H; reflexivity | discriminate H].
  - reflexivity.
  - reflexivity.
  - vm_compute. reflexivity.
  - exact (Herr e eq_refl).
Defined.

(** ** The OpenAI client: calls *)

Lemma mapOpenAIError_client (openaiErr : openai_client.OpenAIError) (statusCode : Z) :
  client_error (openai_client.mapOpenAIError openaiErr statusCode)
  /\ error_status (openai_client.mapOpenAIError openaiErr statusCode) = Some statusCode.
Proof.
  unfold openai_client.mapOpenAIError, client_error.
  repeat match goal with
         | |- context [if ?c then _ else _] => destruct c
         end; simpl; repeat split; discriminate.
Qed.

Lemma errorResponse_client J (body : bytes) (statusCode : Z) :
  client_error (openai_client.errorResponse J body statusCode)
  /\ error_status (openai_client.errorResponse J body statusCode) = Some statusCode.
Proof.
  unfold openai_client.errorResponse. destruct (J body) as [openaiErr|err].
  - apply mapOpenAIError_client.
  - unfold client_error. simpl. repeat split; discriminate.
Qed.

Lemma validateRequest_client (request : option api_request.Request) (e : error) :
  openai_client.validateRequest request = Some e -> client_error e.
Proof.
  unfold openai_client.validateRequest, client_error. intro H.
  destruct request as [r|];
    repeat match type of H with
           | context [if ?c then _ else _] => destruct c
           end;
    inversion H; simpl; split; discriminate.
Qed.

Lemma validateRequest_some (request : option api_request.Request) :
  openai_client.validateRequest request = None -> exists r, request = Some r.
Proof. destruct request as [r|]; [eauto | discriminate]. Qed.

(** X24. The contract of [Complete] of the OpenAI client.  It always
    returns.  Every error it returns is an SDK error (never a bare
    transport or decoder error, and never of kind [Timeout]).  A request
    that fails validation is not sent.  What is sent is a [POST] to
    [baseURL/chat/completions] with the JSON of [adaptRequest] as body, the
    JSON content type and the API key as bearer token.  A response is
    returned only for an answer with status 200 whose body was read to the
    end and decoded, and it is [adaptResponse] of the decoded body; an
    answer with any other status gives an error that carries that status,
    whatever its body holds.  The body of the answer is closed exactly
    once whenever an answer was received. *)
Theorem X24_openai_Complete_contract
        (default_transport : http.Request -> http.Response + error)
        (json_Marshal : api_request.object -> bytes + error)
        (http_invalid : string -> string -> option error)
        (json_Unmarshal_error : bytes -> openai_client.OpenAIError + error)
        (json_Unmarshal_response : bytes -> openai_client.OpenAIResponse + error)
        (c : openai_client.Client) (request : option api_request.Request) :
  exists out,
    openai_client.Complete json_Marshal http_invalid json_Unmarshal_error
      json_Unmarshal_response c request = Some out
    /\ (forall e, api_client.result out = inr e -> client_error e)
    /\ (openai_client.validateRequest request <> None -> api_client.sent out = None)
    /\ (forall req,
           api_client.sent out = Some req ->
           http.Method req = "POST"%string
           /\ http.URL req
              = String.append (openai_client.baseURL c) "/chat/completions"
           /\ http.Get (http.Header_ req) "Authorization"
              = String.append "Bearer " (openai_client.apiKey c)
           /\ http.Get (http.Header_ req) "Content-Type" = "application/json"%string
           /\ (exists r, request = Some r
                         /\ json_Marshal (openai_client.adaptRequest r)
                            = inl (http.Body req))
           /\ api_client.body out
              = match http.Do (openai_client.httpClient c) req with
                | inl resp => Some (closed_once resp)
                | inr _ => None
                end)
    /\ (forall response,
           api_client.result out = inl response ->
           exists req resp decoded,
             api_client.sent out = Some req
             /\ http.Do (openai_client.httpClient c) req = inl resp
             /\ http.StatusCode resp = 200
             /\ is_EOF (bufio.final (http.Body_source resp)) = true
             /\ json_Unmarshal_response (bufio.unread (http.Body_source resp))
                = inl decoded
             /\ response = openai_client.adaptResponse decoded)
    /\ (forall req resp,
           api_client.sent out = Some req ->
           http.Do (openai_client.httpClient c) req = inl resp ->
           http.StatusCode resp <> 200 ->
           exists e, api_client.result out = inr e
                     /\ error_status e = Some (http.StatusCode resp)).
Proof.
  unfold openai_client.Complete.
  destruct (openai_client.validateRequest request) as [verr|] eqn:Ev.
  { eexists. split; [reflexivity|]. cbn [api_client.result api_client.sent api_client.body].
    split; [intros e H; inversion H; subst; eapply validateRequest_client; eauto|].
    split; [reflexivity|].
    split; [discriminate|]. split; [discriminate|]. discriminate. }
  destruct (validateRequest_some request Ev) as [r ->].
  destruct (json_Marshal (openai_client.adaptRequest r)) as [reqBody|merr] eqn:Em.
  2:{ eexists. split; [reflexivity|].
      cbn [api_client.result api_client.sent api_client.body].
      split; [intros e H; inversion H; subst; split; discriminate|].
      split; [congruence|].
      split; [discriminate|]. split; [discriminate|]. discriminate. }
  unfold http.NewRequestWithContext.
  destruct (http_invalid "POST"%string
              (String.append (openai_client.baseURL c) "/chat/completions"))
    as [nerr|] eqn:En.
  { eexists. split; [reflexivity|].
    cbn [api_client.result api_client.sent api_client.body].
    split; [intros e H; inversion H; subst; split; discriminate|].
    split; [congruence|].
    split; [discriminate|]. split; [discriminate|]. discriminate. }
  cbv zeta. set (req := http.set_Header _ _).
  assert (forall req0,
             Some req = Some req0 ->
             http.Method req0 = "POST"%string
             /\ http.URL req0
                = String.append (openai_client.baseURL c) "/chat/completions"
             /\ http.Get (http.Header_ req0) "Authorization"
                = String.append "Bearer " (openai_client.apiKey c)
             /\ http.Get (http.Header_ req0) "Content-Type" = "application/json"%string
             /\ (exists r0, Some r = Some r0
                            /\ json_Marshal (openai_client.adaptRequest r0)
                               = inl (http.Body req0))) as Hsent.
  { intros req0 H. inversion H; subst req0. unfold req. cbn.
    do 4 (split; [reflexivity|]). exists r. split; [reflexivity | exact Em]. }
  destruct (http.Do (openai_client.httpClient c) req) as [resp|derr] eqn:Ed.
  2:{ eexists. split; [reflexivity|].
      cbn [api_client.result api_client.sent api_client.body].
      split; [intros e H; inversion H; subst; split; discriminate|].
      split; [congruence|].
      split.
      { intros req0 H. destruct (Hsent req0 H) as (H1 & H2 & H3 & H4 & H5).
        inversion H; subst req0. rewrite Ed. auto 10. }
      split; [discriminate|].
      intros req0 resp0 H Hd. inversion H; subst req0. congruence. }
  unfold http.ReadAll.
  destruct (is_EOF (bufio.final (http.Body_source resp))) eqn:Eeof.
  2:{ eexists. split; [reflexivity|].
      cbn [api_client.result api_client.sent api_client.body].
      split; [intros e H; inversion H; subst; split; discriminate|].
      split; [congruence|].
      split.
      { intros req0 H. destruct (Hsent req0 H) as (H1 & H2 & H3 & H4 & H5).
        inversion H; subst req0. rewrite Ed. auto 10. }
      split; [discriminate|].
      intros req0 resp0 H Hd _. inversion H; subst req0.
      rewrite Ed in Hd. inversion Hd; subst resp0.
      eexists. split; reflexivity. }
  destruct (http.StatusCode resp =? http.StatusOK) eqn:Es; cbn [negb].
  2:{ eexists. split; [reflexivity|].
      cbn [api_client.result api_client.sent api_client.body].
      split; [intros e H; inversion H; subst; apply errorResponse_client|].
      split; [congruence|].
      split.
      { intros req0 H. destruct (Hsent req0 H) as (H1 & H2 & H3 & H4 & H5).
        inversion H; subst req0. rewrite Ed. auto 10. }
      split; [discriminate|].
      intros req0 resp0 H Hd _. inversion H; subst req0.
      rewrite Ed in Hd. inversion Hd; subst resp0.
      eexists. split; [reflexivity | apply errorResponse_client]. }
  apply Z.eqb_eq in Es.
  destruct (json_Unmarshal_response (bufio.unread (http.Body_source resp)))
    as [decoded|uerr] eqn:Eu.
  - eexists. split; [reflexivity|].
    cbn [api_client.result api_client.sent api_client.body].
    split; [discriminate|].
    split; [congruence|].
    split.
    { intros req0 H. destruct (Hsent req0 H) as (H1 & H2 & H3 & H4 & H5).
      inversion H; subst req0. rewrite Ed. auto 10. }
    split.
    { intros response H. inversion H; subst response.
      exists req, resp, decoded. auto 10. }
    intros req0 resp0 H Hd Hs. inversion H; subst req0.
    rewrite Ed in Hd. inversion Hd; subst resp0. contradiction.
  - eexists. split; [reflexivity|].
    cbn [api_client.result api_client.sent api_client.body].
    split; [intros e H; inversion H; subst; split; discriminate|].
    split; [congruence|].
    split.
    { intros req0 H. destruct (Hsent req0 H) as (H1 & H2 & H3 & H4 & H5).
      inversion H; subst req0. rewrite Ed. auto 10. }
    split; [discriminate|].
    intros req0 resp0 H Hd Hs. inversion H; subst req0.
    rewrite Ed in Hd. inversion Hd; subst resp0. contradiction.
Qed.

(** X25. The contract of [CompleteStream] of the OpenAI client.  It
    always returns, every error is an SDK error, and a request that fails
    validation is not sent.  What is sent is the request with its stream
    flag set, as a [POST] that accepts an event stream.  For an answer
    with status 200 the stream is returned over the body as received:
    nothing has been read from it and it has not been closed, so closing
    it is left to the stream.  For an answer with any other status an
    error carrying that status is returned and the body is closed once,
    whatever it holds. *)
Theorem X25_openai_CompleteStream_contract
        (json_Marshal : api_request.object -> bytes + error)
        (http_invalid : string -> string -> option error)
        (json_Unmarshal_error : bytes -> openai_client.OpenAIError + error)
        (c : openai_client.Client) (request : option api_request.Request) :
  exists out,
    openai_client.CompleteStream json_Marshal http_invalid json_Unmarshal_error
      c request = Some out
    /\ (forall e, api_client.result out = inr e -> client_error e)
    /\ (openai_client.validateRequest request <> None -> api_client.sent out = None)
    /\ (forall req,
           api_client.sent out = Some req ->
           exists r,
             request = Some r
             /\ json_Marshal
                  (openai_client.adaptRequest (api_request.set_Stream r true))
                = inl (http.Body req)
             /\ req = openai_stream_request c (http.Body req))
    /\ (forall s,
           api_client.result out = inl s ->
           exists req resp,
             api_client.sent out = Some req
             /\ http.Do (openai_client.httpClient c) req = inl resp
             /\ http.StatusCode resp = 200
             /\ s = openai.mkStream (utils.NewSSEReader (http.Body_source resp))
                      (http.Body_closer resp) []
             /\ api_client.body out = Some (http.Body_closer resp))
    /\ (forall req resp,
           api_client.sent out = Some req ->
           http.Do (openai_client.httpClient c) req = inl resp ->
           http.StatusCode resp <> 200 ->
           exists e, api_client.result out = inr e
                     /\ error_status e = Some (http.StatusCode resp)
                     /\ api_client.body out = Some (closed_once resp)).
Proof.
  unfold openai_client.CompleteStream.
  destruct (openai_client.validateRequest request) as [verr|] eqn:Ev.
  { eexists. split; [reflexivity|]. cbn [api_client.result api_client.sent api_client.body].
    split; [intros e H; inversion H; subst; eapply validateRequest_client; eauto|].
    split; [reflexivity|].
    split; [discriminate|]. split; [discriminate|]. discriminate. }
  destruct (validateRequest_some request Ev) as [r ->]. cbv zeta.
  destruct (json_Marshal (openai_client.adaptRequest (api_request.set_Stream r true)))
    as [reqBody|merr] eqn:Em.
  2:{ eexists. split; [reflexivity|].
      cbn [api_client.result api_client.sent api_client.body].
      split; [intros e H; inversion H; subst; split; discriminate|].
      split; [congruence|].
      split; [discriminate|]. split; [discriminate|]. discriminate. }
  unfold http.NewRequestWithContext.
  destruct (http_invalid "POST"%string
              (String.append (openai_client.baseURL c) "/chat/completions"))
    as [nerr|] eqn:En.
  { eexists. split; [reflexivity|].
    cbn [api_client.result api_client.sent api_client.body].
    split; [intros e H; inversion H; subst; split; discriminate|].
    split; [congruence|].
    split; [discriminate|]. split; [discriminate|]. discriminate. }
  change (http.set_Header _ _) with (openai_stream_request c reqBody).
  set (req := openai_stream_request c reqBody).
  assert (forall req0,
             Some req = Some req0 ->
             exists r0,
               Some r = Some r0
               /\ json_Marshal
                    (openai_client.adaptRequest (api_request.set_Stream r0 true))
                  = inl (http.Body req0)
               /\ req0 = openai_stream_request c (http.Body req0)) as Hsent.
  { intros req0 H. inversion H; subst req0. exists r. auto. }
  destruct (http.Do (openai_client.httpClient c) req) as [resp|derr] eqn:Ed.
  2:{ eexists. split; [reflexivity|].
      cbn [api_client.result api_client.sent api_client.body].
      split; [intros e H; inversion H; subst; split; discriminate|].
      split; [congruence|]. split; [exact Hsent|].
      split; [discriminate|].
      intros req0 resp0 H Hd. inversion H; subst req0. congruence. }
  destruct (http.StatusCode resp =? http.StatusOK) eqn:Es; cbn [negb].
  - apply Z.eqb_eq in Es. eexists. split; [reflexivity|].
    cbn [api_client.result api_client.sent api_client.body].
    split; [discriminate|].
    split; [congruence|]. split; [exact Hsent|].
    split.
    { intros s H. inversion H; subst s. exists req, resp. auto 10. }
    intros req0 resp0 H Hd Hs. inversion H; subst req0.
    rewrite Ed in Hd. inversion Hd; subst resp0. contradiction.
  - eexists. split; [reflexivity|].
    cbn [api_client.result api_client.sent api_client.body].
    split; [intros e H; inversion H; subst; apply errorResponse_client|].
    split; [congruence|]. split; [exact Hsent|].
    split; [discriminate|].
    intros req0 resp0 H Hd _. inversion H; subst req0.
    rewrite Ed in Hd. inversion Hd; subst resp0.
    eexists. split; [reflexivity|]. split; [apply errorResponse_client | reflexivity].
Qed.

(** X26. A streamed completion, end to end.  When the server answers the
    request of [CompleteStream] with status 200 and a body of [data:]
    events that decode to responses, and the callbacks return no error,
    [Process] run on the stream that [CompleteStream] returns makes the
    calls of one chunk per event, in the order of the wire, then reads the
    end of the body, and returns [nil]; with [AutoClose] set, the body of
    the HTTP answer ends closed exactly once. *)
Theorem X26_openai_streamed_completion
        {U : Type}
        (json_Marshal : api_request.object -> bytes + error)
        (http_invalid : string -> string -> option error)
        (json_Unmarshal_error : bytes -> openai_client.OpenAIError + error)
        (J : bytes -> openai.OpenAIStreamResponse + error)
        (c : openai_client.Client) (r : api_request.Request)
        (reqBody : bytes) (resp : http.Response)
        (items : list (string * openai.OpenAIStreamResponse))
        (options : api.StreamOptions U) (u : U) :
  openai_client.validateRequest (Some r) = None ->
  json_Marshal (openai_client.adaptRequest (api_request.set_Stream r true))
  = inl reqBody ->
  http_invalid "POST"%string
    (String.append (openai_client.baseURL c) "/chat/completions") = None ->
  http.Do (openai_client.httpClient c) (openai_stream_request c reqBody) = inl resp ->
  http.StatusCode resp = 200 ->
  http.Body_source resp
  = bufio.mkReader (bytes_of (wire.events (map fst items))) io_EOF ->
  Forall (decodes_to J) items ->
  quiet options ->
  exists s st,
    openai_client.CompleteStream json_Marshal http_invalid json_Unmarshal_error
      c (Some r)
    = Some (api_client.mkCall (inl s) (Some (openai_stream_request c reqBody))
              (Some (http.Body_closer resp)))
    /\ @api.Process _ _ (openai.stream J) (S (length items)) s (Some options) u
       = Some (None, st)
    /\ api.calls st
       = flat_map (chunk_calls options) (map (fun item => openai_chunk (snd item)) items)
           ++ [api.call_Recv (inr io_EOF)]
           ++ completion_calls options None
           ++ closing_calls options
    /\ (api.AutoClose options = true ->
        openai.rawReader (api.stream st) = closed_once resp).
Proof.
  intros Hv Hm Hn Hd Hs Hb Hitems Hq.
  unfold openai_client.CompleteStream. rewrite Hv. cbv zeta. rewrite Hm.
  unfold http.NewRequestWithContext. rewrite Hn.
  change (http.set_Header _ _) with (openai_stream_request c reqBody).
  rewrite Hd, Hs. cbn [Z.eqb Pos.eqb negb]. rewrite Hb.
  eexists. 
  pose proof (openai_chunks_in_order J (http.Body_closer resp) items Hitems [])
    as Hreads.
  assert (api.Recv_times (@api.Recv _ (openai.stream J))
            (S (length (map (fun item => openai_chunk (snd item)) items)))
            (openai.mkStream
               (utils.NewSSEReader
                  (bufio.mkReader (bytes_of (wire.events (map fst items))) io_EOF))
               (http.Body_closer resp) [])
          = Some (map inl (map (fun item => openai_chunk (snd item)) items)
                    ++ [inr io_EOF],
                  openai.mkStream wire.drained (http.Body_closer resp)
                    ([] ++ map decoder_input items))) as Hreads'.
  { rewrite length_map, map_map. exact Hreads. }
  pose proof (Process_loop_quiet options Hq
                (map (fun item => openai_chunk (snd item)) items)
                (api.mkRun
                   (openai.mkStream
                      (utils.NewSSEReader
                         (bufio.mkReader (bytes_of (wire.events (map fst items)))
                            io_EOF))
                      (http.Body_closer resp) []) u [])
                io_EOF _ (S (length items)) Hreads') as Hloop.
  rewrite length_map in Hloop. specialize (Hloop (Nat.lt_succ_diag_r _)).
  eexists. split; [reflexivity|].
  unfold api.Process. rewrite Hloop.
  split; [reflexivity|].
  unfold api.deferred, api.complete, completion_calls, closing_calls, closed_once.
  destruct (api.OnComplete options), (api.AutoClose options); simpl;
    rewrite <- ?app_assoc, ?app_nil_r; split; auto; discriminate.
Qed.

(** ** The clients: error mapping *)

(** X28. How the four clients map the error a backend reports.  Each
    returns an SDK error that carries the HTTP status it was given and is
    never of kind [Timeout] or [Connection].  The OpenAI and DeepSeek
    mappings are the same function of the reported fields.  The Anthropic
    mapping gives the same kind, except that it also knows
    [permission_error], which it maps to [Authentication].  The Gemini
    mapping takes the kind from the code inside the error body, not from
    the HTTP status, and the kind is [Unknown] exactly for a code other
    than 400, 401, 403, 429, 500, 502 and 503. *)
Theorem X28_error_mapping :
  (forall message type param code statusCode,
      deepseek_client.mapDeepSeekError
        (deepseek_client.mkDeepSeekError message type param code) statusCode
      = openai_client.mapOpenAIError
          (openai_client.mkOpenAIError message type param code) statusCode)
  /\ (forall outer message type param code statusCode,
         error_kind (anthropic_client.mapAnthropicError
                       (anthropic_client.mkAnthropicError outer type message)
                       statusCode)
         = if String.eqb type "permission_error"
           then Some ErrorTypeAuthentication
           else error_kind (openai_client.mapOpenAIError
                              (openai_client.mkOpenAIError message type param code)
                              statusCode))
  /\ (forall geminiErr statusCode other,
         error_kind (gemini_client.mapGeminiError geminiErr statusCode)
         = error_kind (gemini_client.mapGeminiError geminiErr other)
         /\ (error_kind (gemini_client.mapGeminiError geminiErr statusCode)
             = Some ErrorTypeUnknown
             <-> ~ In (gemini_client.error_Code geminiErr)
                   [400; 401; 403; 429; 500; 502; 503]))
  /\ (forall openaiErr anthropicErr geminiErr statusCode e,
         In e [openai_client.mapOpenAIError openaiErr statusCode;
               anthropic_client.mapAnthropicError anthropicErr statusCode;
               gemini_client.mapGeminiError geminiErr statusCode] ->
         error_status e = Some statusCode
         /\ error_kind e <> None
         /\ error_kind e <> Some ErrorTypeTimeout
         /\ error_kind e <> Some ErrorTypeConnection).
Proof.
  split; [reflexivity|]. split; [|split].
  - intros outer message type param code statusCode.
    unfold anthropic_client.mapAnthropicError, openai_client.mapOpenAIError.
    cbn [anthropic_client.error_Type openai_client.error_Type error_kind].
    destruct (String.eqb type "invalid_request_error") eqn:E1.
    { apply String.eqb_eq in E1. subst type. reflexivity. }
    destruct (String.eqb type "authentication_error") eqn:E2.
    { apply String.eqb_eq in E2. subst type. reflexivity. }
    destruct (String.eqb type "permission_error"); [reflexivity|].
    destruct (String.eqb type "rate_limit_error"); [reflexivity|].
    destruct (String.eqb type "server_error"); reflexivity.
  - intros geminiErr statusCode other. split; [reflexivity|].
    unfold gemini_client.mapGeminiError. cbn [error_kind In].
    destruct (gemini_client.error_Code geminiErr =? 400) eqn:E400;
      [apply Z.eqb_eq in E400; split; [discriminate | intro H; exfalso; apply H; auto]|].
    destruct (gemini_client.error_Code geminiErr =? 401) eqn:E401;
      [apply Z.eqb_eq in E401; split;
       [discriminate | intro H; exfalso; apply H; auto]|].
    destruct (gemini_client.error_Code geminiErr =? 403) eqn:E403;
      [apply Z.eqb_eq in E403; split;
       [discriminate | intro H; exfalso; apply H; auto]|].
    destruct (gemini_client.error_Code geminiErr =? 429) eqn:E429;
      [apply Z.eqb_eq in E429; split;
       [discriminate | intro H; exfalso; apply H; auto 10]|].
    destruct (gemini_client.error_Code geminiErr =? 500) eqn:E500;
      [apply Z.eqb_eq in E500; split;
       [discriminate | intro H; exfalso; apply H; auto 10]|].
    destruct (gemini_client.error_Code geminiErr =? 502) eqn:E502;
      [apply Z.eqb_eq in E502; split;
       [discriminate | intro H; exfalso; apply H; auto 10]|].
    destruct (gemini_client.error_Code geminiErr =? 503) eqn:E503;
      [apply Z.eqb_eq in E503; split;
       [discriminate | intro H; exfalso; apply H; auto 10]|].
    cbn [orb]. split; [|reflexivity]. intros _.
    apply Z.eqb_neq in E400, E401, E403, E429, E500, E502, E503.
    intros [H|[H|[H|[H|[H|[H|[H|[]]]]]]]]; congruence.
  - intros openaiErr anthropicErr geminiErr statusCode e [<-|[<-|[<-|[]]]].
    + unfold openai_client.mapOpenAIError.
      repeat match goal with
             | |- context [if ?c then _ else _] => destruct c
             end; simpl; repeat split; discriminate.
    + unfold anthropic_client.mapAnthropicError.
      repeat match goal with
             | |- context [if ?c then _ else _] => destruct c
             end; simpl; repeat split; discriminate.
    + unfold gemini_client.mapGeminiError.
      repeat match goal with
             | |- context [if ?c then _ else _] => destruct c
             end; simpl; repeat split; discriminate.
Qed.

(** X26 on a server that streams [Hel] and [lo], with callbacks that keep
    a transcript: the transcript is complete and the body has been closed
    once. *)
Lemma X26_openai_streamed_completion_witness :
  let answer := server.streaming
                  [fst (sample.openai_text "Hel"); fst (sample.openai_text "lo")] in
  exists s st,
    openai_client.CompleteStream server.compact server.any_target server.no_details
      (server.openai_over answer) (Some (inquiry.chat "gpt-4" []))
    = Some (api_client.mkCall (inl s)
              (Some (openai_stream_request (server.openai_over answer) (bytes_of "{}")))
              (Some sample.lenient_body))
    /\ @api.Process _ _ (openai.stream sample.openai_json) 3 s
         (Some consumer.transcript) EmptyString
       = Some (None, st)
    /\ io.closes (openai.rawReader (api.stream st)) = 1%nat.
Proof.
  intro answer.
  destruct (X26_openai_streamed_completion server.compact server.any_target
              server.no_details sample.openai_json (server.openai_over answer)
              (inquiry.chat "gpt-4" []) (bytes_of "{}")
              (http.mkResponse 200
                 (bufio.mkReader
                    (bytes_of (wire.events [fst (sample.openai_text "Hel");
                                            fst (sample.openai_text "lo")])) io_EOF)
                 sample.lenient_body)
              [sample.openai_text "Hel"; sample.openai_text "lo"]
              consumer.transcript EmptyString)
    as (s & st & Hs & Hp & _ & Hc).
  - reflexivity.
  - reflexivity.
  - reflexivity.
  - reflexivity.
  - reflexivity.
  - reflexivity.
  - repeat constructor; try discriminate; vm_compute; reflexivity.
  - split; intros f x u H; inversion H; reflexivity.
  - exists s, st. split; [exact Hs|]. split; [exact Hp|].
    rewrite (Hc eq_refl). reflexivity.
Defined.

(** ** The Gemini client: a streamed completion *)

(** X29. A streamed completion of the Gemini client.  The request goes to
    [baseURL/models/<model>:streamGenerateContent] with the API key in the
    query string of the URL and in no header.  When the answer has status
    200, the stream returned reads the untouched body, carries the model of
    the request and starts counting at zero: over any number of reads the
    chunks are named [chunk-1], [chunk-2], ... in the order returned, and
    each carries the request's model. *)
Theorem X29_gemini_streamed_completion
        (json_Marshal : api_request.object -> bytes + error)
        (http_invalid : string -> string -> option error)
        (json_Unmarshal_error : bytes -> gemini_client.GeminiError + error)
        (J : bytes -> gemini.GeminiStreamResponse + error)
        (clock : utils.SSEReader -> Z)
        (c : gemini_client.Client) (r : api_request.Request)
        (reqBody : bytes) (resp : http.Response) :
  gemini_client.validateRequest (Some r) = None ->
  json_Marshal (gemini_client.adaptStreamRequest r) = inl reqBody ->
  http_invalid "POST"%string
    (gemini_client.streamEndpoint c (api_request.Model r)) = None ->
  http.Do (gemini_client.httpClient c)
    (gemini_stream_request c (api_request.Model r) reqBody) = inl resp ->
  http.StatusCode resp = 200 ->
  let req := gemini_stream_request c (api_request.Model r) reqBody in
  let s := gemini.mkStream (utils.NewSSEReader (http.Body_source resp))
             (http.Body_closer resp) (api_request.Model r) 0 [] in
  gemini_client.CompleteStream json_Marshal http_invalid json_Unmarshal_error
    c (Some r)
  = Some (api_client.mkCall (inl s) (Some req) (Some (http.Body_closer resp)))
  /\ http.URL req
     = String.append (gemini_client.baseURL c)
         (String.append "/models/"
            (String.append (api_request.Model r)
               (String.append ":streamGenerateContent?key="
                  (String.append (gemini_client.apiKey c) "&alt=sse"))))
  /\ http.Get (http.Header_ req) "Authorization" = EmptyString
  /\ (forall (n : nat) results s',
         Z.of_nat n < 2 ^ 63 ->
         api.Recv_times (gemini.Recv J clock) n s = Some (results, s') ->
         map api.ID (chunks_of results) = chunk_names 1 (length (chunks_of results))
         /\ Forall (fun chunk => api.Model chunk = api_request.Model r)
              (chunks_of results)).
Proof.
  intros Hv Hm Hn Hd Hs req s.
  split; [|split; [reflexivity|split; [reflexivity|]]].
  - unfold gemini_client.CompleteStream. rewrite Hv. cbv zeta. rewrite Hm.
    unfold http.NewRequestWithContext. rewrite Hn.
    change (http.set_Header _ _)
      with (gemini_stream_request c (api_request.Model r) reqBody).
    rewrite Hd, Hs. reflexivity.
  - intros n results s' Hbound Hreads.
    destruct (gemini_numbering J clock n s results s' Hreads)
      as (Hids & _ & _ & _ & Hall); [simpl; lia | simpl; lia |].
    split; [exact Hids|].
    eapply Forall_impl; [|exact Hall]. intros chunk (Hmodel & _). exact Hmodel.
Qed.

(** X29 on a server that streams an event without candidates, a candidate
    with two parts and a finished candidate: the key travels in the URL and
    the two chunks are [chunk-1] and [chunk-2]. *)
Lemma X29_gemini_streamed_completion_witness :
  let answer := server.streaming
                  [sample.no_candidates; sample.two_parts; sample.finished] in
  let c := server.gemini_over answer in
  http.URL (gemini_stream_request c "gemini-pro" (bytes_of "{}"))
  = "https://generativelanguage.googleapis.com/v1/models/gemini-pro:streamGenerateContent?key=g-test&alt=sse"%string
  /\ exists s results s',
      gemini_client.CompleteStream server.compact server.any_target
        server.no_gemini_details c (Some (inquiry.chat "gemini-pro" []))
      = Some (api_client.mkCall (inl s)
                (Some (gemini_stream_request c "gemini-pro" (bytes_of "{}")))
                (Some sample.lenient_body))
      /\ api.Recv_times (gemini.Recv sample.gemini_json sample.clock) 3 s
         = Some (results, s')
      /\ map api.ID (chunks_of results) = ["chunk-1"; "chunk-2"]%string.
Proof.
  intros answer c.
  destruct (X29_gemini_streamed_completion server.compact server.any_target
              server.no_gemini_details sample.gemini_json sample.clock c
              (inquiry.chat "gemini-pro" []) (bytes_of "{}")
              (http.mkResponse 200
                 (bufio.mkReader
                    (bytes_of (wire.events [sample.no_candidates; sample.two_parts;
                                            sample.finished])) io_EOF)
                 sample.lenient_body))
    as (Hcall & Hurl & _ & Hids);
    [reflexivity | reflexivity | reflexivity | reflexivity | reflexivity |].
  split; [exact Hurl|].
  destruct (api.Recv_times (gemini.Recv sample.gemini_json sample.clock) 3
              (gemini.mkStream
                 (utils.NewSSEReader
                    (bufio.mkReader
                       (bytes_of (wire.events [sample.no_candidates; sample.two_parts;
                                               sample.finished])) io_EOF))
                 sample.lenient_body "gemini-pro" 0 []))
    as [[results s']|] eqn:E; [|vm_compute in E; discriminate].
  eexists. exists results, s'. split; [exact Hcall|]. split; [exact E|].
  destruct (Hids 3%nat results s') as [Hnames _]; [simpl; lia | exact E |].
  vm_compute in E. inversion E; subst. exact Hnames.
Defined.

(** ** The DeepSeek client is the OpenAI client *)

Lemma as_openai_adaptResponse (r : deepseek_client.DeepSeekResponse) :
  openai_client.adaptResponse (as_openai_response r) = deepseek_client.adaptResponse r.
Proof.
  unfold openai_client.adaptResponse, deepseek_client.adaptResponse, as_openai_response.
  cbn [openai_client.Choices openai_client.ID openai_client.Object
       openai_client.Created openai_client.Model openai_client.Usage
       openai_client.PromptTokens openai_client.CompletionTokens
       openai_client.TotalTokens].
  now rewrite map_map.
Qed.

Lemma as_openai_errorResponse je (body : bytes) (statusCode : Z) :
  openai_client.errorResponse (decoded_as as_openai_error je) body statusCode
  = deepseek_client.errorResponse je body statusCode.
Proof.
  unfold openai_client.errorResponse, deepseek_client.errorResponse, decoded_as.
  destruct (je body); reflexivity.
Qed.

Lemma as_openai_Recv_fuel J (fuel : nat) :
  forall s,
    openai.Recv_fuel (decoded_as as_openai_event J) fuel (as_openai_stream s)
    = received_as as_openai_stream (deepseek.Recv_fuel J fuel s).
Proof.
  induction fuel as [|fuel IH]; intro s; [reflexivity|].
  cbn [openai.Recv_fuel deepseek.Recv_fuel].
  change (openai.reader (as_openai_stream s)) with (deepseek.reader s).
  destruct (utils.ReadEvent (deepseek.reader s)) as [[[event|err] r]|];
    [| |reflexivity].
  - cbv zeta.
    change (openai.set_reader (as_openai_stream s) r)
      with (as_openai_stream (deepseek.set_reader s r)).
    destruct (negb (nonempty (utils.Data event))
              || String.eqb (utils.Data event) "[DONE]").
    + destruct (String.eqb (utils.Data event) "[DONE]"); [reflexivity | apply IH].
    + unfold decoded_as.
      destruct (J (bytes_of (utils.ParseSSEData (utils.Data event))))
        as [streamResp|derr]; [|reflexivity].
      unfold received_as, as_openai_event.
      cbn [openai.Choices openai.ID openai.Object openai.Created openai.Model].
      rewrite map_map. reflexivity.
  - cbv zeta. destruct (is_EOF err); reflexivity.
Qed.

(** X30. The DeepSeek client is the OpenAI client under other names.
    With DeepSeek's structs read field by field as OpenAI's, [Complete]
    and [CompleteStream] of the two clients return the same result, send
    the same request and treat the response body alike, on every input;
    [Recv] and [Close] of the two streams return the same and leave the
    same stream; and [NewClient] of DeepSeek is [NewClient] of OpenAI with
    DeepSeek's base URL as the default. *)
Theorem X30_deepseek_is_openai
        (default_transport : http.Request -> http.Response + error)
        (json_Marshal : api_request.object -> bytes + error)
        (http_invalid : string -> string -> option error)
        (je : bytes -> deepseek_client.DeepSeekError + error)
        (jr : bytes -> deepseek_client.DeepSeekResponse + error)
        (J : bytes -> deepseek.DeepSeekStreamResponse + error) :
  (forall c request,
      openai_client.Complete json_Marshal http_invalid
        (decoded_as as_openai_error je) (decoded_as as_openai_response jr)
        (as_openai_client c) request
      = deepseek_client.Complete json_Marshal http_invalid je jr c request)
  /\ (forall c request,
         openai_client.CompleteStream json_Marshal http_invalid
           (decoded_as as_openai_error je) (as_openai_client c) request
         = call_as as_openai_stream
             (deepseek_client.CompleteStream json_Marshal http_invalid je c request))
  /\ (forall s,
         openai.Recv (decoded_as as_openai_event J) (as_openai_stream s)
         = received_as as_openai_stream (deepseek.Recv J s))
  /\ (forall s,
         openai.Close (as_openai_stream s)
         = (fst (deepseek.Close s), as_openai_stream (snd (deepseek.Close s))))
  /\ (forall options,
         openai_client.NewClient default_transport
           (with_BaseURL deepseek_client.defaultBaseURL :: options)
         = match deepseek_client.NewClient default_transport options with
           | inl c => inl (as_openai_client c)
           | inr err => inr err
           end).
Proof.
  split; [|split; [|split; [|split]]].
  - intros c request.
    unfold openai_client.Complete, deepseek_client.Complete.
    change (openai_client.validateRequest request)
      with (deepseek_client.validateRequest request).
    destruct (deepseek_client.validateRequest request); [reflexivity|].
    destruct request as [r|]; [|reflexivity].
    change (openai_client.adaptRequest r) with (deepseek_client.adaptRequest r).
    destruct (json_Marshal (deepseek_client.adaptRequest r)); [|reflexivity].
    change (openai_client.baseURL (as_openai_client c))
      with (deepseek_client.baseURL c).
    destruct (http.NewRequestWithContext http_invalid "POST"
                (String.append (deepseek_client.baseURL c) "/chat/completions") b)
      as [req|]; [|reflexivity].
    cbv zeta.
    change (openai_client.apiKey (as_openai_client c))
      with (deepseek_client.apiKey c).
    change (openai_client.httpClient (as_openai_client c))
      with (deepseek_client.httpClient c).
    destruct (http.Do (deepseek_client.httpClient c) _) as [resp|]; [|reflexivity].
    destruct (http.ReadAll (http.Body_source resp)) as [body [rerr|]];
      [reflexivity|].
    destruct (negb (http.StatusCode resp =? http.StatusOK)).
    + now rewrite as_openai_errorResponse.
    + unfold decoded_as. destruct (jr body); [|reflexivity].
      now rewrite as_openai_adaptResponse.
  - intros c request.
    unfold openai_client.CompleteStream, deepseek_client.CompleteStream, call_as.
    change (openai_client.validateRequest request)
      with (deepseek_client.validateRequest request).
    destruct (deepseek_client.validateRequest request); [reflexivity|].
    destruct request as [r|]; [|reflexivity]. cbv zeta.
    change (openai_client.adaptRequest (api_request.set_Stream r true))
      with (deepseek_client.adaptRequest (api_request.set_Stream r true)).
    destruct (json_Marshal (deepseek_client.adaptRequest
                              (api_request.set_Stream r true))); [|reflexivity].
    change (openai_client.baseURL (as_openai_client c))
      with (deepseek_client.baseURL c).
    destruct (http.NewRequestWithContext http_invalid "POST"
                (String.append (deepseek_client.baseURL c) "/chat/completions") b)
      as [req|]; [|reflexivity].
    change (openai_client.apiKey (as_openai_client c))
      with (deepseek_client.apiKey c).
    change (openai_client.httpClient (as_openai_client c))
      with (deepseek_client.httpClient c).
    destruct (http.Do (deepseek_client.httpClient c) _) as [resp|]; [|reflexivity].
    destruct (negb (http.StatusCode resp =? http.StatusOK)).
    + cbn [api_client.result api_client.sent api_client.body].
      now rewrite as_openai_errorResponse.
    + reflexivity.
  - intro s. apply as_openai_Recv_fuel.
  - intro s. reflexivity.
  - intro options.
    unfold openai_client.NewClient, deepseek_client.NewClient.
    cbn [fold_left].
    change (with_BaseURL deepseek_client.defaultBaseURL
              (api_client.mkClientOptions EmptyString openai_client.defaultBaseURL
                 None (openai_client.defaultTimeout / time_Second)
                 openai_client.defaultMaxRetries))
      with (api_client.mkClientOptions EmptyString deepseek_client.defaultBaseURL
              None (deepseek_client.defaultTimeout / time_Second)
              deepseek_client.defaultMaxRetries).
    destruct (negb (nonempty (api_client.APIKey _))); reflexivity.
Qed.
